(** * bereal-gdpr-photo-toolkit: process-photos.py

    A shallow embedding of the photo post-processing script and the
    properties of its timezone normaliser, DMS encoder, filename
    deduplicator, per-record loop and combine pass. *)

From Stdlib Require Import ZArith QArith Qround Qabs Qpower Lia Lqa String Ascii List Bool.
From Stdlib Require Import PrimFloat FloatOps FloatAxioms SpecFloat.
From stdpp Require Import base option list gmap strings pretty.

Set Warnings "-inexact-float".

(** ** Exceptions

    Python exceptions are values: a fallible computation returns
    [Ok a] or [Raise e]. [LoopFuel] is not a Python exception: it marks
    a [while] loop of the model that ran out of fuel, and the theorems
    below show that it is never produced. *)

Inductive exn :=
| OverflowError
| ValueError
| TypeError
| AttributeError
| KeyError
| FileNotFoundError
| OSError
| StructError
| LoopFuel.

Inductive result (A : Type) :=
| Ok (a : A)
| Raise (e : exn).
Arguments Ok {A} a.
Arguments Raise {A} e.

Global Instance result_ret : MRet result := fun A a => Ok a.
Global Instance result_bind : MBind result := fun A B k r =>
  match r with
  | Ok a => k a
  | Raise e => Raise e
  end.

(** ** The proleptic Gregorian calendar of Python's [datetime] *)

Module Calendar.
Local Open Scope Z_scope.

Definition MINYEAR : Z := 1.
Definition MAXYEAR : Z := 9999.
Definition _MAXORDINAL : Z := 3652059.

Definition _DAYS_IN_MONTH (month : Z) : Z :=
  match month with
  | 1 => 31 | 2 => 28 | 3 => 31 | 4 => 30 | 5 => 31 | 6 => 30
  | 7 => 31 | 8 => 31 | 9 => 30 | 10 => 31 | 11 => 30 | 12 => 31
  | _ => -1
  end.

Definition _DAYS_BEFORE_MONTH (month : Z) : Z :=
  match month with
  | 1 => 0 | 2 => 31 | 3 => 59 | 4 => 90 | 5 => 120 | 6 => 151
  | 7 => 181 | 8 => 212 | 9 => 243 | 10 => 273 | 11 => 304 | 12 => 334
  | _ => -1
  end.

Definition _is_leap (year : Z) : bool :=
  (year mod 4 =? 0) && (negb (year mod 100 =? 0) || (year mod 400 =? 0)).

Definition b2z (b : bool) : Z := if b then 1 else 0.

Definition _days_before_year (year : Z) : Z :=
  let y := year - 1 in
  y * 365 + y / 4 - y / 100 + y / 400.

Definition _days_in_month (year month : Z) : Z :=
  if (month =? 2) && _is_leap year then 29 else _DAYS_IN_MONTH month.

Definition _days_before_month (year month : Z) : Z :=
  _DAYS_BEFORE_MONTH month + b2z ((2 <? month) && _is_leap year).

Definition _ymd2ord (year month day : Z) : Z :=
  _days_before_year year + _days_before_month year month + day.

Definition _DI400Y : Z := 146097.
Definition _DI100Y : Z := 36524.
Definition _DI4Y : Z := 1461.

(** The month and day of the [n]-th day (from 0) of a year. *)
Definition _month_day (leapyear : bool) (n : Z) : Z * Z :=
  let month := Z.shiftr (n + 50) 5 in
  let preceding := _DAYS_BEFORE_MONTH month + b2z ((2 <? month) && leapyear) in
  if n <? preceding then
    let month := month - 1 in
    let preceding :=
      preceding - (_DAYS_IN_MONTH month + b2z ((month =? 2) && leapyear)) in
    (month, n - preceding + 1)
  else (month, n - preceding + 1).

Definition _ord2ymd (n : Z) : Z * Z * Z :=
  let n := n - 1 in
  let n400 := n / _DI400Y in
  let n := n mod _DI400Y in
  let year := n400 * 400 + 1 in
  let n100 := n / _DI100Y in
  let n := n mod _DI100Y in
  let n4 := n / _DI4Y in
  let n := n mod _DI4Y in
  let n1 := n / 365 in
  let n := n mod 365 in
  let year := year + n100 * 100 + n4 * 4 + n1 in
  if (n1 =? 4) || (n100 =? 4) then (year - 1, 12, 31)
  else
    let leapyear := (n1 =? 3) && (negb (n4 =? 24) || (n100 =? 3)) in
    let '(month, day) := _month_day leapyear n in
    (year, month, day).

Definition valid_date (y m d : Z) : Prop :=
  1 <= y /\ 1 <= m <= 12 /\ 1 <= d <= _days_in_month y m.

(** *** The calendar functions are inverse to each other *)

Ltac zb := repeat match goal with
  | |- context [?a =? ?b] => destruct (Z.eqb_spec a b)
  | |- context [?a <? ?b] => destruct (Z.ltb_spec a b)
  | |- context [?a <=? ?b] => destruct (Z.leb_spec a b)
  end.

Ltac month_cases m :=
  let H := fresh in
  assert (H : m = 1 \/ m = 2 \/ m = 3 \/ m = 4 \/ m = 5 \/ m = 6 \/ m = 7
              \/ m = 8 \/ m = 9 \/ m = 10 \/ m = 11 \/ m = 12) by lia;
  repeat (destruct H as [H | H]; [subst m | ]); [.. | subst m].

Definition month_day_ok (leap : bool) (n : Z) : bool :=
  let '(m, d) := _month_day leap n in
  (1 <=? m) && (m <=? 12) && (1 <=? d)
  && (d <=? _DAYS_IN_MONTH m + b2z ((m =? 2) && leap))
  && (_DAYS_BEFORE_MONTH m + b2z ((2 <? m) && leap) + d =? n + 1).

Definition date_lt (a b : Z * Z * Z) : Prop :=
  let '(y, m, d) := a in
  let '(y', m', d') := b in
  y < y' \/ (y = y' /\ (m < m' \/ (m = m' /\ d < d'))).

Lemma month_day_ok_all leap :
  forallb (fun k => month_day_ok leap (Z.of_nat k))
          (seq 0 (if leap then 366 else 365)) = true.
Proof. destruct leap; vm_compute; reflexivity. Qed.

Lemma month_day_spec leap n m d :
  0 <= n < 365 + b2z leap -> _month_day leap n = (m, d) ->
  1 <= m <= 12 /\ 1 <= d <= _DAYS_IN_MONTH m + b2z ((m =? 2) && leap)
  /\ _DAYS_BEFORE_MONTH m + b2z ((2 <? m) && leap) + d = n + 1.
Proof.
  intros Hn Hmd.
  pose proof (month_day_ok_all leap) as Hall.
  rewrite forallb_forall in Hall.
  specialize (Hall (Z.to_nat n)).
  rewrite Z2Nat.id in Hall by lia.
  unfold month_day_ok in Hall. rewrite Hmd in Hall.
  assert (Hin : In (Z.to_nat n) (seq 0 (if leap then 366 else 365))).
  { apply in_seq. destruct leap; simpl in *; lia. }
  specialize (Hall Hin).
  repeat (apply andb_prop in Hall; destruct Hall as [Hall ?]).
  lia.
Qed.

Lemma days_in_month_alt y m :
  _days_in_month y m = _DAYS_IN_MONTH m + b2z ((m =? 2) && _is_leap y).
Proof.
  unfold _days_in_month. destruct (Z.eqb_spec m 2) as [->|]; simpl; [|lia].
  destruct (_is_leap y); reflexivity.
Qed.

Lemma ord2ymd_spec n y m d :
  1 <= n -> _ord2ymd n = (y, m, d) ->
  valid_date y m d /\ _ymd2ord y m d = n.
Proof.
  unfold _ord2ymd, _DI400Y, _DI100Y, _DI4Y. intros Hn.
  set (n0 := n - 1).
  set (n400 := n0 / 146097). set (r1 := n0 mod 146097).
  set (n100 := r1 / 36524). set (r2 := r1 mod 36524).
  set (n4 := r2 / 1461). set (r3 := r2 mod 1461).
  set (n1 := r3 / 365). set (r4 := r3 mod 365).
  set (yr := n400 * 400 + 1 + n100 * 100 + n4 * 4 + n1).
  assert (Hdby : n1 <> 4 -> n100 <> 4 -> _days_before_year yr = n0 - r4).
  { intros. unfold _days_before_year, yr. subst n0 n400 r1 n100 r2 n4 r3 n1 r4.
    Z.div_mod_to_equations. lia. }
  assert (Hleap : n1 <> 4 -> n100 <> 4 ->
     _is_leap yr = (n1 =? 3) && (negb (n4 =? 24) || (n100 =? 3))).
  { intros. unfold _is_leap, yr. subst n0 n400 r1 n100 r2 n4 r3 n1 r4.
    zb; simpl; try reflexivity; exfalso; Z.div_mod_to_equations; lia. }
  destruct ((n1 =? 4) || (n100 =? 4)) eqn:E.
  - intros [= <- <- <-].
    unfold valid_date, _ymd2ord, _days_before_month, _days_in_month,
      _days_before_year, _is_leap.
    subst yr n0 n400 r1 n100 r2 n4 r3 n1 r4.
    apply orb_true_iff in E.
    zb; simpl; unfold b2z; Z.div_mod_to_equations; lia.
  - apply orb_false_iff in E. destruct E as [E1 E2].
    apply Z.eqb_neq in E1, E2.
    specialize (Hdby E1 E2). specialize (Hleap E1 E2). rewrite <- Hleap.
    destruct (_month_day (_is_leap yr) r4) as [mm dd] eqn:Hmd.
    intros [= <- <- <-].
    apply month_day_spec in Hmd.
    + unfold valid_date, _ymd2ord, _days_before_month.
      rewrite days_in_month_alt, Hdby.
      assert (1 <= yr).
      { subst yr n0 n400 r1 n100 r2 n4 r3 n1 r4. Z.div_mod_to_equations. lia. }
      subst n0. lia.
    + rewrite Hleap. subst yr n0 n400 r1 n100 r2 n4 r3 n1 r4.
      zb; simpl; Z.div_mod_to_equations; lia.
Qed.

Lemma days_before_year_succ y :
  _days_before_year (y + 1) = _days_before_year y + 365 + b2z (_is_leap y).
Proof.
  unfold _days_before_year, _is_leap, b2z.
  replace (y + 1 - 1) with y by lia.
  zb; simpl; Z.div_mod_to_equations; lia.
Qed.

Lemma days_before_year_mono y y' :
  y < y' -> _days_before_year (y + 1) <= _days_before_year y'.
Proof.
  intros. unfold _days_before_year.
  replace (y + 1 - 1) with y by lia.
  Z.div_mod_to_equations; lia.
Qed.

Lemma days_before_year_nonneg y : 1 <= y -> 0 <= _days_before_year y.
Proof. intros. unfold _days_before_year. Z.div_mod_to_equations; lia. Qed.

Lemma day_of_year_bounds y m d :
  valid_date y m d ->
  1 <= _days_before_month y m + d <= 365 + b2z (_is_leap y).
Proof.
  intros (Hy & Hm & Hd). rewrite days_in_month_alt in Hd.
  unfold _days_before_month.
  month_cases m; destruct (_is_leap y); simpl in *; lia.
Qed.

Lemma days_before_month_mono y m m' d :
  1 <= m -> m < m' -> m' <= 12 -> d <= _days_in_month y m ->
  _days_before_month y m + d <= _days_before_month y m'.
Proof.
  intros H1 H2 H3 Hd. rewrite days_in_month_alt in Hd.
  unfold _days_before_month.
  month_cases m; month_cases m'; try lia; destruct (_is_leap y); simpl in *; lia.
Qed.

Lemma ymd2ord_lt y m d y' m' d' :
  valid_date y m d -> valid_date y' m' d' ->
  date_lt (y, m, d) (y', m', d') ->
  _ymd2ord y m d < _ymd2ord y' m' d'.
Proof.
  intros V V' Hlt. unfold _ymd2ord.
  pose proof (day_of_year_bounds _ _ _ V).
  pose proof (day_of_year_bounds _ _ _ V').
  destruct Hlt as [Hy | [-> [Hm | [-> Hd]]]].
  - pose proof (days_before_year_mono _ _ Hy).
    pose proof (days_before_year_succ y). lia.
  - destruct V as (? & ? & ?), V' as (? & ? & ?).
    pose proof (days_before_month_mono y' m m' d). lia.
  - lia.
Qed.

Lemma ymd2ord_pos y m d : valid_date y m d -> 1 <= _ymd2ord y m d.
Proof.
  intros V. pose proof (day_of_year_bounds _ _ _ V).
  destruct V as (? & ? & ?).
  pose proof (days_before_year_nonneg y). unfold _ymd2ord. lia.
Qed.

Lemma ymd2ord_inj y m d y' m' d' :
  valid_date y m d -> valid_date y' m' d' ->
  _ymd2ord y m d = _ymd2ord y' m' d' -> (y, m, d) = (y', m', d').
Proof.
  intros V V' E.
  destruct (Z.lt_trichotomy y y') as [?|[->|?]];
   [pose proof (ymd2ord_lt _ _ _ _ _ _ V V'); unfold date_lt in *; lia | |
    pose proof (ymd2ord_lt _ _ _ _ _ _ V' V); unfold date_lt in *; lia].
  destruct (Z.lt_trichotomy m m') as [?|[->|?]];
   [pose proof (ymd2ord_lt _ _ _ _ _ _ V V'); unfold date_lt in *; lia | |
    pose proof (ymd2ord_lt _ _ _ _ _ _ V' V); unfold date_lt in *; lia].
  unfold _ymd2ord in E. f_equal. lia.
Qed.

Lemma ord2ymd_ymd2ord y m d :
  valid_date y m d -> _ord2ymd (_ymd2ord y m d) = (y, m, d).
Proof.
  intros V. destruct (_ord2ymd (_ymd2ord y m d)) as [[y' m'] d'] eqn:E.
  apply ord2ymd_spec in E; [|by apply ymd2ord_pos].
  destruct E as [V' E]. by apply ymd2ord_inj.
Qed.

End Calendar.

(** ** [datetime] and [timedelta] *)

Module PyDatetime.
Import Calendar.
Local Open Scope Z_scope.

(** [timezone.utc] is the only [tzinfo] the script attaches to a value it
    keeps: a zone of the database is dropped again right after the
    conversion. *)
Inductive tz := UTC.

Record datetime := mkdatetime {
  year : Z;
  month : Z;
  day : Z;
  hour : Z;
  minute : Z;
  second : Z;
  microsecond : Z;
  tzinfo : option tz;
}.

(** A [timedelta] is its number of microseconds. *)
Definition timedelta (days hours : Z) : Z :=
  (days * 86400 + hours * 3600) * 1000000.

Definition US_PER_DAY : Z := 86400 * 1000000.

Definition valid_time (h mi s us : Z) : Prop :=
  0 <= h < 24 /\ 0 <= mi < 60 /\ 0 <= s < 60 /\ 0 <= us < 1000000.

Definition valid_datetime (dt : datetime) : Prop :=
  year dt <= MAXYEAR
  /\ valid_date (year dt) (month dt) (day dt)
  /\ valid_time (hour dt) (minute dt) (second dt) (microsecond dt).

(** The constructor [datetime(year, month, day)] checks its fields. *)
Definition datetime_ymd (y m d : Z) : result datetime :=
  if (MINYEAR <=? y) && (y <=? MAXYEAR) && (1 <=? m) && (m <=? 12)
     && (1 <=? d) && (d <=? _days_in_month y m)
  then Ok (mkdatetime y m d 0 0 0 0 None)
  else Raise ValueError.

Definition replace_tzinfo (dt : datetime) (t : option tz) : datetime :=
  mkdatetime (year dt) (month dt) (day dt)
             (hour dt) (minute dt) (second dt) (microsecond dt) t.

Definition replace_time (dt : datetime) (h mi s us : Z) : datetime :=
  mkdatetime (year dt) (month dt) (day dt) h mi s us (tzinfo dt).

Definition toordinal (dt : datetime) : Z :=
  _ymd2ord (year dt) (month dt) (day dt).

(** Monday is 0 and Sunday is 6. *)
Definition weekday (dt : datetime) : Z := (toordinal dt + 6) mod 7.

(** [timedelta(days=toordinal, hours=.., minutes=.., seconds=..,
    microseconds=..)], the value [__add__] starts from. *)
Definition as_timedelta (dt : datetime) : Z :=
  (toordinal dt * 86400 + hour dt * 3600 + minute dt * 60 + second dt) * 1000000
  + microsecond dt.

(** [dt + td]: [OverflowError] outside 0001-01-01 .. 9999-12-31. *)
Definition add (dt : datetime) (td : Z) : result datetime :=
  let delta := as_timedelta dt + td in
  let days := delta / US_PER_DAY in
  let rest := delta mod US_PER_DAY in
  let seconds := rest / 1000000 in
  let us := rest mod 1000000 in
  let h := seconds / 3600 in
  let rem := seconds mod 3600 in
  let mi := rem / 60 in
  let s := rem mod 60 in
  if (0 <? days) && (days <=? _MAXORDINAL) then
    let '(y, m, d) := _ord2ymd days in
    Ok (mkdatetime y m d h mi s us (tzinfo dt))
  else Raise OverflowError.

Definition sub (dt : datetime) (td : Z) : result datetime := add dt (- td).

(** Comparison of two naive values: the field tuples, lexicographically. *)
Definition lex (c : comparison) (k : comparison) : comparison :=
  match c with
  | Eq => k
  | _ => c
  end.

Definition _cmp (a b : datetime) : comparison :=
  lex (year a ?= year b)
  (lex (month a ?= month b)
  (lex (day a ?= day b)
  (lex (hour a ?= hour b)
  (lex (minute a ?= minute b)
  (lex (second a ?= second b)
       (microsecond a ?= microsecond b)))))).

Definition le (a b : datetime) : bool :=
  match _cmp a b with
  | Gt => false
  | _ => true
  end.

Definition lt (a b : datetime) : bool :=
  match _cmp a b with
  | Lt => true
  | _ => false
  end.

(** *** strftime *)

Definition digit (n : Z) : ascii :=
  ascii_of_nat (48 + Z.to_nat (n mod 10)).

Definition pad2 (n : Z) : string :=
  String (digit (n / 10)) (String (digit n) EmptyString).

(** [%Y]: four digits. This is what [strftime] prints for the years from
    1000 on; for an earlier year the C library decides whether the zeros
    in front are printed, and no statement below depends on them. *)
Definition pad4 (n : Z) : string :=
  String (digit (n / 1000)) (String (digit (n / 100)) (pad2 n)).

(** ["%Y:%m:%d %H:%M:%S"], the EXIF date format. *)
Definition strftime_exif (dt : datetime) : string :=
  pad4 (year dt) +:+ ":" +:+ pad2 (month dt) +:+ ":" +:+ pad2 (day dt) +:+ " "
  +:+ pad2 (hour dt) +:+ ":" +:+ pad2 (minute dt) +:+ ":" +:+ pad2 (second dt).

(** ["%Y-%m-%dT%H-%M-%S"], the timestamp of the file names. *)
Definition strftime_name (dt : datetime) : string :=
  pad4 (year dt) +:+ "-" +:+ pad2 (month dt) +:+ "-" +:+ pad2 (day dt) +:+ "T"
  +:+ pad2 (hour dt) +:+ "-" +:+ pad2 (minute dt) +:+ "-" +:+ pad2 (second dt).

(** ["%Y-%m-%dT%H:%M:%S"], the [creation_time] of a video. *)
Definition strftime_iso (dt : datetime) : string :=
  pad4 (year dt) +:+ "-" +:+ pad2 (month dt) +:+ "-" +:+ pad2 (day dt) +:+ "T"
  +:+ pad2 (hour dt) +:+ ":" +:+ pad2 (minute dt) +:+ ":" +:+ pad2 (second dt).

End PyDatetime.

(** ** The timezone normaliser *)

Module Timezone.
Import Calendar PyDatetime.
Local Open Scope Z_scope.

(** A zone of the timezone database: the offset from UTC, a [timedelta],
    in force at a UTC wall time. *)
Definition zone := datetime -> Z.

(** The module [zoneinfo], when it could be imported: [ZoneInfo(key)]
    raises when the key has no data. *)
Definition zoneinfo := string -> result zone.

(** [dt.astimezone(tz).replace(tzinfo=None)] for a UTC-aware [dt]. *)
Definition astimezone_naive (dt_utc : datetime) (german_tz : zone) : result datetime :=
  add (replace_tzinfo dt_utc None) (german_tz dt_utc).

(** [while d.weekday() != 6: d -= timedelta(days=1)] *)
Fixpoint back_to_sunday (fuel : nat) (d : datetime) : result datetime :=
  if weekday d =? 6 then Ok d
  else match fuel with
       | O => Raise LoopFuel
       | S fuel => d' ← sub d (timedelta 1 0); back_to_sunday fuel d'
       end.

Definition _utc_to_german_time (ZoneInfo : option zoneinfo) (dt_utc : datetime)
  : result datetime :=
  match ZoneInfo with
  | Some ZoneInfo =>
      german_tz ← ZoneInfo "Europe/Berlin"%string;
      let dt_utc :=
        match tzinfo dt_utc with
        | None => replace_tzinfo dt_utc (Some UTC)
        | Some _ => dt_utc
        end in
      astimezone_naive dt_utc german_tz
  | None =>
      let dt_naive :=
        match tzinfo dt_utc with
        | Some _ => replace_tzinfo dt_utc None
        | None => dt_utc
        end in
      let year := year dt_naive in
      march_last ← datetime_ymd year 3 31;
      march_last ← back_to_sunday 7 march_last;
      let dst_start := replace_time march_last 2 0 0 0 in
      october_last ← datetime_ymd year 10 31;
      october_last ← back_to_sunday 7 october_last;
      let dst_end := replace_time october_last 1 0 0 0 in
      let is_dst := le dst_start dt_naive && lt dt_naive dst_end in
      let offset_hours := if is_dst then 2 else 1 in
      add dt_naive (timedelta 0 offset_hours)
  end.

(** *** What the claim calls the DST window *)

(** The instant of a UTC date-time, in microseconds since
    0001-01-01T00:00:00. *)
Definition instant (dt : datetime) : Z :=
  as_timedelta dt - US_PER_DAY.

Definition hours (n : Z) : Z := n * 3600 * 1000000.

(** Day [d] is the last Sunday of month [m] of year [y]. *)
Definition last_sunday (y m d : Z) : Prop :=
  valid_date y m d
  /\ (_ymd2ord y m d + 6) mod 7 = 6
  /\ _days_in_month y m < d + 7.

Definition dst_window_start (y d : Z) : Z :=
  instant (mkdatetime y 3 d 2 0 0 0 None).

Definition dst_window_end (y d : Z) : Z :=
  instant (mkdatetime y 10 d 1 0 0 0 None).

Definition in_dst_window (y ds de : Z) (t : Z) : bool :=
  (dst_window_start y ds <=? t) && (t <? dst_window_end y de).

(** The last Sunday of month [m] of year [y]. *)
Definition eu_last_sunday (y m : Z) : Z :=
  let last := _days_in_month y m in
  last - (_ymd2ord y m last + 7) mod 7.

(** Europe/Berlin as the timezone database has it from 1950 on.  Summer
    time, two hours ahead of UTC, begins at 01:00 UTC on the last Sunday of
    March (in 1980, on 6 April) and ends at 01:00 UTC on the last Sunday of
    October (until 1995, of September); there was none from 1950 to 1979.
    The older history of the zone (the summer times of 1916-1918 and
    1940-1949, local mean time before April 1893) is not modelled: the
    offset given for those years is standard time, and nothing below is
    stated of the database at such an instant. *)
Definition Europe_Berlin : zone := fun dt =>
  let y := year dt in
  let t := instant dt in
  let at_1_utc m d := instant (mkdatetime y m d 1 0 0 0 None) in
  let s := if y =? 1980 then at_1_utc 4 6
           else at_1_utc 3 (eu_last_sunday y 3) in
  let e := if y <? 1996 then at_1_utc 9 (eu_last_sunday y 9)
           else at_1_utc 10 (eu_last_sunday y 10) in
  if (1980 <=? y) && (s <=? t) && (t <? e) then timedelta 0 2
  else timedelta 0 1.

Definition tzdata : zoneinfo := fun key =>
  if String.eqb key "Europe/Berlin" then Ok Europe_Berlin else Raise KeyError.

(** Going back [k] days inside a month. *)
Definition back (dt : datetime) (k : Z) : datetime :=
  mkdatetime (year dt) (month dt) (day dt - k)
             (hour dt) (minute dt) (second dt) (microsecond dt) (tzinfo dt).

(** *** Arithmetic of [datetime] values *)

Lemma ymd2ord_max y m d :
  valid_date y m d -> _ymd2ord y m d <= _MAXORDINAL -> y <= MAXYEAR.
Proof.
  intros V H. unfold MAXYEAR, _MAXORDINAL in *.
  destruct (Z.le_gt_cases y 9999) as [|Hy]; [done|].
  pose proof (days_before_year_mono 9999 y Hy) as Hm.
  pose proof (day_of_year_bounds _ _ _ V).
  unfold _ymd2ord in H. change (_days_before_year (9999 + 1)) with 3652059 in Hm. lia.
Qed.

Lemma as_timedelta_inj a b :
  valid_datetime a -> valid_datetime b ->
  as_timedelta a = as_timedelta b -> tzinfo a = tzinfo b -> a = b.
Proof.
  destruct a as [y m d h mi s us t], b as [y' m' d' h' mi' s' us' t'].
  unfold valid_datetime, valid_time, as_timedelta, toordinal. simpl.
  intros (_ & V & Ht) (_ & V' & Ht') E ->.
  assert (_ymd2ord y m d = _ymd2ord y' m' d' /\ h = h' /\ mi = mi' /\ s = s' /\ us = us')
    as (Eo & -> & -> & -> & ->) by lia.
  apply ymd2ord_inj in Eo; [|done..]. by injection Eo as -> -> ->.
Qed.

Lemma add_spec dt td :
  valid_datetime dt ->
  US_PER_DAY <= as_timedelta dt + td < (_MAXORDINAL + 1) * US_PER_DAY ->
  exists r, add dt td = Ok r /\ valid_datetime r
            /\ as_timedelta r = as_timedelta dt + td /\ tzinfo r = tzinfo dt.
Proof.
  intros V Hr. unfold add.
  set (delta := as_timedelta dt + td) in *.
  unfold US_PER_DAY, _MAXORDINAL in *.
  assert (Hd : 1 <= delta / (86400 * 1000000) <= 3652059)
    by (Z.div_mod_to_equations; lia).
  destruct (Z.ltb_spec 0 (delta / (86400 * 1000000))); [|lia].
  destruct (Z.leb_spec (delta / (86400 * 1000000)) 3652059); [|lia].
  simpl.
  destruct (_ord2ymd (delta / (86400 * 1000000))) as [[y m] d] eqn:E.
  apply ord2ymd_spec in E; [|lia]. destruct E as [Vd E].
  eexists; split; [reflexivity|].
  split; [|split; [|reflexivity]].
  - unfold valid_datetime, valid_time; simpl. split; [|split; [done|]].
    + apply (ymd2ord_max y m d); [done|]. unfold _MAXORDINAL. lia.
    + Z.div_mod_to_equations; lia.
  - unfold as_timedelta at 1, toordinal; simpl. rewrite E.
    Z.div_mod_to_equations; lia.
Qed.

Lemma cmp_as_timedelta a b :
  valid_datetime a -> valid_datetime b ->
  _cmp a b = (as_timedelta a ?= as_timedelta b).
Proof.
  destruct a as [y m d h mi s us t], b as [y' m' d' h' mi' s' us' t'].
  unfold valid_datetime, valid_time, as_timedelta, toordinal, _cmp. simpl.
  intros (_ & V & Ht) (_ & V' & Ht').
  pose proof (ymd2ord_lt _ _ _ _ _ _ V V') as L.
  pose proof (ymd2ord_lt _ _ _ _ _ _ V' V) as G.
  unfold date_lt in L, G. symmetry.
  destruct (Z.compare_spec y y'); simpl;
    [subst y'| apply Z.compare_lt_iff; lia | apply Z.compare_gt_iff; lia].
  destruct (Z.compare_spec m m'); simpl;
    [subst m'| apply Z.compare_lt_iff; lia | apply Z.compare_gt_iff; lia].
  destruct (Z.compare_spec d d'); simpl;
    [subst d'| apply Z.compare_lt_iff; lia | apply Z.compare_gt_iff; lia].
  destruct (Z.compare_spec h h'); simpl;
    [subst h'| apply Z.compare_lt_iff; lia | apply Z.compare_gt_iff; lia].
  destruct (Z.compare_spec mi mi'); simpl;
    [subst mi'| apply Z.compare_lt_iff; lia | apply Z.compare_gt_iff; lia].
  destruct (Z.compare_spec s s'); simpl;
    [subst s'| apply Z.compare_lt_iff; lia | apply Z.compare_gt_iff; lia].
  destruct (Z.compare_spec us us'); simpl;
    [subst us'; apply Z.compare_eq_iff; lia
    | apply Z.compare_lt_iff; lia | apply Z.compare_gt_iff; lia].
Qed.

Lemma le_as_timedelta a b :
  valid_datetime a -> valid_datetime b ->
  le a b = (as_timedelta a <=? as_timedelta b).
Proof.
  intros Va Vb. unfold le, Z.leb. by rewrite (cmp_as_timedelta a b Va Vb).
Qed.

Lemma lt_as_timedelta a b :
  valid_datetime a -> valid_datetime b ->
  lt a b = (as_timedelta a <? as_timedelta b).
Proof.
  intros Va Vb. unfold lt, Z.ltb. by rewrite (cmp_as_timedelta a b Va Vb).
Qed.


Lemma back_valid dt k :
  valid_datetime dt -> 0 <= k < day dt -> valid_datetime (back dt k).
Proof.
  unfold valid_datetime, valid_date, back; simpl. intros (? & (? & ? & ?) & ?) ?.
  split; [done|]. split; [lia|done].
Qed.

Lemma sub_one_day dt :
  valid_datetime dt -> 1 < day dt ->
  sub dt (timedelta 1 0) = Ok (back dt 1).
Proof.
  intros V Hd.
  assert (Vb : valid_datetime (back dt 1)) by (apply back_valid; [done|lia]).
  assert (Eb : as_timedelta (back dt 1) = as_timedelta dt - US_PER_DAY).
  { unfold as_timedelta, toordinal, _ymd2ord, back, US_PER_DAY; simpl. lia. }
  destruct (add_spec dt (- timedelta 1 0)) as (r & Hr & Vr & Er & Et); [done| |].
  - destruct Vb as (Hy & Vd & Vt).
    pose proof (ymd2ord_pos _ _ _ Vd) as P.
    destruct V as (Hy' & Vd' & Vt').
    assert (Hmax : _ymd2ord (year dt) (month dt) (day dt) <= _MAXORDINAL).
    { pose proof (day_of_year_bounds _ _ _ Vd') as B.
      destruct (Z.eq_dec (year dt) 9999) as [E|N].
      - unfold _ymd2ord. rewrite E in *. change (_days_before_year 9999) with 3651694.
        change (_is_leap 9999) with false in B. unfold _MAXORDINAL, b2z in *. lia.
      - unfold MAXYEAR in *.
        assert (year dt < 9999) as Hlt by lia.
        pose proof (days_before_year_mono _ _ Hlt) as Hm.
        pose proof (days_before_year_succ (year dt)).
        change (_days_before_year 9999) with 3651694 in Hm.
        unfold _ymd2ord, _MAXORDINAL, b2z in *. destruct (_is_leap (year dt)); lia. }
    unfold as_timedelta, toordinal, timedelta, US_PER_DAY, valid_time, _MAXORDINAL in *.
    simpl in P. unfold back, _ymd2ord in P. simpl in P. unfold _ymd2ord in *. lia.
  - unfold sub. rewrite Hr. f_equal.
    apply as_timedelta_inj; [done|done| |by rewrite Et].
    rewrite Er, Eb. unfold timedelta, US_PER_DAY. lia.
Qed.

Lemma back_0 dt : back dt 0 = dt.
Proof. destruct dt; unfold back; simpl. f_equal. lia. Qed.

Lemma back_to_sunday_spec fuel dt :
  valid_datetime dt ->
  (weekday dt + 1) mod 7 <= Z.of_nat fuel ->
  (weekday dt + 1) mod 7 < day dt ->
  back_to_sunday fuel dt = Ok (back dt ((weekday dt + 1) mod 7))
  /\ weekday (back dt ((weekday dt + 1) mod 7)) = 6.
Proof.
  revert dt. induction fuel as [|fuel IH]; intros dt V Hf Hd.
  - assert (weekday dt = 6) as E.
    { unfold weekday in *. Z.div_mod_to_equations; lia. }
    simpl. rewrite E. change ((6 + 1) mod 7) with 0. rewrite back_0.
    done.
  - simpl. destruct (Z.eqb_spec (weekday dt) 6) as [E|N].
    + rewrite E. change ((6 + 1) mod 7) with 0. rewrite back_0. done.
    + assert (Hk : (weekday dt + 1) mod 7 = weekday dt + 1).
      { unfold weekday in *. Z.div_mod_to_equations; lia. }
      rewrite Hk in *.
      assert (0 <= weekday dt) by (unfold weekday; Z.div_mod_to_equations; lia).
      rewrite sub_one_day; [|done|lia]. simpl.
      assert (Hk' : (weekday (back dt 1) + 1) mod 7 = weekday dt).
      { unfold weekday, toordinal, back, _ymd2ord in *; simpl.
        Z.div_mod_to_equations; lia. }
      destruct (IH (back dt 1)) as [R W].
      * apply back_valid; [done|lia].
      * rewrite Hk'. lia.
      * rewrite Hk'. unfold back; simpl. lia.
      * rewrite Hk' in R, W.
        replace (back (back dt 1) (weekday dt)) with (back dt (weekday dt + 1)) in R, W.
        2:{ unfold back; simpl. f_equal. lia. }
        done.
Qed.

Lemma bind_Ok {A B} (k : A -> result B) (a : A) : mbind k (Ok a) = k a.
Proof. reflexivity. Qed.

Definition datetime_max : datetime := mkdatetime 9999 12 31 23 59 59 999999 None.

Lemma ymd2ord_le_max y m d :
  valid_date y m d -> y <= MAXYEAR -> _ymd2ord y m d <= _MAXORDINAL.
Proof.
  intros V Hy. pose proof (day_of_year_bounds _ _ _ V) as B.
  destruct (Z.eq_dec y 9999) as [E|N].
  - unfold _ymd2ord. rewrite E in *. change (_days_before_year 9999) with 3651694.
    change (_is_leap 9999) with false in B. unfold _MAXORDINAL, b2z in *. lia.
  - unfold MAXYEAR in *.
    assert (y < 9999) as Hlt by lia.
    pose proof (days_before_year_mono _ _ Hlt) as Hm.
    pose proof (days_before_year_succ y).
    change (_days_before_year 9999) with 3651694 in Hm.
    unfold _ymd2ord, _MAXORDINAL, b2z in *. destruct (_is_leap y); lia.
Qed.

Lemma naive_replace dt :
  match tzinfo dt with
  | Some _ => replace_tzinfo dt None
  | None => dt
  end = replace_tzinfo dt None.
Proof. destruct dt as [? ? ? ? ? ? ? [|]]; reflexivity. Qed.

Lemma replace_tzinfo_valid dt t :
  valid_datetime dt -> valid_datetime (replace_tzinfo dt t).
Proof. done. Qed.

(** The loop, started on the 31st of a month of 31 days. *)
Lemma last_sunday_loop y m :
  1 <= y <= MAXYEAR -> 1 <= m <= 12 -> _days_in_month y m = 31 ->
  exists d, datetime_ymd y m 31 = Ok (mkdatetime y m 31 0 0 0 0 None)
    /\ back_to_sunday 7 (mkdatetime y m 31 0 0 0 0 None)
       = Ok (mkdatetime y m d 0 0 0 0 None)
    /\ last_sunday y m d.
Proof.
  intros Hy Hm Hd.
  set (ml := mkdatetime y m 31 0 0 0 0 None).
  assert (V : valid_datetime ml).
  { unfold valid_datetime, valid_date, valid_time, ml; simpl. rewrite Hd. lia. }
  assert (Hk : 0 <= (weekday ml + 1) mod 7 < 7) by (apply Z.mod_pos_bound; lia).
  destruct (back_to_sunday_spec 7 ml V) as [R W]; [lia|simpl; lia|].
  exists (31 - (weekday ml + 1) mod 7). split; [|split; [exact R|]].
  - unfold datetime_ymd, MINYEAR, MAXYEAR in *. rewrite Hd.
    destruct (Z.leb_spec 1 y); [|lia]. destruct (Z.leb_spec y 9999); [|lia].
    destruct (Z.leb_spec 1 m); [|lia]. destruct (Z.leb_spec m 12); [|lia]. done.
  - unfold last_sunday. split; [|split].
    + unfold valid_date. rewrite Hd. lia.
    + exact W.
    + rewrite Hd. lia.
Qed.

Lemma as_timedelta_max : as_timedelta datetime_max = (_MAXORDINAL + 1) * US_PER_DAY - 1.
Proof. reflexivity. Qed.

(** The fallback path, taken when no timezone database could be imported,
    does what C2 says: every UTC instant whose civil time one hour ahead is
    still representable is moved exactly two hours ahead inside the window
    that runs from 02:00 UTC on the last Sunday of March (inclusive) to
    01:00 UTC on the last Sunday of October (exclusive), and exactly one
    hour ahead outside it. *)
Theorem utc_to_german_time_fallback (dt : datetime) :
  valid_datetime dt ->
  instant dt + hours 1 <= instant datetime_max ->
  exists ds de r,
    last_sunday (year dt) 3 ds /\ last_sunday (year dt) 10 de
    /\ _utc_to_german_time None dt = Ok r
    /\ valid_datetime r /\ tzinfo r = None
    /\ instant r = instant dt
         + hours (if in_dst_window (year dt) ds de (instant dt) then 2 else 1).
Proof.
  intros V Hmax.
  unfold _utc_to_german_time. rewrite naive_replace.
  set (dn := replace_tzinfo dt None).
  assert (Vn : valid_datetime dn) by by apply replace_tzinfo_valid.
  assert (Hy : 1 <= year dt <= MAXYEAR) by (destruct V as (? & (? & ?) & ?); lia).
  destruct (last_sunday_loop (year dt) 3) as (ds & C3 & L3 & S3); [done|lia|done|].
  destruct (last_sunday_loop (year dt) 10) as (de & C10 & L10 & S10); [done|lia|done|].
  exists ds, de.
  change (year dn) with (year dt).
  rewrite C3, bind_Ok, L3, bind_Ok, C10, bind_Ok, L10, bind_Ok.
  set (dst_start := replace_time _ 2 0 0 0).
  set (dst_end := replace_time _ 1 0 0 0).
  assert (Vs : valid_datetime dst_start).
  { destruct S3 as (? & ? & ?). unfold valid_datetime, valid_time; simpl.
    split; [lia|]. split; [done|lia]. }
  assert (Ve : valid_datetime dst_end).
  { destruct S10 as (? & ? & ?). unfold valid_datetime, valid_time; simpl.
    split; [lia|]. split; [done|lia]. }
  rewrite (le_as_timedelta _ _ Vs Vn), (lt_as_timedelta _ _ Vn Ve).
  assert (Ei : instant dt = as_timedelta dn - US_PER_DAY) by reflexivity.
  assert (Ew : in_dst_window (year dt) ds de (instant dt)
               = (as_timedelta dst_start <=? as_timedelta dn)
                 && (as_timedelta dn <? as_timedelta dst_end)).
  { unfold in_dst_window, dst_window_start, dst_window_end, instant.
    change (as_timedelta dt) with (as_timedelta dn).
    change (as_timedelta (mkdatetime (year dt) 3 ds 2 0 0 0 None))
      with (as_timedelta dst_start).
    change (as_timedelta (mkdatetime (year dt) 10 de 1 0 0 0 None))
      with (as_timedelta dst_end).
    f_equal.
    - destruct (Z.leb_spec (as_timedelta dst_start) (as_timedelta dn));
        [apply Z.leb_le | apply Z.leb_gt]; lia.
    - destruct (Z.ltb_spec (as_timedelta dn) (as_timedelta dst_end));
        [apply Z.ltb_lt | apply Z.ltb_ge]; lia. }
  rewrite <- Ew.
  set (w := in_dst_window (year dt) ds de (instant dt)) in *.
  assert (Hlow : US_PER_DAY <= as_timedelta dn).
  { destruct Vn as (_ & Vd & Vt). pose proof (ymd2ord_pos _ _ _ Vd).
    unfold as_timedelta, toordinal, valid_time, US_PER_DAY in *. lia. }
  assert (Hoct : as_timedelta dst_end + timedelta 0 2 < (_MAXORDINAL + 1) * US_PER_DAY).
  { destruct S10 as (Vd & _ & _).
    assert (_ymd2ord (year dt) 10 de < _ymd2ord 9999 12 31) as Ho.
    { apply ymd2ord_lt;
        [done|unfold valid_date; change (_days_in_month 9999 12) with 31; lia|].
      unfold date_lt, MAXYEAR in *. lia. }
    change (_ymd2ord 9999 12 31) with 3652059 in Ho.
    clear - Ho. unfold dst_end, as_timedelta, toordinal, replace_time.
    cbn [year month day hour minute second microsecond].
    unfold timedelta, US_PER_DAY, _MAXORDINAL. lia. }
  assert (Hrange : US_PER_DAY <= as_timedelta dn + timedelta 0 (if w then 2 else 1)
                   < (_MAXORDINAL + 1) * US_PER_DAY).
  { destruct w eqn:Hw.
    - symmetry in Ew. apply andb_prop in Ew. destruct Ew as [_ Ew].
      apply Z.ltb_lt in Ew.
      clear - Ew Hoct Hlow. unfold timedelta, US_PER_DAY, _MAXORDINAL in *. lia.
    - unfold instant in Hmax. rewrite as_timedelta_max in Hmax.
      change (as_timedelta dt) with (as_timedelta dn) in Hmax.
      clear - Hmax Hlow.
      unfold hours, timedelta, US_PER_DAY, _MAXORDINAL in *. lia. }
  destruct (add_spec dn _ Vn Hrange) as (r & Hr & Vr & Er & Et).
  exists r. split; [done|]. split; [done|]. split; [exact Hr|].
  split; [done|]. split; [done|].
  unfold instant at 1. rewrite Er, Ei. clear. unfold hours, timedelta.
  destruct w; lia.
Qed.

(** Witness of [utc_to_german_time_fallback]: noon UTC on 15 July 2024. *)
Lemma utc_to_german_time_fallback_witness :
  let dt := mkdatetime 2024 7 15 12 0 0 0 (Some UTC) in
  valid_datetime dt
  /\ instant dt + hours 1 <= instant datetime_max
  /\ exists ds de r,
    last_sunday (year dt) 3 ds /\ last_sunday (year dt) 10 de
    /\ _utc_to_german_time None dt = Ok r
    /\ valid_datetime r /\ tzinfo r = None
    /\ instant r = instant dt
         + hours (if in_dst_window (year dt) ds de (instant dt) then 2 else 1).
Proof.
  assert (V : valid_datetime (mkdatetime 2024 7 15 12 0 0 0 (Some UTC))).
  { unfold valid_datetime, valid_date, valid_time, MAXYEAR; simpl.
    change (_days_in_month 2024 7) with 31. lia. }
  assert (H : instant (mkdatetime 2024 7 15 12 0 0 0 (Some UTC)) + hours 1
              <= instant datetime_max) by (vm_compute; discriminate).
  exact (conj V (conj H (utc_to_german_time_fallback _ V H))).
Defined.

(** What C2 says, for a given availability of the timezone database. *)
Definition normalizer_claim (ZoneInfo : option zoneinfo) : Prop :=
  forall dt, valid_datetime dt ->
  instant dt + hours 1 <= instant datetime_max ->
  exists ds de r,
    last_sunday (year dt) 3 ds /\ last_sunday (year dt) 10 de
    /\ _utc_to_german_time ZoneInfo dt = Ok r
    /\ instant r = instant dt
         + hours (if in_dst_window (year dt) ds de (instant dt) then 2 else 1).

(** The database path does not: 01:30 UTC on 31 March 2024 is already
    rendered two hours ahead (03:30), although the window only opens at
    02:00 UTC. *)
Lemma utc_to_german_time_zoneinfo_counterexample :
  ~ normalizer_claim (Some tzdata).
Proof.
  intros C.
  set (t := mkdatetime 2024 3 31 1 30 0 0 (Some UTC)).
  destruct (C t) as (ds & de & r & S3 & _ & R & I).
  - unfold valid_datetime, valid_date, valid_time, MAXYEAR; simpl.
    change (_days_in_month 2024 3) with 31. lia.
  - vm_compute. discriminate.
  - assert (ds = 31) as ->.
    { destruct S3 as ((_ & _ & Hd) & Hw & Hl).
      change (year t) with 2024 in *.
      change (_days_in_month 2024 3) with 31 in *.
      unfold _ymd2ord in Hw.
      change (_days_before_year 2024) with 738885 in Hw.
      change (_days_before_month 2024 3) with 60 in Hw.
      Z.div_mod_to_equations; lia. }
    assert (E : _utc_to_german_time (Some tzdata) t
                = Ok (mkdatetime 2024 3 31 3 30 0 0 None)) by (vm_compute; reflexivity).
    rewrite E in R. injection R as <-.
    assert (W : in_dst_window (year t) 31 de (instant t) = false)
      by (unfold in_dst_window; apply andb_false_iff; left; vm_compute; reflexivity).
    rewrite W in I. vm_compute in I. discriminate.
Qed.



End Timezone.

(** ** binary64 arithmetic

    The doubles of Python are the primitive floats; their operations are
    specified by [SpecFloat].  What follows bounds the error of one
    rounding, from the definitions of [SpecFloat]. *)

Module Binary64.
Local Open Scope Z_scope.

(** *** The size of a mantissa *)

Lemma digits2_size (p : positive) : digits2_pos p = Pos.size p.
Proof. induction p as [p IH|p IH|]; simpl; by rewrite ?IH. Qed.

Lemma digits2_bounds (p : positive) :
  2 ^ (Zpos (digits2_pos p) - 1) <= Zpos p < 2 ^ Zpos (digits2_pos p).
Proof.
  rewrite digits2_size. split.
  - pose proof (Pos.size_le p) as H.
    assert (H' : (Zpos (2 ^ Pos.size p) <= Zpos p~0)) by exact H.
    rewrite Pos2Z.inj_pow in H'.
    replace (Zpos (Pos.size p)) with (Zpos (Pos.size p) - 1 + 1) in H' by lia.
    rewrite Z.pow_add_r in H' by lia. lia.
  - pose proof (Pos.size_gt p) as H.
    assert (H' : (Zpos p < Zpos (2 ^ Pos.size p))) by exact H.
    by rewrite Pos2Z.inj_pow in H'.
Qed.

(** A positive number below [2 ^ k] has at most [k] digits. *)
Lemma digits2_le (p : positive) (k : Z) :
  0 <= k -> Zpos p < 2 ^ k -> Zpos (digits2_pos p) <= k.
Proof.
  intros Hk H. destruct (digits2_bounds p) as [L _].
  destruct (Z.le_gt_cases (Zpos (digits2_pos p)) k) as [|G]; [done|].
  assert (2 ^ k <= 2 ^ (Zpos (digits2_pos p) - 1)) by (apply Z.pow_le_mono_r; lia).
  lia.
Qed.

(** *** Shifting to the right *)

Lemma shr_1_m (mrs : shr_record) :
  0 <= shr_m mrs -> shr_m (shr_1 mrs) = shr_m mrs / 2.
Proof.
  destruct mrs as [m r s]. simpl. intros H.
  destruct m as [|[p|p|]|p]; simpl; try done.
  - rewrite Pos2Z.inj_xI. Z.div_mod_to_equations. lia.
  - rewrite Pos2Z.inj_xO. Z.div_mod_to_equations. lia.
Qed.

Lemma shr_1_nonneg (mrs : shr_record) : 0 <= shr_m mrs -> 0 <= shr_m (shr_1 mrs).
Proof. intros H. rewrite shr_1_m by done. apply Z.div_pos; lia. Qed.

Lemma iter_shr_m (p : positive) :
  forall mrs, 0 <= shr_m mrs ->
    shr_m (SpecFloat.iter_pos shr_1 p mrs) = shr_m mrs / 2 ^ Zpos p.
Proof.
  induction p as [p IH|p IH|]; intros mrs H; simpl SpecFloat.iter_pos.
  - assert (H1 := shr_1_nonneg mrs H).
    assert (H2 : 0 <= shr_m (SpecFloat.iter_pos shr_1 p (shr_1 mrs))).
    { rewrite IH by done. apply Z.div_pos; lia. }
    rewrite IH, IH, shr_1_m by done.
    rewrite !Z.div_div by lia. f_equal.
    rewrite Pos2Z.inj_xI, Z.pow_add_r, Z.pow_mul_r, Z.pow_2_r by lia.
    change (2 ^ 2) with 4. rewrite <- Z.pow_2_r. rewrite Z.pow_2_r.
    rewrite <- Z.pow_mul_l. change (2 ^ 1) with 2.
    rewrite Z.pow_mul_l. lia.
  - assert (H2 : 0 <= shr_m (SpecFloat.iter_pos shr_1 p mrs)).
    { rewrite IH by done. apply Z.div_pos; lia. }
    rewrite IH, IH by done. rewrite Z.div_div by lia. f_equal.
    rewrite Pos2Z.inj_xO. rewrite <- Z.pow_add_r by lia. f_equal. lia.
  - rewrite shr_1_m by done. done.
Qed.

Lemma shr_spec (mrs : shr_record) (e n : Z) :
  0 <= shr_m mrs ->
  shr_m (shr mrs e n).1 = shr_m mrs / 2 ^ Z.max 0 n
  /\ (shr mrs e n).2 = e + Z.max 0 n.
Proof.
  intros H. destruct n as [|p|p]; simpl.
  - rewrite Z.div_1_r. lia.
  - rewrite iter_shr_m by done. split; [done|lia].
  - rewrite Z.div_1_r. lia.
Qed.

Lemma round_nearest_even_range (m : Z) (l : location) :
  m <= round_nearest_even m l <= m + 1.
Proof. destruct l as [|[]]; simpl; try lia. destruct (Z.even m); lia. Qed.

(** *** Rounding to binary64 *)

(** What [binary_round_aux] returns for the mantissa and the exponent it
    ends with. *)
Definition rounded (s : bool) (m e : Z) : spec_float :=
  match m with
  | Z0 => S754_zero s
  | Zpos p => if e <=? emax - prec then S754_finite s p e else S754_infinity s
  | Zneg _ => S754_nan
  end.

(** The number of digits that rounding drops from [M * 2 ^ E]. *)
Definition dropped (M E : Z) : Z := fexp prec emax (Zdigits2 M + E) - E.

Lemma Zdigits2_le (m k : Z) : 0 <= m -> 0 <= k -> m < 2 ^ k -> Zdigits2 m <= k.
Proof.
  intros Hm Hk H. destruct m as [|p|p]; simpl; [done| |lia].
  by apply digits2_le.
Qed.

Lemma binary_round_aux_exact (s : bool) (M E : Z) :
  0 < M -> dropped M E <= 0 ->
  binary_round_aux prec emax s M E loc_Exact = rounded s M E.
Proof.
  intros HM Hn. unfold binary_round_aux, shr_fexp. fold (dropped M E).
  assert (S1 : shr (shr_record_of_loc M loc_Exact) E (dropped M E)
               = (Build_shr_record M false false, E)).
  { unfold shr. by destruct (dropped M E) as [|p|p]; [|lia|]. }
  rewrite S1. cbn [shr_m loc_of_shr_record round_nearest_even].
  fold (dropped M E). rewrite S1. cbn [shr_m]. done.
Qed.

Lemma binary_round_aux_inexact (s : bool) (M E : Z) :
  0 < M -> 0 < dropped M E ->
  exists m e,
    binary_round_aux prec emax s M E loc_Exact = rounded s m e
    /\ 0 <= m
    /\ E + dropped M E <= e <= E + dropped M E + 1
    /\ M - 2 * 2 ^ dropped M E < m * 2 ^ (e - E) <= M + 2 ^ dropped M E
    /\ (2 ^ (dropped M E + 52) <= M \/ E + dropped M E = -1074).
Proof.
  intros HM Hn. set (n := dropped M E) in *.
  assert (P2 : 0 < 2 ^ n) by (apply Z.pow_pos_nonneg; lia).
  unfold binary_round_aux, shr_fexp. fold (dropped M E). fold n.
  destruct (shr_spec (shr_record_of_loc M loc_Exact) E n) as [Q1 E1]; [simpl; lia|].
  destruct (shr (shr_record_of_loc M loc_Exact) E n) as [mrs' e'].
  cbn [fst snd] in Q1, E1. rewrite Z.max_r in Q1, E1 by lia.
  change (shr_m (shr_record_of_loc M loc_Exact)) with M in Q1.
  set (q := shr_m mrs') in *.
  pose proof (round_nearest_even_range q (loc_of_shr_record mrs')) as R.
  set (m1 := round_nearest_even q (loc_of_shr_record mrs')) in *.
  assert (Hq : 0 <= q) by (rewrite Q1; apply Z.div_pos; lia).
  assert (Hq2 : q * 2 ^ n <= M < (q + 1) * 2 ^ n).
  { rewrite Q1. pose proof (Z.mul_div_le M (2 ^ n) P2).
    pose proof (Z.mul_succ_div_gt M (2 ^ n) P2). lia. }
  (* the digits of M and of the rounded mantissa *)
  assert (HdM : 2 ^ (Zdigits2 M - 1) <= M < 2 ^ Zdigits2 M).
  { destruct M as [|p|p]; [lia| |lia]. apply digits2_bounds. }
  assert (Hn' : n = Z.max (Zdigits2 M + E - 53) (-1074) - E) by reflexivity.
  assert (Hd1 : Zdigits2 m1 <= Z.max (Zdigits2 M - n) 0 + 1).
  { apply Zdigits2_le; [lia|lia|].
    destruct (Z.le_gt_cases n (Zdigits2 M)) as [L|G].
    - rewrite Z.max_l by lia.
      assert (q < 2 ^ (Zdigits2 M - n)).
      { apply Z.mul_lt_mono_pos_r with (2 ^ n); [done|].
        rewrite <- Z.pow_add_r by lia.
        replace (Zdigits2 M - n + n) with (Zdigits2 M) by lia. lia. }
      rewrite Z.pow_add_r by lia. change (2 ^ 1) with 2. lia.
    - rewrite Z.max_r by lia. change (2 ^ (0 + 1)) with 2.
      assert (M < 2 ^ n).
      { destruct HdM as [_ U]. eapply Z.lt_le_trans; [exact U|].
        apply Z.pow_le_mono_r; lia. }
      assert (q = 0) by (rewrite Q1; apply Z.div_small; lia). lia. }
  set (n2 := fexp prec emax (Zdigits2 m1 + e') - e').
  assert (Hn2 : n2 <= 1).
  { unfold n2, fexp. change (emin prec emax) with (-1074). change prec with 53.
    rewrite E1. lia. }
  destruct (shr_spec (shr_record_of_loc m1 loc_Exact) e' n2) as [Q2 E2]; [simpl; lia|].
  fold n2. destruct (shr (shr_record_of_loc m1 loc_Exact) e' n2) as [mrs'' e''].
  cbn [fst snd] in Q2, E2.
  change (shr_m (shr_record_of_loc m1 loc_Exact)) with m1 in Q2.
  exists (shr_m mrs''), e''. split; [reflexivity|].
  assert (C : Z.max 0 n2 = 0 \/ Z.max 0 n2 = 1) by lia.
  split; [rewrite Q2; apply Z.div_pos; [lia|apply Z.pow_pos_nonneg; lia]|].
  split; [lia|]. split.
  - rewrite E2, E1. destruct C as [C|C]; rewrite C in *.
    + rewrite Q2. change (2 ^ 0) with 1. rewrite Z.div_1_r.
      replace (E + n + 0 - E) with n by lia. nia.
    + rewrite Q2. change (2 ^ 1) with 2.
      replace (E + n + 1 - E) with (n + 1) by lia.
      rewrite Z.pow_add_r by lia. change (2 ^ 1) with 2.
      assert (m1 - 1 <= m1 / 2 * 2 <= m1) by (Z.div_mod_to_equations; lia).
      nia.
  - destruct (Z.max_spec (Zdigits2 M + E - 53) (-1074)) as [[_ Hm]|[_ Hm]].
    + right. lia.
    + left. replace (n + 52) with (Zdigits2 M - 1) by lia. lia.
Qed.

End Binary64.

Module Binary64Q.
Import Binary64.
Local Open Scope Q_scope.

(** *** The value of a float *)

Definition signed (s : bool) (a : Q) : Q := if s then - a else a.

Definition SF2Q (x : spec_float) : Q :=
  match x with
  | S754_finite s m e => signed s (inject_Z (Zpos m) * 2 ^ e)
  | _ => 0
  end.

Definition finite_SF (x : spec_float) : Prop :=
  match x with
  | S754_zero _ | S754_finite _ _ _ => True
  | _ => False
  end.

(** The relative and the absolute error of one rounding, with room. *)
Definition eps : Q := 2 ^ (-51).
Definition eta : Q := 2 ^ (-1073).

Lemma pow2_pos (e : Z) : 0 < 2 ^ e.
Proof. by apply Qpower_0_lt. Qed.

Lemma pow2_plus (a b : Z) : 2 ^ (a + b) == 2 ^ a * 2 ^ b.
Proof. by apply Qpower_plus. Qed.

Lemma pow2_le (a b : Z) : (a <= b)%Z -> 2 ^ a <= 2 ^ b.
Proof. intros H. by apply Qpower_le_compat_l. Qed.

Lemma inject_pow2 (k : Z) : (0 <= k)%Z -> inject_Z (2 ^ k) == 2 ^ k.
Proof. intros H. by rewrite Zpower_Qpower. Qed.

Lemma scale_le (a b : Z) (E : Z) :
  (a <= b)%Z -> inject_Z a * 2 ^ E <= inject_Z b * 2 ^ E.
Proof.
  intros H. apply Qmult_le_compat_r; [by rewrite <- Zle_Qle|].
  apply Qlt_le_weak, pow2_pos.
Qed.

Lemma scale_lt (a b : Z) (E : Z) :
  (a < b)%Z -> inject_Z a * 2 ^ E < inject_Z b * 2 ^ E.
Proof.
  intros H. apply Qmult_lt_compat_r; [apply pow2_pos|by rewrite <- Zlt_Qlt].
Qed.

Lemma scale_pow (k E : Z) : (0 <= k)%Z -> inject_Z (2 ^ k) * 2 ^ E == 2 ^ (k + E).
Proof. intros H. by rewrite inject_pow2, pow2_plus. Qed.

Lemma rounded_finite (s : bool) (m e : Z) :
  (0 <= m)%Z -> (m = 0%Z \/ e <= 971)%Z ->
  finite_SF (rounded s m e)
  /\ SF2Q (rounded s m e) == signed s (inject_Z m * 2 ^ e).
Proof.
  intros Hm He. unfold rounded. destruct m as [|p|p]; [| |lia].
  - split; [done|]. cbn [rounded SF2Q]. change (inject_Z 0) with 0.
    unfold signed. destruct s; rewrite Qmult_0_l; reflexivity.
  - destruct He as [|He]; [done|].
    change (emax - prec)%Z with 971%Z.
    destruct (Z.leb_spec e 971); [|lia]. done.
Qed.

(** One rounding of [M * 2 ^ E]. *)
Lemma binary_round_aux_Q (s : bool) (M E : Z) :
  (0 < M)%Z -> inject_Z M * 2 ^ E < 2 ^ 970 ->
  exists a,
    finite_SF (binary_round_aux prec emax s M E loc_Exact)
    /\ SF2Q (binary_round_aux prec emax s M E loc_Exact) == signed s a
    /\ 0 <= a
    /\ inject_Z M * 2 ^ E - (eps * (inject_Z M * 2 ^ E) + eta) <= a
    /\ a <= inject_Z M * 2 ^ E + (eps * (inject_Z M * 2 ^ E) + eta).
Proof.
  intros HM HV. set (V := inject_Z M * 2 ^ E) in *.
  assert (V0 : 0 < V).
  { unfold V. apply Qmult_lt_0_compat; [|apply pow2_pos].
    change 0 with (inject_Z 0). by rewrite <- Zlt_Qlt. }
  assert (Ee : 0 < eps) by apply pow2_pos.
  assert (Et : 0 < eta) by apply pow2_pos.
  assert (VE : 2 ^ E <= V).
  { unfold V. rewrite <- (Qmult_1_l (2 ^ E)) at 1.
    apply Qmult_le_compat_r; [|apply Qlt_le_weak, pow2_pos].
    change 1 with (inject_Z 1). rewrite <- Zle_Qle. lia. }
  destruct (Z.le_gt_cases (dropped M E) 0%Z) as [Hn|Hn].
  - rewrite (binary_round_aux_exact s M E HM Hn).
    assert (He : (E <= 971)%Z).
    { destruct (Z.le_gt_cases E 971%Z) as [|G]; [done|].
      assert (2 ^ 970 <= 2 ^ E) by (apply pow2_le; lia). lra. }
    destruct (rounded_finite s M E) as [F Q]; [lia|lia|].
    exists V. split; [done|]. split; [done|].
    assert (0 <= eps * V) by (apply Qmult_le_0_compat; lra). lra.
  - destruct (binary_round_aux_inexact s M E HM Hn)
      as (m & e & R & Hm & He & [L U] & C).
    rewrite R. set (n := dropped M E) in *.
    set (a := inject_Z m * 2 ^ e).
    assert (A : a == inject_Z (m * 2 ^ (e - E)) * 2 ^ E).
    { unfold a. rewrite inject_Z_mult, inject_pow2 by lia.
      rewrite <- Qmult_assoc, <- pow2_plus.
      replace (e - E + E)%Z with e by lia. reflexivity. }
    assert (AL : V - 2 ^ (n + 1 + E) < a).
    { assert (H1 : inject_Z (M - 2 ^ (n + 1)) * 2 ^ E == V - 2 ^ (n + 1 + E)).
      { unfold V, Z.sub. rewrite inject_Z_plus, inject_Z_opp.
        rewrite <- (scale_pow (n + 1) E) by lia. ring. }
      assert (H2 : inject_Z (M - 2 ^ (n + 1)) * 2 ^ E
                   < inject_Z (m * 2 ^ (e - E)) * 2 ^ E).
      { apply scale_lt. rewrite Z.pow_add_r by lia. change (2 ^ 1)%Z with 2%Z. lia. }
      lra. }
    assert (AU : a <= V + 2 ^ (n + E)).
    { assert (H1 : inject_Z (M + 2 ^ n) * 2 ^ E == V + 2 ^ (n + E)).
      { unfold V. rewrite inject_Z_plus.
        rewrite <- (scale_pow n E) by lia. ring. }
      assert (H2 : inject_Z (m * 2 ^ (e - E)) * 2 ^ E
                   <= inject_Z (M + 2 ^ n) * 2 ^ E) by by apply scale_le.
      lra. }
    assert (P1 : 2 ^ (n + E) <= 2 ^ (n + 1 + E)) by (apply pow2_le; lia).
    assert (Err : 2 ^ (n + 1 + E) <= eps * V + eta).
    { assert (0 <= eps * V) by (apply Qmult_le_0_compat; lra).
      destruct C as [C|C].
      - assert (2 ^ (n + 1 + E) <= eps * V); [|lra].
        unfold eps, V.
        assert (S : inject_Z (2 ^ (n + 52)) * 2 ^ E <= inject_Z M * 2 ^ E)
          by by apply scale_le.
        rewrite scale_pow in S by lia.
        assert (S2 : 2 ^ (n + 1 + E) == 2 ^ (-51) * 2 ^ (n + 52 + E)).
        { rewrite <- pow2_plus. apply Qpower_comp; [reflexivity|lia]. }
        rewrite S2. apply Qmult_le_l; [apply pow2_pos|]. exact S.
      - assert (2 ^ (n + 1 + E) == eta); [|lra].
        unfold eta. apply Qpower_comp; [reflexivity|lia]. }
    assert (a0 : 0 <= a).
    { unfold a. apply Qmult_le_0_compat; [|apply Qlt_le_weak, pow2_pos].
      change 0 with (inject_Z 0). by rewrite <- Zle_Qle. }
    assert (Hfin : (m = 0 \/ e <= 971)%Z).
    { destruct (Z.eq_dec m 0%Z) as [|Nz]; [by left|right].
      destruct (Z.le_gt_cases e 971%Z) as [|G]; [done|exfalso].
      destruct C as [C|C]; [|lia].
      assert (2 ^ e <= a).
      { unfold a. rewrite <- (Qmult_1_l (2 ^ e)) at 1.
        apply Qmult_le_compat_r; [|apply Qlt_le_weak, pow2_pos].
        change 1 with (inject_Z 1). rewrite <- Zle_Qle. lia. }
      assert (2 ^ (n + E) <= V).
      { unfold V. rewrite <- scale_pow by lia. apply scale_le.
        assert (2 ^ n <= 2 ^ (n + 52))%Z by (apply Z.pow_le_mono_r; lia). lia. }
      assert (2 ^ 972 <= 2 ^ e) by (apply pow2_le; lia).
      assert (2 ^ 972 == 4 * 2 ^ 970) by (rewrite <- (pow2_plus 2 970); reflexivity).
      lra. }
    destruct (rounded_finite s m e Hm Hfin) as [F Q].
    exists a. split; [done|]. split; [done|]. split; [done|]. lra.
Qed.

End Binary64Q.

Module Binary64Ops.
Import Binary64 Binary64Q.
Local Open Scope Q_scope.

(** [r] is [V] with sign [s], rounded once. *)
Definition rounds_to (r : spec_float) (s : bool) (V : Q) : Prop :=
  exists a,
    finite_SF r /\ SF2Q r == signed s a /\ 0 <= a
    /\ V - (eps * V + eta) <= a /\ a <= V + (eps * V + eta).

Lemma rounds_to_eq r s V V' : V == V' -> rounds_to r s V -> rounds_to r s V'.
Proof.
  intros E (a & F & Q & a0 & L & U). exists a.
  split; [done|]. split; [done|]. split; [done|].
  rewrite <- E. done.
Qed.

Lemma eps_pos : 0 < eps.
Proof. apply pow2_pos. Qed.

Lemma eta_pos : 0 < eta.
Proof. apply pow2_pos. Qed.

(** The error of one rounding, for a value of size [B] at most. *)
Lemma rounds_to_err r s V B :
  rounds_to r s V -> 0 <= V -> V <= B ->
  finite_SF r
  /\ signed s V - (eps * B + eta) <= SF2Q r
  /\ SF2Q r <= signed s V + (eps * B + eta).
Proof.
  intros (a & F & Q & a0 & L & U) V0 VB. split; [done|].
  pose proof eps_pos as Ee.
  assert (eps * V <= eps * B) by (apply Qmult_le_l; done).
  rewrite Q. unfold signed. destruct s; lra.
Qed.

(** *** Shifting to the left *)

Lemma iter_xO_value (m d : positive) :
  Zpos (Pos.iter xO m d) = (Zpos m * 2 ^ Zpos d)%Z.
Proof.
  induction d as [|d IH] using Pos.peano_ind.
  - simpl. lia.
  - rewrite Pos.iter_succ, Pos2Z.inj_xO, IH, Pos2Z.inj_succ, Z.pow_succ_r by lia.
    lia.
Qed.

Lemma iter_xO_digits (m d : positive) :
  digits2_pos (Pos.iter xO m d) = (digits2_pos m + d)%positive.
Proof.
  induction d as [|d IH] using Pos.peano_ind.
  - simpl. lia.
  - rewrite Pos.iter_succ. simpl. rewrite IH. lia.
Qed.

Lemma shl_align_value (m : positive) (e e' : Z) :
  inject_Z (Zpos (shl_align m e e').1) * 2 ^ (shl_align m e e').2
  == inject_Z (Zpos m) * 2 ^ e.
Proof.
  unfold shl_align. destruct (e' - e)%Z as [|d|d] eqn:D; simpl; [reflexivity..|].
  rewrite iter_xO_value, inject_Z_mult, inject_pow2 by lia.
  rewrite <- Qmult_assoc, <- pow2_plus.
  apply Qmult_comp; [reflexivity|]. apply Qpower_comp; [reflexivity|lia].
Qed.

(** The mantissa [shl_align] returns, when the target exponent is not
    above the exponent. *)
Lemma shl_align_fst (m : positive) (e e' : Z) :
  (e' <= e)%Z -> Zpos (shl_align m e e').1 = (Zpos m * 2 ^ (e - e'))%Z.
Proof.
  intros H. unfold shl_align. destruct (e' - e)%Z as [|d|d] eqn:D; simpl.
  - replace (e - e')%Z with 0%Z by lia. lia.
  - lia.
  - rewrite iter_xO_value. f_equal. f_equal. lia.
Qed.

Lemma binary_round_Q (s : bool) (m : positive) (e : Z) :
  inject_Z (Zpos m) * 2 ^ e < 2 ^ 970 ->
  rounds_to (binary_round prec emax s m e) s (inject_Z (Zpos m) * 2 ^ e).
Proof.
  intros HV. unfold binary_round.
  pose proof (shl_align_value m e (fexp prec emax (Zpos (digits2_pos m) + e))) as A.
  destruct (shl_align m e (fexp prec emax (Zpos (digits2_pos m) + e))) as [mz ez].
  cbn [fst snd] in A. rewrite <- A in HV.
  apply (rounds_to_eq _ _ _ _ A).
  destruct (binary_round_aux_Q s (Zpos mz) ez) as (a & H); [lia|done|].
  by exists a.
Qed.

(** *** Multiplication and subtraction *)

Lemma signed_xorb (s t : bool) (a b : Q) :
  signed s a * signed t b == signed (xorb s t) (a * b).
Proof. unfold signed. destruct s, t; simpl; ring. Qed.

Lemma SFmul_Q (x y : spec_float) (B : Q) :
  finite_SF x -> finite_SF y ->
  - B <= SF2Q x * SF2Q y -> SF2Q x * SF2Q y <= B -> B < 2 ^ 970 ->
  finite_SF (SFmul prec emax x y)
  /\ SF2Q x * SF2Q y - (eps * B + eta) <= SF2Q (SFmul prec emax x y)
  /\ SF2Q (SFmul prec emax x y) <= SF2Q x * SF2Q y + (eps * B + eta).
Proof.
  intros Fx Fy L U HB.
  pose proof eps_pos as Ee. pose proof eta_pos as Et.
  assert (B0 : 0 <= B) by lra.
  assert (Z : 0 <= eps * B) by (apply Qmult_le_0_compat; lra).
  destruct x as [sx| |  |sx mx ex]; try done;
    destruct y as [sy| | |sy my ey]; try done.
  - cbn [SFmul SF2Q] in *. split; [done|]. lra.
  - cbn [SFmul SF2Q] in *. split; [done|]. lra.
  - cbn [SFmul SF2Q] in *. split; [done|]. lra.
  - cbn [SFmul].
    set (V := inject_Z (Zpos (mx * my)) * 2 ^ (ex + ey)).
    assert (P : SF2Q (S754_finite sx mx ex) * SF2Q (S754_finite sy my ey)
                == signed (xorb sx sy) V).
    { cbn [SF2Q]. rewrite signed_xorb. unfold V.
      rewrite Pos2Z.inj_mul, inject_Z_mult.
      destruct (xorb sx sy); unfold signed; rewrite pow2_plus; ring. }
    assert (V0 : 0 < V).
    { unfold V. apply Qmult_lt_0_compat; [|apply pow2_pos].
      change 0 with (inject_Z 0). by rewrite <- Zlt_Qlt. }
    assert (VB : V <= B).
    { rewrite P in L, U. unfold signed in L, U. destruct (xorb sx sy); lra. }
    destruct (rounds_to_err
                (binary_round_aux prec emax (xorb sx sy) (Zpos (mx * my))
                   (ex + ey) loc_Exact) (xorb sx sy) V B)
      as (F & RL & RU); [|lra|done|].
    { destruct (binary_round_aux_Q (xorb sx sy) (Zpos (mx * my)) (ex + ey))
        as (a & H); [lia|fold V; lra|]. by exists a. }
    split; [done|]. rewrite P. done.
Qed.

Lemma cond_Zopp_Q (s : bool) (m : Z) :
  inject_Z (cond_Zopp s m) == signed s (inject_Z m).
Proof. destruct s; simpl; [by rewrite inject_Z_opp|reflexivity]. Qed.

Lemma aligned_Q (s : bool) (m : positive) (e ez : Z) :
  (ez <= e)%Z ->
  inject_Z (cond_Zopp s (Zpos (shl_align m e ez).1)) * 2 ^ ez
  == signed s (inject_Z (Zpos m) * 2 ^ e).
Proof.
  intros H. rewrite shl_align_fst by done.
  assert (P : 2 ^ (e - ez) * 2 ^ ez == 2 ^ e).
  { rewrite <- pow2_plus. apply Qpower_comp; [reflexivity|lia]. }
  destruct s; cbn [cond_Zopp signed];
    rewrite ?inject_Z_opp, inject_Z_mult, inject_pow2 by lia;
    rewrite <- P; ring.
Qed.

Lemma SFsub_Q (x y : spec_float) (B : Q) :
  finite_SF x -> finite_SF y ->
  - B <= SF2Q x - SF2Q y -> SF2Q x - SF2Q y <= B -> B < 2 ^ 970 ->
  finite_SF (SFsub prec emax x y)
  /\ SF2Q x - SF2Q y - (eps * B + eta) <= SF2Q (SFsub prec emax x y)
  /\ SF2Q (SFsub prec emax x y) <= SF2Q x - SF2Q y + (eps * B + eta).
Proof.
  intros Fx Fy L U HB.
  pose proof eps_pos as Ee. pose proof eta_pos as Et.
  assert (B0 : 0 <= B) by lra.
  assert (Z : 0 <= eps * B) by (apply Qmult_le_0_compat; lra).
  destruct x as [sx| |  |sx mx ex]; try done;
    destruct y as [sy| | |sy my ey]; try done.
  - cbn [SFsub]. assert (F : finite_SF (match sx, sy with
                                          | true, false | false, true => S754_zero sx
                                          | _, _ => S754_zero false
                                          end)) by (by destruct sx, sy).
    assert (Q : SF2Q (match sx, sy with
                      | true, false | false, true => S754_zero sx
                      | _, _ => S754_zero false
                      end) == 0) by (by destruct sx, sy).
    split; [done|]. rewrite Q. cbn [SF2Q] in *. lra.
  - cbn [SFsub]. split; [done|].
    assert (Q : SF2Q (S754_finite (negb sy) my ey)
                == SF2Q (S754_zero sx) - SF2Q (S754_finite sy my ey)).
    { cbn [SF2Q]. unfold signed. destruct sy; simpl; ring. }
    rewrite Q. lra.
  - cbn [SFsub]. split; [done|].
    assert (Q : SF2Q (S754_finite sx mx ex)
                == SF2Q (S754_finite sx mx ex) - SF2Q (S754_zero sy)).
    { cbn [SF2Q]. ring. }
    rewrite <- Q. lra.
  - cbn [SFsub]. cbv zeta.
    set (ez := Z.min ex ey).
    set (S := (cond_Zopp sx (Zpos (shl_align mx ex ez).1)
               - cond_Zopp sy (Zpos (shl_align my ey ez).1))%Z).
    assert (D : inject_Z S * 2 ^ ez
                == SF2Q (S754_finite sx mx ex) - SF2Q (S754_finite sy my ey)).
    { pose proof (aligned_Q sx mx ex ez ltac:(unfold ez; lia)) as Ax.
      pose proof (aligned_Q sy my ey ez ltac:(unfold ez; lia)) as Ay.
      unfold S, Z.sub. rewrite inject_Z_plus, inject_Z_opp.
      cbn [SF2Q]. rewrite <- Ax, <- Ay. ring. }
    fold ez. fold S.
    set (Dv := SF2Q (S754_finite sx mx ex) - SF2Q (S754_finite sy my ey)) in *.
    destruct S as [|p|p]; cbn [binary_normalize].
    + split; [done|]. cbn [SF2Q]. change (inject_Z 0) with 0 in D.
      rewrite Qmult_0_l in D. lra.
    + set (V := inject_Z (Zpos p) * 2 ^ ez) in *.
      assert (V0 : 0 < V).
      { unfold V. apply Qmult_lt_0_compat; [|apply pow2_pos].
        change 0 with (inject_Z 0). by rewrite <- Zlt_Qlt. }
      destruct (rounds_to_err (binary_round prec emax false p ez) false V B)
        as (F & RL & RU); [apply binary_round_Q; fold V; lra|lra|lra|].
      split; [done|]. unfold signed in RL, RU. lra.
    + set (V := inject_Z (Zpos p) * 2 ^ ez).
      assert (DV : Dv == - V).
      { rewrite <- D. unfold V. change (Zneg p) with (- Zpos p)%Z.
        rewrite inject_Z_opp. ring. }
      assert (V0 : 0 < V).
      { unfold V. apply Qmult_lt_0_compat; [|apply pow2_pos].
        change 0 with (inject_Z 0). by rewrite <- Zlt_Qlt. }
      destruct (rounds_to_err (binary_round prec emax true p ez) true V B)
        as (F & RL & RU); [apply binary_round_Q; fold V; lra|lra|lra|].
      split; [done|]. unfold signed in RL, RU. lra.
Qed.

End Binary64Ops.

(** ** The geocoordinate encoder *)

Module Geo.
Import Binary64 Binary64Q Binary64Ops.

(** A rational of the EXIF format: numerator and denominator. *)
Definition rational : Type := Z * Z.
Definition dms : Type := rational * rational * rational.

(** [float(z)] of an [int]: the nearest double, ties to even. (Python
    raises [OverflowError] on an [int] beyond the range of the doubles;
    the integers converted below are constants or come out of [int(x)]
    of a double, and are in range.) *)
Definition float_of_Z (z : Z) : float :=
  SF2Prim (binary_normalize prec emax z 0 false).

(** [int(x)]: truncation toward zero. *)
Definition float_to_int (x : float) : result Z :=
  match Prim2SF x with
  | S754_zero _ => Ok 0%Z
  | S754_finite sg m e =>
      let a := if (0 <=? e)%Z then Z.shiftl (Zpos m) e
               else Z.shiftr (Zpos m) (- e) in
      Ok (if sg then (- a)%Z else a)
  | S754_infinity _ => Raise OverflowError
  | S754_nan => Raise ValueError
  end.

(** The coordinates are the doubles of the manifest; an [int] meets a
    [float] in every operation but the first, and is converted. *)
Definition _convert_to_degrees (value : float) : result dms :=
  d ← float_to_int value;
  m ← float_to_int ((value - float_of_Z d) * float_of_Z 60);
  let s := ((value - float_of_Z d - float_of_Z m / float_of_Z 60)
            * 3600)%float in
  s100 ← float_to_int (s * float_of_Z 100);
  Ok ((d, 1%Z), (m, 1%Z), (s100, 100%Z)).

Record gps_ifd := mk_gps {
  GPSLatitudeRef : string;
  GPSLatitude : dms;
  GPSLongitudeRef : string;
  GPSLongitude : dms;
}.

(** The GPS block [update_exif] builds for a location. *)
Definition gps_block (latitude longitude : float) : result gps_ifd :=
  let lat_ref := if PrimFloat.leb zero latitude then "N"%string else "S"%string in
  lat ← _convert_to_degrees (abs latitude);
  let lon_ref := if PrimFloat.leb zero longitude then "E"%string else "W"%string in
  lon ← _convert_to_degrees (abs longitude);
  Ok (mk_gps lat_ref lat lon_ref lon).

(** The exact value of a finite float. *)
Definition float_to_Q (x : float) : Q := SF2Q (Prim2SF x).

(** Neither an infinity nor a NaN. *)
Definition finite_float (x : float) : Prop := finite_SF (Prim2SF x).

(** The angle a DMS triple stands for. *)
Definition rational_to_Q (r : rational) : Q := inject_Z (fst r) / inject_Z (snd r).

Definition dms_to_Q (t : dms) : Q :=
  let '(d, m, s) := t in
  rational_to_Q d + rational_to_Q m / 60 + rational_to_Q s / 3600.

(** The denominators the EXIF format is given: whole degrees, whole
    minutes, hundredths of a second. *)
Definition dms_shape (t : dms) : Prop :=
  let '(d, m, s) := t in
  snd d = 1%Z /\ snd m = 1%Z /\ snd s = 100%Z.

(** The numerators of a DMS triple. *)
Definition degrees (t : dms) : Z := fst (fst (fst t)).
Definition minutes (t : dms) : Z := fst (snd (fst t)).
Definition centiseconds (t : dms) : Z := fst (snd t).

Local Open Scope Q_scope.

(** *** The operations, with their rounding error *)

Lemma mul_Q (x y : float) (P B : Q) :
  finite_float x -> finite_float y -> float_to_Q x * float_to_Q y == P ->
  - B <= P -> P <= B -> B < 2 ^ 970 ->
  finite_float (x * y)
  /\ P - (eps * B + eta) <= float_to_Q (x * y)
  /\ float_to_Q (x * y) <= P + (eps * B + eta).
Proof.
  intros Fx Fy E L U HB. unfold finite_float, float_to_Q in *.
  rewrite mul_spec. unfold SF64mul. rewrite <- E in L, U |- *.
  by apply SFmul_Q.
Qed.

Lemma sub_Q (x y : float) (D B : Q) :
  finite_float x -> finite_float y -> float_to_Q x - float_to_Q y == D ->
  - B <= D -> D <= B -> B < 2 ^ 970 ->
  finite_float (x - y)
  /\ D - (eps * B + eta) <= float_to_Q (x - y)
  /\ float_to_Q (x - y) <= D + (eps * B + eta).
Proof.
  intros Fx Fy E L U HB. unfold finite_float, float_to_Q in *.
  rewrite sub_spec. unfold SF64sub. rewrite <- E in L, U |- *.
  by apply SFsub_Q.
Qed.

Lemma abs_Q (x : float) :
  float_to_Q (abs x) == Qabs (float_to_Q x)
  /\ (finite_float x -> finite_float (abs x)).
Proof.
  unfold finite_float, float_to_Q. rewrite abs_spec.
  destruct (Prim2SF x) as [s| | |s m e]; cbn [SFabs SF2Q finite_SF];
    try (split; [reflexivity|done]).
  split; [|done].
  assert (P : 0 < inject_Z (Zpos m) * 2 ^ e).
  { apply Qmult_lt_0_compat; [|apply pow2_pos].
    change 0 with (inject_Z 0). by rewrite <- Zlt_Qlt. }
  unfold signed. destruct s.
  - rewrite Qabs_opp, Qabs_pos; [reflexivity|lra].
  - rewrite Qabs_pos; [reflexivity|lra].
Qed.

(** [int(x)] of a finite double: the integer next to [x] on the side of
    zero. *)
Lemma float_to_int_Q (x : float) :
  finite_float x ->
  exists k, float_to_int x = Ok k
    /\ (0 <= float_to_Q x ->
        inject_Z k <= float_to_Q x /\ float_to_Q x < inject_Z k + 1)
    /\ (float_to_Q x <= 0 ->
        float_to_Q x <= inject_Z k /\ inject_Z k - 1 < float_to_Q x).
Proof.
  unfold finite_float, float_to_Q, float_to_int.
  destruct (Prim2SF x) as [s| | |s m e]; try done; intros _.
  - exists 0%Z. cbn [SF2Q]. split; [done|]. change (inject_Z 0) with 0. lra.
  - set (a := if (0 <=? e)%Z then Z.shiftl (Zpos m) e
              else Z.shiftr (Zpos m) (- e)).
    set (V := inject_Z (Zpos m) * 2 ^ e).
    assert (A : inject_Z a <= V /\ V < inject_Z a + 1).
    { unfold a, V. destruct (Z.leb_spec 0 e) as [He|He].
      - rewrite Z.shiftl_mul_pow2 by done.
        rewrite inject_Z_mult, inject_pow2 by done. lra.
      - rewrite Z.shiftr_div_pow2 by lia.
        assert (P : 2 ^ e * inject_Z (2 ^ (- e)) == 1).
        { rewrite inject_pow2 by lia. rewrite <- pow2_plus.
          replace (e + - e)%Z with 0%Z by lia. reflexivity. }
        pose proof (pow2_pos e) as Pe.
        assert (Zp : (0 < 2 ^ (- e))%Z) by (apply Z.pow_pos_nonneg; lia).
        pose proof (Z.div_mod (Zpos m) (2 ^ (- e)) ltac:(lia)) as DM.
        pose proof (Z.mod_pos_bound (Zpos m) (2 ^ (- e)) Zp) as [M0 M1].
        set (q := (Zpos m / 2 ^ (- e))%Z) in *.
        set (r := (Zpos m mod 2 ^ (- e))%Z) in *.
        rewrite DM, inject_Z_plus, inject_Z_mult.
        rewrite Zle_Qle in M0. rewrite Zlt_Qlt in M1.
        change (inject_Z 0) with 0 in M0.
        set (w := inject_Z (2 ^ (- e))) in *.
        set (ir := inject_Z r) in *. set (iq := inject_Z q) in *.
        set (p := 2 ^ e) in *.
        assert (E1 : (w * iq + ir) * p == iq * (p * w) + ir * p) by ring.
        rewrite E1, P.
        assert (R0 : 0 <= ir * p) by (apply Qmult_le_0_compat; lra).
        assert (R1 : ir * p < p * w).
        { rewrite (Qmult_comm p w). apply Qmult_lt_compat_r; done. }
        lra. }
    assert (V0 : 0 < V).
    { unfold V. apply Qmult_lt_0_compat; [|apply pow2_pos].
      change 0 with (inject_Z 0). by rewrite <- Zlt_Qlt. }
    exists (if s then (- a)%Z else a). split; [done|].
    cbn [SF2Q]. fold V. unfold signed. destruct s.
    + rewrite inject_Z_opp. lra.
    + lra.
Qed.


(** *** Comparison *)

Lemma valid_mantissa (s : bool) (m : positive) (e : Z) :
  valid_binary prec emax (S754_finite s m e) = true ->
  inject_Z (Zpos m) * 2 ^ e < 2 ^ (e + 53).
Proof.
  cbn [valid_binary]. unfold bounded, canonical_mantissa.
  intros H. apply andb_prop in H as [H _]. apply Z.eqb_eq in H.
  pose proof (digits2_bounds m) as [_ D].
  assert (L : (Zpos (digits2_pos m) <= 53)%Z).
  { unfold fexp, emin, prec, emax in H. lia. }
  assert (M : (Zpos m < 2 ^ 53)%Z).
  { eapply Z.lt_le_trans; [exact D|]. apply Z.pow_le_mono_r; lia. }
  rewrite Zlt_Qlt, inject_pow2 in M by lia.
  rewrite (Z.add_comm e 53), pow2_plus.
  apply Qmult_lt_compat_r; [apply pow2_pos|done].
Qed.

(** A double whose magnitude compares below a normal positive double is
    finite and its magnitude is at most the value of the latter. *)
Lemma leb_abs_Q (x y : float) (my : positive) (ey : Z) :
  Prim2SF y = S754_finite false my ey -> (2 ^ 52 <= Zpos my)%Z ->
  PrimFloat.leb (abs x) y = true ->
  finite_float x /\ Qabs (float_to_Q x) <= float_to_Q y.
Proof.
  intros Ey N H. rewrite leb_spec, abs_spec, Ey in H.
  pose proof (Prim2SF_valid x) as V.
  destruct (abs_Q x) as [A _]. rewrite <- A.
  unfold finite_float, float_to_Q in *. rewrite abs_spec, Ey.
  destruct (Prim2SF x) as [s| | |s m e]; cbn [SFabs] in *; try done.
  - split; [done|]. cbn [SF2Q].
    apply Qlt_le_weak, Qmult_lt_0_compat; [|apply pow2_pos].
    change 0 with (inject_Z 0). by rewrite <- Zlt_Qlt.
  - split; [done|]. cbn [SF2Q signed].
    unfold SFleb, SFcompare in H.
    pose proof (valid_mantissa s m e V) as Vm.
    destruct (Z.compare_spec e ey) as [He|He|He]; [| |done].
    + rewrite <- He. apply Qmult_le_compat_r; [|apply Qlt_le_weak, pow2_pos].
      rewrite <- Zle_Qle. cbn in H.
      change (Pos.compare_cont Eq m my) with (Pos.compare m my) in H.
      destruct (Pos.compare_spec m my); try done; lia.
    + apply Qlt_le_weak. eapply Qlt_le_trans; [exact Vm|].
      apply Qle_trans with (2 ^ (ey + 52)).
      * apply pow2_le. lia.
      * rewrite (Z.add_comm ey 52), pow2_plus.
        apply Qmult_le_compat_r; [|apply Qlt_le_weak, pow2_pos].
        rewrite <- inject_pow2 by lia. by rewrite <- Zle_Qle.
Qed.

Lemma leb_zero_Q (x : float) :
  finite_float x ->
  (0 <= float_to_Q x -> PrimFloat.leb zero x = true)
  /\ (float_to_Q x < 0 -> PrimFloat.leb zero x = false).
Proof.
  unfold finite_float, float_to_Q. rewrite leb_spec.
  change (Prim2SF zero) with (S754_zero false).
  destruct (Prim2SF x) as [s| | |s m e]; try done; intros _.
  assert (P : 0 < inject_Z (Zpos m) * 2 ^ e).
  { apply Qmult_lt_0_compat; [|apply pow2_pos].
    change 0 with (inject_Z 0). by rewrite <- Zlt_Qlt. }
  cbn [SF2Q]. unfold signed. destruct s; (split; [|]); intros H;
    try reflexivity; lra.
Qed.

(** *** The integers and quotients of the encoder *)

Lemma range_check (P : Z -> bool) (n : nat) :
  forallb P (map Z.of_nat (seq 0 n)) = true ->
  forall z, (0 <= z < Z.of_nat n)%Z -> P z = true.
Proof.
  intros H z Hz. rewrite forallb_forall in H. apply H.
  apply in_map_iff. exists (Z.to_nat z). split; [lia|].
  apply in_seq. lia.
Qed.

Definition finite_b (x : float) : bool :=
  match Prim2SF x with
  | S754_zero _ | S754_finite _ _ _ => true
  | _ => false
  end.

Lemma finite_b_spec (x : float) : finite_b x = true -> finite_float x.
Proof. unfold finite_b, finite_float. by destruct (Prim2SF x). Qed.

(** The integers up to 180 are doubles. *)
Lemma float_of_Z_exact (z : Z) :
  (0 <= z <= 180)%Z ->
  finite_float (float_of_Z z) /\ float_to_Q (float_of_Z z) == inject_Z z.
Proof.
  intros Hz.
  pose proof (range_check
    (fun z => finite_b (float_of_Z z)
              && Qeq_bool (float_to_Q (float_of_Z z)) (inject_Z z)) 181
    ltac:(vm_compute; reflexivity) z ltac:(lia)) as H.
  cbv beta in H. apply andb_prop in H as [F E].
  split; [by apply finite_b_spec|by apply Qeq_bool_iff].
Qed.

(** [m/60]: the quotients the encoder takes, each within half a unit in
    the last place of a number below 2. *)
Lemma minutes_quotient (m : Z) :
  (0 <= m <= 60)%Z ->
  finite_float (float_of_Z m / float_of_Z 60)
  /\ Qabs (float_to_Q (float_of_Z m / float_of_Z 60) - inject_Z m / 60)
     <= eps.
Proof.
  intros Hm.
  pose proof (range_check
    (fun m => finite_b (float_of_Z m / float_of_Z 60)
              && Qle_bool
                   (Qabs (float_to_Q (float_of_Z m / float_of_Z 60)
                          - inject_Z m / 60)) eps) 61
    ltac:(vm_compute; reflexivity) m ltac:(lia)) as H.
  cbv beta in H. apply andb_prop in H as [F E].
  split; [by apply finite_b_spec|by apply Qle_bool_iff].
Qed.

Lemma eps_small : eps <= 1 # 2000000000000000.
Proof. vm_compute. discriminate. Qed.

Lemma eta_small : eta <= 1 # 2000000000000000.
Proof. vm_compute. discriminate. Qed.


(** [int(x)] of a double that is not below [-sigma]. *)
Lemma float_to_int_near (x : float) (sigma : Q) :
  finite_float x -> - sigma <= float_to_Q x -> 0 <= sigma -> sigma < 1 ->
  exists k, float_to_int x = Ok k
    /\ (0 <= k)%Z
    /\ inject_Z k <= float_to_Q x + sigma
    /\ float_to_Q x < inject_Z k + 1.
Proof.
  intros F L S0 S1.
  destruct (float_to_int_Q x F) as (k & E & P & N).
  exists k. split; [done|].
  destruct (Qlt_le_dec (float_to_Q x) 0) as [H|H].
  - destruct N as [N1 N2]; [lra|].
    assert (K0 : (-1 < k)%Z).
    { rewrite Zlt_Qlt. change (inject_Z (-1)) with (-1). lra. }
    assert (K1 : (k < 1)%Z).
    { rewrite Zlt_Qlt. change (inject_Z 1) with 1. lra. }
    assert (k = 0%Z) as -> by lia.
    change (inject_Z 0) with 0. split; [done|]. lra.
  - destruct P as [P1 P2]; [done|].
    assert (K0 : (-1 < k)%Z).
    { rewrite Zlt_Qlt. change (inject_Z (-1)) with (-1). lra. }
    split; [lia|]. lra.
Qed.

Lemma float_3600 : finite_float 3600%float /\ float_to_Q 3600%float == 3600.
Proof. split; [exact I|]. vm_compute. reflexivity. Qed.

Lemma below_overflow (B : Q) : B <= 10000 -> B < 2 ^ 970.
Proof.
  intros H. eapply Qle_lt_trans; [exact H|]. vm_compute. reflexivity.
Qed.

(** The encoder on a double between 0 and 180. *)
Lemma convert_to_degrees_binary64 (value : float) :
  finite_float value -> 0 <= float_to_Q value -> float_to_Q value <= 180 ->
  exists d m s,
    _convert_to_degrees value = Ok ((d, 1%Z), (m, 1%Z), (s, 100%Z))
    /\ (0 <= d)%Z /\ inject_Z d <= float_to_Q value
    /\ (0 <= m <= 60)%Z /\ (0 <= s <= 6000)%Z
    /\ Qabs (float_to_Q value - dms_to_Q ((d, 1%Z), (m, 1%Z), (s, 100%Z)))
       < (1 # 360000) + (1 # 100000000000000).
Proof.
  intros F V0 V1. unfold _convert_to_degrees.
  pose proof eps_pos as Ep. pose proof eta_pos as Et.
  pose proof eps_small as Es. pose proof eta_small as Ets.
  set (v := float_to_Q value) in *.
  (* d = int(value) *)
  destruct (float_to_int_Q value F) as (d & -> & D & _).
  destruct (D V0) as [D1 D2]. clear D. fold v in D1, D2.
  cbn [mbind result_bind].
  assert (Zd : (0 <= d <= 180)%Z).
  { split.
    - assert (K : (-1 < d)%Z); [|lia].
      rewrite Zlt_Qlt. change (inject_Z (-1)) with (-1). lra.
    - rewrite Zle_Qle. change (inject_Z 180) with 180. lra. }
  destruct (float_of_Z_exact d Zd) as [Fd Qd].
  (* value - d *)
  destruct (sub_Q value (float_of_Z d) (v - inject_Z d) 1 F Fd)
    as (F1 & L1 & U1);
    [unfold v; rewrite Qd; reflexivity|lra|lra|apply below_overflow; lra|].
  set (x1 := (value - float_of_Z d)%float) in *.
  set (r1 := float_to_Q x1) in *.
  (* (value - d) * 60 *)
  destruct (float_of_Z_exact 60 ltac:(lia)) as [F60 Q60].
  change (inject_Z 60) with 60 in Q60.
  destruct (mul_Q x1 (float_of_Z 60) (r1 * 60) 61 F1 F60)
    as (F2 & L2 & U2);
    [unfold r1; rewrite Q60; reflexivity|lra|lra|apply below_overflow; lra|].
  set (x2 := (x1 * float_of_Z 60)%float) in *.
  set (t1 := float_to_Q x2) in *.
  (* m = int(...) *)
  destruct (float_to_int_near x2 (1 # 1000000000000) F2) as (m & -> & M0 & M1 & M2);
    [fold t1; lra|lra|lra|].
  fold t1 in M1, M2. cbn [mbind result_bind].
  assert (Zm : (0 <= m <= 60)%Z).
  { split; [done|]. assert (K : (m < 61)%Z); [|lia].
    rewrite Zlt_Qlt. change (inject_Z 61) with 61. lra. }
  (* m/60 *)
  destruct (minutes_quotient m Zm) as [Fq Qq].
  set (xq := (float_of_Z m / float_of_Z 60)%float) in *.
  set (q := float_to_Q xq) in *.
  apply Qabs_Qle_condition in Qq as [Qq1 Qq2].
  unfold Qdiv in Qq1, Qq2. change (/ 60) with (1 # 60) in Qq1, Qq2.
  assert (I0 : 0 <= inject_Z m).
  { change 0 with (inject_Z 0). by rewrite <- Zle_Qle. }
  (* value - d - m/60 *)
  destruct (sub_Q x1 xq (r1 - q) 1 F1 Fq) as (F3 & L3 & U3);
    [reflexivity|lra|lra|apply below_overflow; lra|].
  set (x3 := (x1 - xq)%float) in *.
  set (r2 := float_to_Q x3) in *.
  (* ... * 3600.00 *)
  destruct float_3600 as [F3600 Q3600].
  destruct (mul_Q x3 3600%float (r2 * 3600) 61 F3 F3600) as (F4 & L4 & U4);
    [unfold r2; rewrite Q3600; reflexivity|lra|lra|apply below_overflow; lra|].
  set (x4 := (x3 * 3600)%float) in *.
  set (sf := float_to_Q x4) in *.
  (* s * 100 *)
  destruct (float_of_Z_exact 100 ltac:(lia)) as [F100 Q100].
  change (inject_Z 100) with 100 in Q100.
  destruct (mul_Q x4 (float_of_Z 100) (sf * 100) 6100 F4 F100)
    as (F5 & L5 & U5);
    [unfold sf; rewrite Q100; reflexivity|lra|lra|apply below_overflow; lra|].
  set (x5 := (x4 * float_of_Z 100)%float) in *.
  set (s100 := float_to_Q x5) in *.
  (* int(s * 100) *)
  destruct (float_to_int_near x5 (1 # 100000000) F5) as (s & -> & S0 & S1 & S2);
    [fold s100; lra|lra|lra|].
  fold s100 in S1, S2. cbn [mbind result_bind].
  exists d, m, s. split; [reflexivity|].
  split; [lia|]. split; [done|]. split; [done|].
  assert (Zs : (0 <= s <= 6000)%Z).
  { split; [done|]. assert (K : (s < 6001)%Z); [|lia].
    rewrite Zlt_Qlt. change (inject_Z 6001) with 6001. lra. }
  split; [done|].
  unfold dms_to_Q, rational_to_Q. cbn [fst snd].
  change (inject_Z 1) with 1. change (inject_Z 100) with 100.
  unfold Qdiv. change (/ 1) with 1. change (/ 60) with (1 # 60).
  change (/ 100) with (1 # 100). change (/ 3600) with (1 # 3600).
  apply Qabs_Qlt_condition. split; lra.
Qed.


(** What the encoder makes of a coordinate whose magnitude compares at
    most [bound], a whole number of degrees up to 180. *)
Lemma convert_to_degrees_abs (x : float) (bound : Z) :
  (90 <= bound <= 180)%Z ->
  PrimFloat.leb (abs x) (float_of_Z bound) = true ->
  finite_float x
  /\ float_to_Q (abs x) == Qabs (float_to_Q x)
  /\ exists t, _convert_to_degrees (abs x) = Ok t
      /\ dms_shape t
      /\ (0 <= degrees t <= bound)%Z
      /\ (0 <= minutes t <= 60)%Z
      /\ (0 <= centiseconds t <= 6000)%Z
      /\ Qabs (float_to_Q (abs x) - dms_to_Q t)
         < (1 # 360000) + (1 # 100000000000000).
Proof.
  intros Hb H.
  destruct (float_of_Z_exact bound ltac:(lia)) as [Fb Qb].
  assert (N : exists m e, Prim2SF (float_of_Z bound) = S754_finite false m e
                          /\ (2 ^ 52 <= Zpos m)%Z).
  { pose proof (range_check
      (fun z => match Prim2SF (float_of_Z (90 + z)) with
                | S754_finite false m e => (2 ^ 52 <=? Zpos m)%Z
                | _ => false
                end) 91 ltac:(vm_compute; reflexivity) (bound - 90)%Z
      ltac:(lia)) as C.
    cbv beta in C. replace (90 + (bound - 90))%Z with bound in C by lia.
    destruct (Prim2SF (float_of_Z bound)) as [| | |[] m e]; try done.
    exists m, e. split; [done|]. by apply Z.leb_le. }
  destruct N as (mb & eb & Eb & N).
  destruct (leb_abs_Q x (float_of_Z bound) mb eb Eb N H) as [F L].
  destruct (abs_Q x) as [A Fa]. specialize (Fa F).
  split; [done|]. split; [done|].
  assert (U : float_to_Q (abs x) <= inject_Z bound) by (rewrite A, <- Qb; done).
  assert (U' : inject_Z bound <= 180).
  { change 180 with (inject_Z 180). rewrite <- Zle_Qle. lia. }
  destruct (convert_to_degrees_binary64 (abs x) Fa) as
    (d & m & s & E & D0 & D1 & M & S & B).
  { rewrite A. apply Qabs_nonneg. }
  { lra. }
  eexists. split; [exact E|]. split; [done|].
  unfold degrees, minutes, centiseconds. cbn [fst snd].
  split; [|done]. split; [done|]. rewrite Zle_Qle. lra.
Qed.

(** C3 (amended). For a latitude of magnitude at most 90 and a longitude
    of magnitude at most 180, in the binary64 arithmetic of the script, the
    GPS block holds for each the triple (d,1), (m,1), (s,100), which stands
    for an angle within 1/360000 + 10^-14 degree of the magnitude; the
    reference is N (E) for a nonnegative latitude (longitude) and S (W)
    for a negative one. *)
Theorem gps_block_binary64 (lat lon : float) :
  PrimFloat.leb (abs lat) (float_of_Z 90) = true ->
  PrimFloat.leb (abs lon) (float_of_Z 180) = true ->
  exists g, gps_block lat lon = Ok g
    /\ dms_shape (GPSLatitude g) /\ dms_shape (GPSLongitude g)
    /\ Qabs (float_to_Q (abs lat) - dms_to_Q (GPSLatitude g))
       < (1 # 360000) + (1 # 100000000000000)
    /\ Qabs (float_to_Q (abs lon) - dms_to_Q (GPSLongitude g))
       < (1 # 360000) + (1 # 100000000000000)
    /\ (0 <= float_to_Q lat -> GPSLatitudeRef g = "N"%string)
    /\ (float_to_Q lat < 0 -> GPSLatitudeRef g = "S"%string)
    /\ (0 <= float_to_Q lon -> GPSLongitudeRef g = "E"%string)
    /\ (float_to_Q lon < 0 -> GPSLongitudeRef g = "W"%string).
Proof.
  intros H1 H2. unfold gps_block.
  destruct (convert_to_degrees_abs lat 90 ltac:(lia) H1)
    as (F1 & _ & t1 & -> & S1 & _ & _ & _ & B1).
  destruct (convert_to_degrees_abs lon 180 ltac:(lia) H2)
    as (F2 & _ & t2 & -> & S2 & _ & _ & _ & B2).
  cbn [mbind result_bind]. eexists. split; [reflexivity|].
  cbn [GPSLatitude GPSLongitude GPSLatitudeRef GPSLongitudeRef].
  destruct (leb_zero_Q lat F1) as [P1 N1].
  destruct (leb_zero_Q lon F2) as [P2 N2].
  repeat (split; [assumption|]).
  repeat split; intros H.
  - by rewrite (P1 H).
  - by rewrite (N1 H).
  - by rewrite (P2 H).
  - by rewrite (N2 H).
Qed.

(** Witness of [gps_block_binary64]: Paris. *)
Lemma gps_block_binary64_witness :
  PrimFloat.leb (abs 48.8566) (float_of_Z 90) = true
  /\ PrimFloat.leb (abs 2.3522) (float_of_Z 180) = true
  /\ exists g, gps_block 48.8566 2.3522 = Ok g
    /\ dms_shape (GPSLatitude g) /\ dms_shape (GPSLongitude g)
    /\ Qabs (float_to_Q (abs 48.8566) - dms_to_Q (GPSLatitude g))
       < (1 # 360000) + (1 # 100000000000000)
    /\ Qabs (float_to_Q (abs 2.3522) - dms_to_Q (GPSLongitude g))
       < (1 # 360000) + (1 # 100000000000000)
    /\ (0 <= float_to_Q 48.8566 -> GPSLatitudeRef g = "N"%string)
    /\ (float_to_Q 48.8566 < 0 -> GPSLatitudeRef g = "S"%string)
    /\ (0 <= float_to_Q 2.3522 -> GPSLongitudeRef g = "E"%string)
    /\ (float_to_Q 2.3522 < 0 -> GPSLongitudeRef g = "W"%string).
Proof.
  assert (H1 : PrimFloat.leb (abs 48.8566) (float_of_Z 90) = true)
    by (vm_compute; reflexivity).
  assert (H2 : PrimFloat.leb (abs 2.3522) (float_of_Z 180) = true)
    by (vm_compute; reflexivity).
  exact (conj H1 (conj H2 (gps_block_binary64 48.8566 2.3522 H1 H2))).
Defined.

(** The claim of C3 as it is written. *)
Definition float_dms_claim : Prop :=
  forall lat lon : float,
    PrimFloat.leb (abs lat) (float_of_Z 90) = true ->
    PrimFloat.leb (abs lon) (float_of_Z 180) = true ->
    exists g, gps_block lat lon = Ok g
      /\ dms_shape (GPSLatitude g) /\ dms_shape (GPSLongitude g)
      /\ Qabs (float_to_Q (abs lat) - dms_to_Q (GPSLatitude g))
         <= 1 # 360000
      /\ Qabs (float_to_Q (abs lon) - dms_to_Q (GPSLongitude g))
         <= 1 # 360000
      /\ (0 <= float_to_Q lat -> GPSLatitudeRef g = "N"%string)
      /\ (float_to_Q lat < 0 -> GPSLatitudeRef g = "S"%string)
      /\ (0 <= float_to_Q lon -> GPSLongitudeRef g = "E"%string)
      /\ (float_to_Q lon < 0 -> GPSLongitudeRef g = "W"%string).

(** C3 (counterexample). For the double nearest to 0.0502 the seconds come
    out as 71/100, one hundredth below the truncation of the exact value,
    and the encoded angle is more than 1/360000 degree below the input. *)
Lemma convert_to_degrees_float_counterexample : ~ float_dms_claim.
Proof.
  intros C.
  destruct (C 0.0502%float zero) as (g & E & _ & _ & B & _); [reflexivity..|].
  assert (E' : gps_block 0.0502%float zero
               = Ok (mk_gps "N" ((0, 1), (3, 1), (71, 100))%Z
                            "E" ((0, 1), (0, 1), (0, 100))%Z))
    by (vm_compute; reflexivity).
  rewrite E' in E. injection E as <-.
  vm_compute in B. by apply B.
Qed.

End Geo.

(** ** Strings and paths *)

Module Pathlib.
Local Open Scope string_scope.

(** [s.rfind(c)]: the index of the last [c], if any. *)
Fixpoint rfind (c : ascii) (s : string) : option nat :=
  match s with
  | EmptyString => None
  | String a s' =>
      match rfind c s' with
      | Some i => Some (S i)
      | None => if Ascii.eqb a c then Some 0%nat else None
      end
  end.

(** [s[:i]] and [s[i:]] *)
Fixpoint take_str (i : nat) (s : string) : string :=
  match i, s with
  | S i, String a s' => String a (take_str i s')
  | _, _ => EmptyString
  end.

Fixpoint drop_str (i : nat) (s : string) : string :=
  match i, s with
  | S i, String _ s' => drop_str i s'
  | _, _ => s
  end.

(** [s.split(c)[0]] *)
Fixpoint split_head (c : ascii) (s : string) : string :=
  match s with
  | EmptyString => EmptyString
  | String a s' => if Ascii.eqb a c then EmptyString else String a (split_head c s')
  end.

(** [s.split(c)] *)
Fixpoint split_on (c : ascii) (s : string) : list string :=
  match s with
  | EmptyString => [EmptyString]
  | String a s' =>
      if Ascii.eqb a c then EmptyString :: split_on c s'
      else match split_on c s' with
           | w :: ws => String a w :: ws
           | [] => [String a EmptyString]
           end
  end.

Definition lower_ascii (a : ascii) : ascii :=
  let n := nat_of_ascii a in
  if (65 <=? n)%nat && (n <=? 90)%nat then ascii_of_nat (n + 32) else a.

(** [s.lower()], on ASCII letters. *)
Fixpoint lower (s : string) : string :=
  match s with
  | EmptyString => EmptyString
  | String a s' => String (lower_ascii a) (lower s')
  end.

(** [s.endswith(c)] for one character. *)
Fixpoint ends_with (c : ascii) (s : string) : bool :=
  match s with
  | EmptyString => false
  | String a EmptyString => Ascii.eqb a c
  | String _ s' => ends_with c s'
  end.

Definition contains (c : ascii) (s : string) : bool :=
  match rfind c s with
  | Some _ => true
  | None => false
  end.

(** A pure POSIX path that names an entry [name] of a directory
    [parent]: every path of the script is built as [folder / filename]. *)
Record Path := mkPath {
  parent : string;
  name : string;
}.

(** [str(path)] *)
Definition str (p : Path) : string :=
  if String.eqb (parent p) "" then name p else parent p +:+ "/" +:+ name p.

(** The components of a path string that [Path] keeps. *)
Definition components (s : string) : list string :=
  filter (fun w => w <> "" /\ w <> ".") (split_on "/" s).

Fixpoint join_components (ws : list string) : string :=
  match ws with
  | [] => ""
  | [w] => w
  | w :: ws => w +:+ "/" +:+ join_components ws
  end.

Definition is_absolute (s : string) : bool :=
  match s with
  | String "/" _ => true
  | _ => false
  end.

(** [Path(s)] *)
Definition Path_of_string (s : string) : Path :=
  let ws := components s in
  let root := if is_absolute s then "/" else "" in
  match reverse ws with
  | [] => mkPath root ""
  | w :: rest => mkPath (root +:+ join_components (reverse rest)) w
  end.

(** [folder / filename], for a [filename] that is one component. *)
Definition joinpath (folder : string) (filename : string) : Path :=
  if String.eqb filename "" then Path_of_string folder
  else mkPath folder filename.

(** [path.suffix] *)
Definition suffix (p : Path) : string :=
  match rfind "." (name p) with
  | Some i =>
      if (0 <? i)%nat && (i <? String.length (name p) - 1)%nat
      then drop_str i (name p) else ""
  | None => ""
  end.

(** [path.stem] *)
Definition stem (p : Path) : string :=
  match rfind "." (name p) with
  | Some i =>
      if (0 <? i)%nat && (i <? String.length (name p) - 1)%nat
      then take_str i (name p) else name p
  | None => name p
  end.

(** [path.with_name(new)], for a [new] that is one component. *)
Definition with_name (p : Path) (new : string) : result Path :=
  if String.eqb (name p) "" then Raise ValueError
  else Ok (mkPath (parent p) new).

(** [path.with_suffix(new)], for a [new] that starts with a dot. *)
Definition with_suffix (p : Path) (new : string) : result Path :=
  if String.eqb (name p) "" then Raise ValueError
  else Ok (mkPath (parent p) (stem p +:+ new)).

End Pathlib.

(** ** Files, the state of a run and its log *)

Module Toolkit.
Import Calendar PyDatetime Timezone Geo Pathlib.
Local Open Scope string_scope.

(** *** The manifest *)

(** A coordinate of a location: a number, or ([None]) some other JSON
    value. *)
Definition coordinate : Type := option float.

(** The dictionary under [location]; a key that is absent is [None]. *)
Record location := mk_location {
  latitude : option coordinate;
  longitude : option coordinate;
}.

(** One record of [posts.json]; a key that is absent is [None]. *)
Record entry := mk_entry {
  e_primary : option string;
  e_secondary : option string;
  e_takenAt : option string;
  e_location : option location;
  e_caption : option string;
  e_btsMedia : option string;
}.

(** The three answers of the settings dialogue. *)
Record config := mk_config {
  convert_to_jpeg : bool;
  keep_original_filename : bool;
  create_combined_images : bool;
}.

Inductive role := primary | secondary.

Definition role_str (r : role) : string :=
  match r with
  | primary => "primary"
  | secondary => "secondary"
  end.

(** *** Files *)

(** What a picture shows: a source picture, its conversion to RGB, or
    the composition of a secondary picture over a primary one. *)
Inductive image :=
| Pixels (id : string)
| RGB (i : image)
| Combined (prim sec : image).

Inductive format := WEBP | JPEG.

Inductive content :=
| Picture (fmt : format) (i : image)
| Video (essence : string)
| Corrupt.

Record exif_dict := mk_exif {
  ImageDescription : option string;
  DateTimeOriginal : option string;
  GPS : option gps_ifd;
}.

Record iptc_info := mk_iptc {
  caption_abstract : option string;
  iptc_source : option string;
  originating_program : option string;
}.

Record file := mk_file {
  f_content : content;
  f_exif : exif_dict;
  f_iptc : iptc_info;
  f_tags : list (string * string);
}.

Definition no_exif : exif_dict := mk_exif None None None.
Definition no_iptc : iptc_info := mk_iptc None None None.

(** *** The log *)

Inductive level := INFO | ERROR.

Inductive message :=
| Converted (p : Path)
| ErrorConverting (p : Path)
| FoundDatetime (utc german : string)
| AddedCaptureDate
| FoundLocation
| AddedGPS (g : gps_ifd)
| FoundCaption (c : string)
| UpdatedTitle
| UpdatedExif (p : Path)
| FailedExif (p : option Path)
| CaptionAdded
| UpdatedIptc (p : string)
| FailedIptc (p : string)
| FailedMp4 (p : Path)
| UpdatedMp4 (p : Path)
| FfmpegNotFound
| UnexpectedMp4 (p : Path)
| FoundImage (p : Path)
| ExifAdded (r : role)
| Processed (r : role)
| ProcessedBts (p : Path)
| CopiedBtsWithoutMetadata (p : Path)
| ErrorProcessingEntry (e : entry)
| CombinedSaved (p : Path)
| MetadataAddedCombined
| MetadataAddedConverted
| FailedConvertCombined (p : Path)
| JsonNotFound.

(** *** What the script does not decide *)

(** The outcome of one run of the transcoder: its exit status and the
    file it left at the output path, if any. *)
Record completed := mk_completed {
  returncode : Z;
  written : option file;
}.

Record environment := mk_environment {
  ZoneInfo : option zoneinfo;
  (** [datetime.strptime] with the format of [takenAt], on a string that
      has characters outside ASCII *)
  strptime_unicode : string -> result datetime;
  (** the JPEG encoder can write to this path *)
  can_save : Path -> bool;
  (** piexif can read the file at this path *)
  can_exif : Path -> bool;
  (** piexif can write the file at this path *)
  can_insert : Path -> bool;
  (** iptcinfo3 can read and rewrite the file at this path *)
  can_iptc : string -> bool;
  (** the transcoder, when it is installed: the command line and the
      input file give the outcome *)
  ffmpeg : option (list string -> file -> completed);
}.

(** *** The state of a run *)

Record artifact := mk_artifact {
  a_path : Path;
  a_taken_at : datetime;
  a_location : option location;
  a_caption : option string;
}.

Record state := mk_state {
  fs : gmap string file;
  processed_files_count : nat;
  converted_files_count : nat;
  combined_files_count : nat;
  skipped_files_count : nat;
  primary_images : list artifact;
  secondary_images : list Path;
  log : list (level * message);
}.

Definition initial (files : gmap string file) : state :=
  mk_state files 0 0 0 0 [] [] [].

(** A statement: it may raise, and the state it leaves is kept either
    way. *)
Definition M (A : Type) : Type := state -> result A * state.

Global Instance M_ret : MRet M := fun A a st => (Ok a, st).
Global Instance M_bind : MBind M := fun A B k m st =>
  match m st with
  | (Ok a, st') => k a st'
  | (Raise e, st') => (Raise e, st')
  end.

Definition raise {A} (e : exn) : M A := fun st => (Raise e, st).

Definition lift {A} (r : result A) : M A := fun st => (r, st).

(** [try: body except Exception: handler] *)
Definition try_except {A} (body : M A) (handler : exn -> M A) : M A := fun st =>
  match body st with
  | (Ok a, st') => (Ok a, st')
  | (Raise e, st') => handler e st'
  end.

Definition get : M state := fun st => (Ok st, st).

Definition set_fs (f : gmap string file -> gmap string file) : M unit := fun st =>
  (Ok tt, mk_state (f (fs st)) (processed_files_count st)
            (converted_files_count st) (combined_files_count st)
            (skipped_files_count st) (primary_images st) (secondary_images st)
            (log st)).

Definition logging (l : level) (m : message) : M unit := fun st =>
  (Ok tt, mk_state (fs st) (processed_files_count st)
            (converted_files_count st) (combined_files_count st)
            (skipped_files_count st) (primary_images st) (secondary_images st)
            (log st ++ [(l, m)])).

Definition incr_processed : M unit := fun st =>
  (Ok tt, mk_state (fs st) (S (processed_files_count st))
            (converted_files_count st) (combined_files_count st)
            (skipped_files_count st) (primary_images st) (secondary_images st)
            (log st)).

Definition incr_converted : M unit := fun st =>
  (Ok tt, mk_state (fs st) (processed_files_count st)
            (S (converted_files_count st)) (combined_files_count st)
            (skipped_files_count st) (primary_images st) (secondary_images st)
            (log st)).

Definition incr_combined : M unit := fun st =>
  (Ok tt, mk_state (fs st) (processed_files_count st)
            (converted_files_count st) (S (combined_files_count st))
            (skipped_files_count st) (primary_images st) (secondary_images st)
            (log st)).

Definition incr_skipped : M unit := fun st =>
  (Ok tt, mk_state (fs st) (processed_files_count st)
            (converted_files_count st) (combined_files_count st)
            (S (skipped_files_count st)) (primary_images st) (secondary_images st)
            (log st)).

Definition append_primary (a : artifact) : M unit := fun st =>
  (Ok tt, mk_state (fs st) (processed_files_count st)
            (converted_files_count st) (combined_files_count st)
            (skipped_files_count st) (primary_images st ++ [a])
            (secondary_images st) (log st)).

Definition append_secondary (p : Path) : M unit := fun st =>
  (Ok tt, mk_state (fs st) (processed_files_count st)
            (converted_files_count st) (combined_files_count st)
            (skipped_files_count st) (primary_images st)
            (secondary_images st ++ [p]) (log st)).

(** *** The file system *)

Definition exists_ (files : gmap string file) (p : Path) : bool :=
  bool_decide (is_Some (files !! str p)).

(** Opening a file for reading. *)
Definition read_file (p : Path) : M file := fun st =>
  match fs st !! str p with
  | Some f => (Ok f, st)
  | None => (Raise FileNotFoundError, st)
  end.

Definition write_file (p : Path) (f : file) : M unit :=
  set_fs (fun files => <[str p := f]> files).

(** [shutil.copy2(src, dst)] *)
Definition copy2 (src dst : Path) : M unit :=
  f ← read_file src; write_file dst f.

(** [src.rename(dst)] and [src.replace(dst)] *)
Definition rename (src dst : Path) : M unit :=
  f ← read_file src;
  set_fs (fun files => <[str dst := f]> (delete (str src) files)).

(** *** Parsing [takenAt] *)

Definition is_digit (a : ascii) : bool :=
  let n := nat_of_ascii a in (48 <=? n)%nat && (n <=? 57)%nat.

Definition digit_val (a : ascii) : Z := Z.of_nat (nat_of_ascii a - 48).

(** A field of the format: the alternatives of its regular expression,
    tried in order. Each yields the value and the rest of the input. *)
Definition parser : Type := string -> option (Z * string).

Definition two_digits (ok : Z -> Z -> bool) : parser := fun s =>
  match s with
  | String a (String b rest) =>
      if is_digit a && is_digit b && ok (digit_val a) (digit_val b)
      then Some (digit_val a * 10 + digit_val b, rest)%Z else None
  | _ => None
  end.

Definition one_digit (ok : Z -> bool) : parser := fun s =>
  match s with
  | String a rest =>
      if is_digit a && ok (digit_val a) then Some (digit_val a, rest) else None
  | _ => None
  end.

Definition orelse (p q : parser) : parser := fun s =>
  match p s with
  | Some r => Some r
  | None => q s
  end.

(** [%Y]: four digits. *)
Definition parse_Y : parser := fun s =>
  match s with
  | String a (String b (String c (String d rest))) =>
      if is_digit a && is_digit b && is_digit c && is_digit d
      then Some (digit_val a * 1000 + digit_val b * 100
                 + digit_val c * 10 + digit_val d, rest)%Z
      else None
  | _ => None
  end.

(** [%m]: [1[0-2]|0[1-9]|[1-9]] *)
Definition parse_m : parser :=
  orelse (two_digits (fun a b => (a =? 1)%Z && (b <=? 2)%Z))
  (orelse (two_digits (fun a b => (a =? 0)%Z && (1 <=? b)%Z))
          (one_digit (fun a => (1 <=? a)%Z))).

(** [%d]: [3[0-1]|[1-2]\d|0[1-9]|[1-9]| [1-9]] *)
Definition parse_d : parser :=
  orelse (two_digits (fun a b => (a =? 3)%Z && (b <=? 1)%Z))
  (orelse (two_digits (fun a b => (1 <=? a)%Z && (a <=? 2)%Z))
  (orelse (two_digits (fun a b => (a =? 0)%Z && (1 <=? b)%Z))
  (orelse (one_digit (fun a => (1 <=? a)%Z))
          (fun s => match s with
                    | String " " rest => one_digit (fun a => (1 <=? a)%Z) rest
                    | _ => None
                    end)))).

(** [%H]: [2[0-3]|[0-1]\d|\d] *)
Definition parse_H : parser :=
  orelse (two_digits (fun a b => (a =? 2)%Z && (b <=? 3)%Z))
  (orelse (two_digits (fun a b => (a <=? 1)%Z))
          (one_digit (fun _ => true))).

(** [%M]: [[0-5]\d|\d] *)
Definition parse_M : parser :=
  orelse (two_digits (fun a b => (a <=? 5)%Z)) (one_digit (fun _ => true)).

(** [%S]: [6[0-1]|[0-5]\d|\d] *)
Definition parse_S : parser :=
  orelse (two_digits (fun a b => (a =? 6)%Z && (b <=? 1)%Z))
  (orelse (two_digits (fun a b => (a <=? 5)%Z)) (one_digit (fun _ => true))).

(** [%f]: one to six digits, padded with zeros on the right. *)
Fixpoint parse_f_digits (width : nat) (acc : Z) (s : string) : Z * string :=
  match width with
  | O => (acc, s)
  | S width =>
      match s with
      | String a rest =>
          if is_digit a then parse_f_digits width (acc * 10 + digit_val a)%Z rest
          else (acc * 10 ^ Z.of_nat (S width), s)%Z
      | EmptyString => (acc * 10 ^ Z.of_nat (S width), s)%Z
      end
  end.

Definition parse_f : parser := fun s =>
  match s with
  | String a rest =>
      if is_digit a then Some (parse_f_digits 5 (digit_val a) rest) else None
  | _ => None
  end.

(** A literal character of the format; letters match in either case. *)
Definition literal (c : ascii) (s : string) : option string :=
  match s with
  | String a rest =>
      if Ascii.eqb (lower_ascii a) (lower_ascii c) then Some rest else None
  | _ => None
  end.

(** [datetime.strptime(s, "%Y-%m-%dT%H:%M:%S.%fZ")], for a string of
    ASCII characters. *)
Definition strptime (s : string) : result datetime :=
  let parsed :=
    '(yy, s) ← parse_Y s; s ← literal "-" s;
    '(mo, s) ← parse_m s; s ← literal "-" s;
    '(dd, s) ← parse_d s; s ← literal "T" s;
    '(hh, s) ← parse_H s; s ← literal ":" s;
    '(mi, s) ← parse_M s; s ← literal ":" s;
    '(ss, s) ← parse_S s; s ← literal "." s;
    '(ff, s) ← parse_f s; s ← literal "Z" s;
    if String.eqb s "" then Some (yy, mo, dd, hh, mi, ss, ff) else None in
  match parsed with
  | Some (yy, mo, dd, hh, mi, ss, ff) =>
      if (MINYEAR <=? yy)%Z && (dd <=? _days_in_month yy mo)%Z && (ss <=? 59)%Z
      then Ok (mkdatetime yy mo dd hh mi ss ff None)
      else Raise ValueError
  | None => Raise ValueError
  end.

Definition ascii_only (s : string) : bool :=
  forallb (fun a => (nat_of_ascii a <? 128)%nat) (list_ascii_of_string s).

(** [datetime.strptime] on the strings of the export. A string is the
    sequence of the bytes of its UTF-8 encoding, and the reading above
    takes a byte for a character. The regular expressions of [strptime]
    work on characters, and [\d] also matches the decimal digits outside
    ASCII: what [strptime] makes of a string that has such a character
    and is not read as ASCII is left to the environment. *)
Definition datetime_strptime (env : environment) (s : string) : result datetime :=
  match strptime s with
  | Ok d => Ok d
  | Raise x => if ascii_only s then Raise x else strptime_unicode env s
  end.

(** *** The folders *)

Definition data_folder : string := "resources/data".
Definition photo_folder : string := data_folder +:+ "/Photos/post".
Definition bereal_folder : string := data_folder +:+ "/Photos/bereal".
Definition output_folder : string := "out/__processed".
Definition output_folder_combined : string := "out/__combined".

Definition source_app : string := "BeReal app".
Definition processing_tool : string := "github/bereal-gdpr-photo-toolkit".

(** *** The functions of the script *)

(** [Image.open(path)], as far as the pixels. *)
Definition Image_open (p : Path) : M image :=
  f ← read_file p;
  match f_content f with
  | Picture _ i => mret i
  | _ => raise OSError
  end.

(** [image.save(path, "JPEG")]: a new file, without metadata. *)
Definition Image_save_jpeg (env : environment) (i : image) (p : Path) : M unit :=
  if can_save env p then write_file p (mk_file (Picture JPEG i) no_exif no_iptc [])
  else raise OSError.

Definition convert_webp_to_jpg (env : environment) (image_path : Path)
  : M (option Path * bool) :=
  if String.eqb (lower (suffix image_path)) ".webp" then
    jpg_path ← lift (with_suffix image_path ".jpg");
    try_except
      (img ← Image_open image_path;
       Image_save_jpeg env (RGB img) jpg_path;;
       logging INFO (Converted image_path);;
       mret (Some jpg_path, true))
      (fun _ =>
         logging ERROR (ErrorConverting image_path);;
         mret (None, false))
  else mret (Some image_path, false).

(** [if x:] for an optional string. *)
Definition truthy (s : option string) : bool :=
  match s with
  | Some (String _ _) => true
  | _ => false
  end.

Definition number (c : coordinate) : result float :=
  match c with
  | Some x => Ok x
  | None => Raise TypeError
  end.

(** [location and 'latitude' in location and 'longitude' in location] *)
Definition located (l : option location) : option (coordinate * coordinate) :=
  match l with
  | Some (mk_location (Some la) (Some lo)) => Some (la, lo)
  | _ => None
  end.

Definition set_DateTimeOriginal (d : exif_dict) (v : string) : exif_dict :=
  mk_exif (ImageDescription d) (Some v) (GPS d).

Definition set_GPS (d : exif_dict) (g : gps_ifd) : exif_dict :=
  mk_exif (ImageDescription d) (DateTimeOriginal d) (Some g).

Definition set_ImageDescription (d : exif_dict) (v : string) : exif_dict :=
  mk_exif (Some v) (DateTimeOriginal d) (GPS d).

Definition set_exif (f : file) (d : exif_dict) : file :=
  mk_file (f_content f) d (f_iptc f) (f_tags f).

Definition set_iptc (f : file) (i : iptc_info) : file :=
  mk_file (f_content f) (f_exif f) i (f_tags f).

(** [piexif.dump] packs each number of a rational as an unsigned 32-bit
    integer, and raises on one that does not fit. *)
Definition packable (r : rational) : bool :=
  (0 <=? fst r)%Z && (fst r <? 2 ^ 32)%Z && (0 <=? snd r)%Z && (snd r <? 2 ^ 32)%Z.

Definition dms_packable (t : dms) : bool :=
  let '(d, m, s) := t in packable d && packable m && packable s.

Definition dump (d : exif_dict) : result unit :=
  match GPS d with
  | Some g =>
      if dms_packable (GPSLatitude g) && dms_packable (GPSLongitude g)
      then Ok tt else Raise StructError
  | None => Ok tt
  end.

(** The GPS block of [update_exif]. *)
Definition gps_of (la lo : coordinate) : result gps_ifd :=
  la ← number la;
  lo ← number lo;
  gps_block la lo.

Definition update_exif (env : environment) (image_path : option Path)
    (datetime_original : datetime) (location : option location)
    (caption : option string) : M unit :=
  try_except
    (p ← lift (match image_path with
               | Some p => Ok p
               | None => Raise AttributeError
               end);
     f ← read_file p;
     (if can_exif env p then mret tt else raise ValueError);;
     let exif_dict := f_exif f in
     let datetime_utc :=
       match tzinfo datetime_original with
       | Some _ => datetime_original
       | None => replace_tzinfo datetime_original (Some UTC)
       end in
     datetime_german ← lift (_utc_to_german_time (ZoneInfo env) datetime_utc);
     let datetime_str := strftime_exif datetime_german in
     let exif_dict := set_DateTimeOriginal exif_dict datetime_str in
     logging INFO (FoundDatetime (strftime_exif datetime_utc) datetime_str);;
     logging INFO AddedCaptureDate;;
     exif_dict ←
       match located location with
       | Some (la, lo) =>
           logging INFO FoundLocation;;
           gps_ifd ← lift (gps_of la lo);
           logging INFO (AddedGPS gps_ifd);;
           mret (set_GPS exif_dict gps_ifd)
       | None => mret exif_dict
       end;
     exif_dict ←
       match caption with
       | Some c =>
           if truthy caption then
             logging INFO (FoundCaption c);;
             logging INFO UpdatedTitle;;
             mret (set_ImageDescription exif_dict c)
           else mret exif_dict
       | None => mret exif_dict
       end;
     lift (dump exif_dict);;
     (if can_insert env p then mret tt else raise OSError);;
     write_file p (set_exif f exif_dict);;
     logging INFO (UpdatedExif p))
    (fun _ => logging ERROR (FailedExif image_path)).

(** Reading and writing a file by the string that names it. *)
Definition read_str (path : string) : M file := fun st =>
  match fs st !! path with
  | Some f => (Ok f, st)
  | None => (Raise FileNotFoundError, st)
  end.

Definition file_is_jpeg (f : file) : bool :=
  match f_content f with
  | Picture JPEG _ => true
  | _ => false
  end.

(** [info.save_as(path)] of iptcinfo3: the file that was there is kept
    beside the new one, under the name [path~]. When the file is not a
    JPEG, [save_as] returns without writing and without raising. *)
Definition iptc_save_as (path : string) (old new : file) : M unit :=
  if file_is_jpeg old then
    set_fs (fun files => <[path := new]> (<[path +:+ "~" := old]> files))
  else mret tt.

Definition update_iptc (env : environment) (image_path : string)
    (caption : option string) : M unit :=
  try_except
    (f ← read_str image_path;
     (if can_iptc env image_path then mret tt else raise ValueError);;
     let info := f_iptc f in
     info ←
       (if truthy caption then
          logging INFO CaptionAdded;;
          mret (mk_iptc caption (iptc_source info) (originating_program info))
        else mret info);
     let info := mk_iptc (caption_abstract info) (Some source_app)
                         (Some processing_tool) in
     iptc_save_as image_path f (set_iptc f info);;
     logging INFO (UpdatedIptc image_path))
    (fun _ => logging ERROR (FailedIptc image_path)).

(** *** Video metadata *)

Definition pad6 (n : Z) : string :=
  String (digit (n / 100000)) (String (digit (n / 10000)) (pad4 n)).

(** Round to the nearest integer, ties to even: [num / den] for a
    positive [den]. *)
Definition round_half_even (num den : Z) : Z :=
  let q := (num / den)%Z in
  let r := (num mod den)%Z in
  match (2 * r ?= den)%Z with
  | Lt => q
  | Gt => (q + 1)%Z
  | Eq => if Z.even q then q else (q + 1)%Z
  end.

(** [f"{x:.6f}"] for a float that is not negative. *)
Definition format_6f (x : float) : string :=
  match Prim2SF x with
  | S754_zero _ => "0.000000"
  | S754_finite _ m e =>
      let n := if (0 <=? e)%Z then (Z.shiftl (Zpos m) e * 1000000)%Z
               else round_half_even (Zpos m * 1000000) (2 ^ (- e)) in
      pretty (n / 1000000)%Z +:+ "." +:+ pad6 (n mod 1000000)
  | S754_infinity _ => "inf"
  | S754_nan => "nan"
  end.

Definition _format_iso6709_location (latitude longitude : float) : string :=
  let lat_sign := if PrimFloat.leb zero latitude then "+" else "-" in
  let lon_sign := if PrimFloat.leb zero longitude then "+" else "-" in
  lat_sign +:+ format_6f (PrimFloat.abs latitude)
  +:+ lon_sign +:+ format_6f (PrimFloat.abs longitude) +:+ "/".

(** The command line [update_mp4_metadata] builds. *)
Definition ffmpeg_cmd (input_path output_path : Path)
    (datetime_utc : datetime) (location : option location)
  : result (list string) :=
  let cmd := ["ffmpeg"; "-y"; "-i"; str input_path; "-c"; "copy";
              "-movflags"; "use_metadata_tags";
              "-metadata"; "creation_time=" +:+ strftime_iso datetime_utc +:+ "Z"] in
  cmd ←
    match located location with
    | Some (la, lo) =>
        la ← number la;
        lo ← number lo;
        Ok (cmd ++ ["-metadata";
                    "location=" +:+ _format_iso6709_location la lo])%list
    | None => Ok cmd
    end;
  Ok (cmd ++ [str output_path])%list.

(** [subprocess.run(cmd)] *)
Definition subprocess_run (env : environment) (cmd : list string)
    (input_path output_path : Path) : M Z :=
  match ffmpeg env with
  | None => raise FileNotFoundError
  | Some run =>
      st ← get;
      match fs st !! str input_path with
      | None => mret 1%Z
      | Some f =>
          let done := run cmd f in
          match written done with
          | Some out => write_file output_path out
          | None => mret tt
          end;;
          mret (returncode done)
      end
  end.

Definition update_mp4_metadata (env : environment) (input_path output_path : Path)
    (datetime_original : datetime) (location : option location) : M bool :=
  try_except
    (let datetime_utc := datetime_original in
     cmd ← lift (ffmpeg_cmd input_path output_path datetime_utc location);
     code ← subprocess_run env cmd input_path output_path;
     if negb (code =? 0)%Z then
       logging ERROR (FailedMp4 input_path);;
       mret false
     else
       logging INFO (UpdatedMp4 output_path);;
       mret true)
    (fun e =>
       match e with
       | FileNotFoundError => logging ERROR FfmpegNotFound;; mret false
       | _ => logging ERROR (UnexpectedMp4 input_path);; mret false
       end).

(** *** Deduplication *)

(** [while path.exists(): path = path.with_name(...); counter += 1] *)
Fixpoint unique_loop (files : gmap string file) (prefix suffix : string)
    (fuel : nat) (path : Path) (counter : nat) : result Path :=
  if exists_ files path then
    match fuel with
    | O => Raise LoopFuel
    | S fuel =>
        path ← with_name path (prefix +:+ "_" +:+ pretty counter +:+ suffix);
        unique_loop files prefix suffix fuel path (S counter)
    end
  else Ok path.

Definition get_unique_filename_fuel (fuel : nat) (files : gmap string file)
    (path : Path) : result Path :=
  if negb (exists_ files path) then Ok path
  else
    let prefix := stem path in
    let suffix := suffix path in
    unique_loop files prefix suffix fuel path 1.

(** One round more than there are files is enough: see
    [get_unique_filename_free]. *)
Definition get_unique_filename (path : Path) : M Path :=
  st ← get;
  lift (get_unique_filename_fuel (S (size (fs st))) (fs st) path).

(** *** The compositor *)

Definition combine_images_with_resizing (primary_path secondary_path : Path)
  : M image :=
  primary_image ← Image_open primary_path;
  secondary_image ← Image_open secondary_path;
  mret (Combined primary_image secondary_image).

(** *** Backup files *)

(** [directory] holds the entry that [path] names. *)
Definition entry_of (directory path : string) : option string :=
  let p := Path_of_string path in
  if String.eqb (parent p) directory && String.eqb (str p) path
  then Some (name p) else None.

Definition is_backup (directory path : string) : bool :=
  match entry_of directory path with
  | Some filename => ends_with "~" filename
  | None => false
  end.

Definition remove_backup_files (directory : string) : M unit :=
  set_fs (filter (fun kv => is_backup directory kv.1 = false)).

(** *** The loop over the manifest *)

Definition key {A} (v : option A) : result A :=
  match v with
  | Some a => Ok a
  | None => Raise KeyError
  end.

(** The file name the loop derives: [conversion] is
    [Some (converted_path, converted)] when conversion is enabled. *)
Definition new_name (cfg : config) (taken_at : datetime) (path : Path) (r : role)
    (conversion : option (Path * bool)) : string :=
  let time_str := strftime_name taken_at in
  let original_filename_without_extension := stem path in
  match conversion with
  | Some (converted_path, _) =>
      if keep_original_filename cfg
      then time_str +:+ "_" +:+ role_str r +:+ "_" +:+ name converted_path
      else time_str +:+ "_" +:+ role_str r +:+ ".jpg"
  | None =>
      if keep_original_filename cfg
      then time_str +:+ "_" +:+ role_str r +:+ "_"
           +:+ original_filename_without_extension +:+ ".webp"
      else time_str +:+ "_" +:+ role_str r +:+ ".webp"
  end.

(** The loop body from the derivation of the file name on. *)
Definition finish_file (env : environment) (cfg : config)
    (taken_at : datetime) (location : option location) (caption : option string)
    (path : Path) (r : role) (conversion : option (Path * bool)) : M unit :=
  let new_filename := new_name cfg taken_at path r conversion in
  let new_path := joinpath output_folder new_filename in
  new_path ← get_unique_filename new_path;
  match conversion with
  | Some (converted_path, true) => rename converted_path new_path
  | _ => copy2 path new_path
  end;;
  update_exif env (Some new_path) taken_at location caption;;
  logging INFO (ExifAdded r);;
  let image_path_str := str new_path in
  update_iptc env image_path_str caption;;
  match r with
  | primary => append_primary (mk_artifact new_path taken_at location caption)
  | secondary => append_secondary new_path
  end;;
  logging INFO (Processed r);;
  incr_processed.

(** One round of [for path, role in ...]. *)
Definition process_file (env : environment) (cfg : config)
    (taken_at : datetime) (location : option location) (caption : option string)
    (path : Path) (r : role) : M unit :=
  logging INFO (FoundImage path);;
  if convert_to_jpeg cfg then
    '(converted_path, converted) ← convert_webp_to_jpg env path;
    match converted_path with
    | None => incr_skipped
    | Some converted_path =>
        (if converted : bool then incr_converted else mret tt);;
        finish_file env cfg taken_at location caption path r
                    (Some (converted_path, converted))
    end
  else finish_file env cfg taken_at location caption path r None.

Definition process_bts (env : environment) (cfg : config)
    (taken_at : datetime) (location : option location) (bts_media : option string)
  : M unit :=
  match bts_media with
  | Some bts_media_path =>
      if truthy bts_media then
        let bts_filename := name (Path_of_string bts_media_path) in
        let bts_path := joinpath data_folder bts_filename in
        st ← get;
        if exists_ (fs st) bts_path
           && String.eqb (lower (suffix bts_path)) ".mp4" then
          let time_str := strftime_name taken_at in
          let original_bts_stem := stem bts_path in
          let bts_new_filename :=
            if keep_original_filename cfg
            then time_str +:+ "_bts_" +:+ original_bts_stem +:+ ".mp4"
            else time_str +:+ "_bts.mp4" in
          let bts_new_path := joinpath output_folder bts_new_filename in
          bts_new_path ← get_unique_filename bts_new_path;
          temp_output ← lift (with_suffix bts_new_path ".tmp.mp4");
          success ← update_mp4_metadata env bts_path temp_output taken_at location;
          if success : bool then
            rename temp_output bts_new_path;;
            logging INFO (ProcessedBts bts_new_path);;
            incr_processed
          else
            copy2 bts_path bts_new_path;;
            logging ERROR (CopiedBtsWithoutMetadata bts_new_path);;
            incr_processed
        else mret tt
      else mret tt
  | None => mret tt
  end.

(** The body of the [try] of one record. *)
Definition entry_body (env : environment) (cfg : config) (e : entry) : M unit :=
  primary_entry ← lift (key (e_primary e));
  secondary_entry ← lift (key (e_secondary e));
  let primary_filename := name (Path_of_string primary_entry) in
  let secondary_filename := name (Path_of_string secondary_entry) in
  let primary_path := joinpath photo_folder primary_filename in
  let secondary_path := joinpath photo_folder secondary_filename in
  st ← get;
  let '(primary_path, secondary_path) :=
    if negb (exists_ (fs st) primary_path)
    then (joinpath bereal_folder primary_filename,
          joinpath bereal_folder secondary_filename)
    else (primary_path, secondary_path) in
  taken_at_str ← lift (key (e_takenAt e));
  taken_at_naive ← lift (datetime_strptime env taken_at_str);
  let taken_at := replace_tzinfo taken_at_naive (Some UTC) in
  let location := e_location e in
  let caption := e_caption e in
  process_file env cfg taken_at location caption primary_path primary;;
  process_file env cfg taken_at location caption secondary_path secondary;;
  process_bts env cfg taken_at location (e_btsMedia e).

Definition process_entry (env : environment) (cfg : config) (e : entry) : M unit :=
  try_except (entry_body env cfg e)
             (fun _ => logging ERROR (ErrorProcessingEntry e)).

Fixpoint for_each {A} (body : A -> M unit) (l : list A) : M unit :=
  match l with
  | [] => mret tt
  | x :: l => body x;; for_each body l
  end.

(** *** The combine pass *)

Definition combine_pair (env : environment) (cfg : config)
    (primary_path : artifact) (secondary_path : Path) : M unit :=
  let primary_new_path := a_path primary_path in
  let primary_taken_at := a_taken_at primary_path in
  let primary_location := a_location primary_path in
  let primary_caption := a_caption primary_path in
  let timestamp := split_head "_" (stem primary_new_path) in
  let combined_filename := timestamp +:+ "_combined.webp" in
  combined_image ← combine_images_with_resizing primary_new_path secondary_path;
  let combined_image_path := joinpath output_folder_combined combined_filename in
  Image_save_jpeg env combined_image combined_image_path;;
  incr_combined;;
  logging INFO (CombinedSaved combined_image_path);;
  update_exif env (Some combined_image_path)
              primary_taken_at primary_location primary_caption;;
  logging INFO MetadataAddedCombined;;
  let image_path_str := str combined_image_path in
  update_iptc env image_path_str primary_caption;;
  if convert_to_jpeg cfg then
    '(converted_path, converted) ← convert_webp_to_jpg env combined_image_path;
    update_exif env converted_path
                primary_taken_at primary_location primary_caption;;
    logging INFO MetadataAddedConverted;;
    let image_path_str :=
      match converted_path with
      | Some p => str p
      | None => "None"
      end in
    update_iptc env image_path_str primary_caption;;
    match converted_path with
    | None => logging ERROR (FailedConvertCombined combined_image_path)
    | Some _ => mret tt
    end
  else mret tt.

Definition combine_pass (env : environment) (cfg : config) : M unit :=
  if create_combined_images cfg then
    st ← get;
    for_each (fun pair => combine_pair env cfg pair.1 pair.2)
             (zip (primary_images st) (secondary_images st))
  else mret tt.

(** The script from the loading of the manifest on; [posts] is [None]
    when [posts.json] is missing. *)
Definition main (env : environment) (cfg : config) (posts : option (list entry))
  : M unit :=
  match posts with
  | None => logging ERROR JsonNotFound
  | Some data =>
      for_each (process_entry env cfg) data;;
      combine_pass env cfg;;
      remove_backup_files output_folder;;
      (if create_combined_images cfg
       then remove_backup_files output_folder_combined else mret tt)
  end.

End Toolkit.

(** ** Properties of the script *)

Import Calendar PyDatetime Timezone Geo Pathlib Toolkit.
Local Open Scope string_scope.

(** *** Strings *)

Lemma length_app_str (s t : string) :
  String.length (s +:+ t) = (String.length s + String.length t)%nat.
Proof. induction s as [|a s IH]; simpl; [done|]. by rewrite IH. Qed.

Lemma app_inv_tail_str (s1 s2 t : string) : s1 +:+ t = s2 +:+ t -> s1 = s2.
Proof.
  revert s2. induction s1 as [|a s1 IH]; intros [|b s2] E.
  - done.
  - apply (f_equal String.length) in E.
    rewrite !length_app_str in E. simpl in E. lia.
  - apply (f_equal String.length) in E.
    rewrite !length_app_str in E. simpl in E. lia.
  - injection E as -> E. f_equal. by apply IH.
Qed.

Lemma app_assoc_str (s t u : string) : (s +:+ t) +:+ u = s +:+ (t +:+ u).
Proof.
  induction s as [|a s IH]; [done|].
  change (String a ((s +:+ t) +:+ u) = String a (s +:+ (t +:+ u))).
  by rewrite IH.
Qed.

(** *** The candidates of the deduplicator *)

(** The [k]-th name the loop tries for [path]. *)
Definition candidate (path : Path) (k : nat) : Path :=
  mkPath (parent path) (stem path +:+ "_" +:+ pretty k +:+ suffix path).

Lemma str_inj_name (d n1 n2 : string) :
  str (mkPath d n1) = str (mkPath d n2) -> n1 = n2.
Proof.
  unfold str; simpl. destruct (String.eqb d ""); [done|].
  intros E. apply (inj _) in E. by apply (inj _) in E.
Qed.

Lemma candidate_inj (path : Path) (j k : nat) :
  str (candidate path j) = str (candidate path k) -> j = k.
Proof.
  intros E. apply str_inj_name in E.
  apply (inj _) in E. apply (inj _) in E.
  apply app_inv_tail_str in E. by apply (inj pretty) in E.
Qed.

Lemma exists_spec (files : gmap string file) (p : Path) :
  exists_ files p = true <-> str p ∈ dom files.
Proof.
  unfold exists_. rewrite bool_decide_eq_true. by rewrite elem_of_dom.
Qed.

(** More candidates than files: one of them is free. *)
Lemma candidates_not_all_taken (files : gmap string file) (path : Path) (c : nat) :
  ~ (forall k, (c <= k < c + S (size files))%nat ->
               exists_ files (candidate path k) = true).
Proof.
  intros Hall.
  set (l := (fun k => str (candidate path k)) <$> seq c (S (size files))).
  assert (Hnd : NoDup l).
  { apply NoDup_fmap_2_strong; [|apply NoDup_seq].
    intros j k _ _ E. by apply candidate_inj in E. }
  assert (Hsub : list_to_set l ⊆ dom files).
  { intros x Hx. apply elem_of_list_to_set in Hx.
    apply list_elem_of_fmap in Hx as (k & -> & Hk).
    apply elem_of_seq in Hk. apply exists_spec, Hall. lia. }
  apply subseteq_size in Hsub.
  rewrite size_list_to_set in Hsub by done.
  rewrite size_dom in Hsub.
  unfold l in Hsub. rewrite length_fmap, length_seq in Hsub. lia.
Qed.

Lemma with_name_candidate (path p : Path) (k : nat) :
  name p <> "" -> parent p = parent path ->
  with_name p (stem path +:+ "_" +:+ pretty k +:+ suffix path)
  = Ok (candidate path k).
Proof.
  intros Hn Hp. unfold with_name.
  destruct (String.eqb_spec (name p) ""); [done|].
  unfold candidate. by rewrite Hp.
Qed.

Lemma candidate_name (path : Path) (k : nat) : name (candidate path k) <> "".
Proof.
  unfold candidate; simpl. intros E.
  apply (f_equal String.length) in E.
  rewrite !length_app_str in E. simpl in E. lia.
Qed.

(** The loop returns the first free path among the one it is given and
    the candidates from [c] on, or runs out of fuel with all of them
    taken. *)
Lemma unique_loop_spec (files : gmap string file) (path : Path)
    (fuel c : nat) (p : Path) :
  name p <> "" -> parent p = parent path ->
  (exists_ files p = false
   /\ unique_loop files (stem path) (suffix path) fuel p c = Ok p)
  \/ (exists_ files p = true
      /\ exists k, (c <= k < c + fuel)%nat
         /\ unique_loop files (stem path) (suffix path) fuel p c
            = Ok (candidate path k)
         /\ exists_ files (candidate path k) = false
         /\ forall j, (c <= j < k)%nat -> exists_ files (candidate path j) = true)
  \/ (exists_ files p = true
      /\ unique_loop files (stem path) (suffix path) fuel p c = Raise LoopFuel
      /\ forall j, (c <= j < c + fuel)%nat ->
                   exists_ files (candidate path j) = true).
Proof.
  revert c p. induction fuel as [|fuel IH]; intros c p Hn Hp; simpl.
  - destruct (exists_ files p) eqn:E.
    + right. right. split; [done|]. split; [done|]. intros j Hj. lia.
    + left. done.
  - destruct (exists_ files p) eqn:E; [|by left].
    right. rewrite (with_name_candidate path p c Hn Hp).
    cbn [mbind result_bind].
    destruct (IH (S c) (candidate path c) (candidate_name path c) eq_refl)
      as [[F R] | [(T & k & Hk & R & F & A) | (T & R & A)]].
    + left. split; [done|]. exists c.
      split; [lia|]. split; [done|]. split; [done|]. intros j Hj. lia.
    + left. split; [done|]. exists k.
      split; [lia|]. split; [done|]. split; [done|].
      intros j Hj. destruct (decide (j = c)) as [->|]; [done|]. apply A. lia.
    + right. split; [done|]. split; [done|]. intros j Hj.
      destruct (decide (j = c)) as [->|]; [done|]. apply A. lia.
Qed.

(** [p] is the path the deduplicator owes for [path]: [path] itself when
    it is free, else the first free candidate. *)
Definition first_free (files : gmap string file) (path p : Path) : Prop :=
  (exists_ files path = false /\ p = path)
  \/ (exists_ files path = true
      /\ exists k, (1 <= k)%nat /\ p = candidate path k
         /\ exists_ files p = false
         /\ forall j, (1 <= j < k)%nat -> exists_ files (candidate path j) = true).

Lemma get_unique_filename_first_free (files : gmap string file) (path : Path) :
  name path <> "" ->
  exists p, get_unique_filename_fuel (S (size files)) files path = Ok p
            /\ first_free files path p.
Proof.
  intros Hn. unfold get_unique_filename_fuel, first_free.
  destruct (unique_loop_spec files path (S (size files)) 1 path Hn eq_refl)
    as [[F R] | [(T & k & Hk & R & F & A) | (T & R & A)]].
  - rewrite F. simpl. exists path. split; [done|]. by left.
  - rewrite T. simpl. exists (candidate path k). split; [done|].
    right. split; [done|]. exists k. split; [lia|]. done.
  - exfalso. by apply (candidates_not_all_taken files path 1).
Qed.

Lemma first_free_unique (files : gmap string file) (path p p' : Path) :
  first_free files path p -> first_free files path p' -> p = p'.
Proof.
  intros [[F ->] | (T & k & Hk & -> & F & A)] [[F' ->] | (T' & k' & Hk' & -> & F' & A')];
    try congruence.
  destruct (Nat.lt_trichotomy k k') as [L | [-> | L]]; [|done|].
  - rewrite A' in F by lia. done.
  - rewrite A in F' by lia. done.
Qed.

Lemma first_free_agree (files files' : gmap string file) (path p : Path) :
  (forall q, parent q = parent path -> exists_ files' q = exists_ files q) ->
  first_free files path p -> first_free files' path p.
Proof.
  intros Hag [[F ->] | (T & k & Hk & -> & F & A)].
  - left. by rewrite Hag.
  - right. rewrite !Hag by done. split; [done|]. exists k.
    split; [done|]. split; [done|]. split; [done|].
    intros j Hj. rewrite Hag by done. by apply A.
Qed.

(** C7. For a candidate that names a file, the deduplicator returns a path
    that does not exist: the candidate itself when it is free, else
    stem_k with the same extension for the least k >= 1 that is free. The
    result differs from every path that exists (so from everything
    materialised before), it only depends on which names of the output
    directory are taken, and in an empty directory it is the candidate. *)
Theorem get_unique_filename_free (files : gmap string file) (path : Path) :
  name path <> "" ->
  exists p,
    get_unique_filename_fuel (S (size files)) files path = Ok p
    /\ exists_ files p = false
    /\ (exists_ files path = false -> p = path)
    /\ (exists_ files path = true ->
        exists k, (1 <= k)%nat /\ p = candidate path k
          /\ forall j, (1 <= j < k)%nat ->
                       exists_ files (candidate path j) = true)
    /\ (forall q, exists_ files q = true -> str p <> str q)
    /\ (forall files' : gmap string file,
          (forall q, parent q = parent path ->
                     exists_ files' q = exists_ files q) ->
          get_unique_filename_fuel (S (size files')) files' path = Ok p)
    /\ (forall files' : gmap string file,
          (forall q, parent q = parent path -> exists_ files' q = false) ->
          get_unique_filename_fuel (S (size files')) files' path = Ok path).
Proof.
  intros Hn.
  destruct (get_unique_filename_first_free files path Hn) as (p & R & FF).
  exists p. split; [done|].
  assert (F : exists_ files p = false).
  { destruct FF as [[F ->] | (T & k & Hk & -> & F & A)]; done. }
  split; [done|]. split; [|split; [|split; [|split]]].
  - intros E. destruct FF as [[_ ->] | (T & _)]; [done|congruence].
  - intros E. destruct FF as [[E' _] | (T & k & Hk & -> & F' & A)]; [congruence|].
    exists k. done.
  - intros q Hq E. unfold exists_ in *. rewrite E in F. congruence.
  - intros files' Hag.
    destruct (get_unique_filename_first_free files' path Hn) as (p' & R' & FF').
    rewrite R'. f_equal. apply (first_free_unique files' path); [done|].
    by apply (first_free_agree files).
  - intros files' Hempty.
    destruct (get_unique_filename_first_free files' path Hn) as (p' & R' & FF').
    rewrite R'. f_equal.
    destruct FF' as [[_ ->] | (T & _)]; [done|].
    rewrite Hempty in T by done. done.
Qed.

(** A directory where a name and its first variant are taken. *)
Definition taken_twice : gmap string file :=
  <["out/__processed/a.jpg" := mk_file Corrupt no_exif no_iptc []]>
  (<["out/__processed/a_1.jpg" := mk_file Corrupt no_exif no_iptc []]> ∅).

(** Witness of [get_unique_filename_free]. *)
Lemma get_unique_filename_free_witness :
  name (mkPath "out/__processed" "a.jpg") <> ""
  /\ exists p,
    get_unique_filename_fuel (S (size taken_twice)) taken_twice
      (mkPath "out/__processed" "a.jpg") = Ok p
    /\ exists_ taken_twice p = false
    /\ (exists_ taken_twice (mkPath "out/__processed" "a.jpg") = false ->
        p = mkPath "out/__processed" "a.jpg")
    /\ (exists_ taken_twice (mkPath "out/__processed" "a.jpg") = true ->
        exists k, (1 <= k)%nat
          /\ p = candidate (mkPath "out/__processed" "a.jpg") k
          /\ forall j, (1 <= j < k)%nat ->
               exists_ taken_twice
                 (candidate (mkPath "out/__processed" "a.jpg") j) = true)
    /\ (forall q, exists_ taken_twice q = true -> str p <> str q)
    /\ (forall files' : gmap string file,
          (forall q, parent q = parent (mkPath "out/__processed" "a.jpg") ->
                     exists_ files' q = exists_ taken_twice q) ->
          get_unique_filename_fuel (S (size files')) files'
            (mkPath "out/__processed" "a.jpg") = Ok p)
    /\ (forall files' : gmap string file,
          (forall q, parent q = parent (mkPath "out/__processed" "a.jpg") ->
                     exists_ files' q = false) ->
          get_unique_filename_fuel (S (size files')) files'
            (mkPath "out/__processed" "a.jpg")
          = Ok (mkPath "out/__processed" "a.jpg")).
Proof.
  assert (Hn : name (mkPath "out/__processed" "a.jpg") <> "") by discriminate.
  exact (conj Hn (get_unique_filename_free taken_twice _ Hn)).
Defined.

Example get_unique_filename_a_2 :
  get_unique_filename_fuel 3 taken_twice (mkPath "out/__processed" "a.jpg")
  = Ok (mkPath "out/__processed" "a_2.jpg").
Proof. vm_compute. reflexivity. Qed.

(** *** Running statements *)

Lemma bind_run {A B} (m : M A) (k : A -> M B) (st : state) :
  (m ≫= k) st
  = match m st with
    | (Ok a, st') => k a st'
    | (Raise e, st') => (Raise e, st')
    end.
Proof. reflexivity. Qed.

Lemma bind_run_Ok {A B} (m : M A) (k : A -> M B) (st st' : state) (a : A) :
  m st = (Ok a, st') -> (m ≫= k) st = k a st'.
Proof. intros E. by rewrite bind_run, E. Qed.

Lemma bind_run_Raise {A B} (m : M A) (k : A -> M B) (st st' : state) (e : exn) :
  m st = (Raise e, st') -> (m ≫= k) st = (Raise e, st').
Proof. intros E. by rewrite bind_run, E. Qed.

Lemma try_run_Ok {A} (m : M A) (h : exn -> M A) (st st' : state) (a : A) :
  m st = (Ok a, st') -> try_except m h st = (Ok a, st').
Proof. intros E. unfold try_except. by rewrite E. Qed.

Lemma try_run_Raise {A} (m : M A) (h : exn -> M A) (st st' : state) (e : exn) :
  m st = (Raise e, st') -> try_except m h st = h e st'.
Proof. intros E. unfold try_except. by rewrite E. Qed.

(** The state with one more line in its log. *)
Definition logged (st : state) (l : level) (m : message) : state :=
  mk_state (fs st) (processed_files_count st) (converted_files_count st)
           (combined_files_count st) (skipped_files_count st)
           (primary_images st) (secondary_images st) (log st ++ [(l, m)]).

(** The state with one more skipped file. *)
Definition skipped_one (st : state) : state :=
  mk_state (fs st) (processed_files_count st) (converted_files_count st)
           (combined_files_count st) (S (skipped_files_count st))
           (primary_images st) (secondary_images st) (log st).

(** The state with other files. *)
Definition with_fs (st : state) (files : gmap string file) : state :=
  mk_state files (processed_files_count st) (converted_files_count st)
           (combined_files_count st) (skipped_files_count st)
           (primary_images st) (secondary_images st) (log st).

(** A suffix that is [.webp] in some case belongs to a path with a name. *)
Lemma suffix_name (p : Path) : suffix p <> "" -> name p <> "".
Proof.
  unfold suffix. intros H E. rewrite E in H. simpl in H. done.
Qed.

Lemma webp_with_suffix (p : Path) (new : string) :
  lower (suffix p) = ".webp" ->
  with_suffix p new = Ok (mkPath (parent p) (stem p +:+ new)).
Proof.
  intros H. unfold with_suffix.
  destruct (String.eqb_spec (name p) "") as [E|]; [|done].
  exfalso. apply (suffix_name p); [|done].
  intros E'. rewrite E' in H. done.
Qed.

(** The decoder or the encoder fails on [image_path]. *)
Definition conversion_fails (env : environment) (image_path : Path) (st : state)
  : Prop :=
  match fs st !! str image_path with
  | None => True
  | Some f =>
      match f_content f with
      | Picture _ _ =>
          can_save env (mkPath (parent image_path) (stem image_path +:+ ".jpg"))
          = false
      | _ => True
      end
  end.

Ltac munfold :=
  repeat progress
    unfold mbind, M_bind, mret, M_ret, try_except, lift, raise, logging, get,
      set_fs, read_file, read_str, write_file, copy2, rename, incr_processed,
      incr_converted, incr_combined, incr_skipped, append_primary,
      append_secondary, Image_open, Image_save_jpeg, iptc_save_as.

Lemma convert_webp_to_jpg_fails (env : environment) (image_path : Path) (st : state) :
  lower (suffix image_path) = ".webp" ->
  conversion_fails env image_path st ->
  convert_webp_to_jpg env image_path st
  = (Ok (None, false), logged st ERROR (ErrorConverting image_path)).
Proof.
  intros Hw Hf. unfold convert_webp_to_jpg, conversion_fails in *.
  rewrite Hw. change (String.eqb ".webp" ".webp") with true. cbv iota.
  rewrite (webp_with_suffix _ _ Hw). munfold. unfold logged.
  destruct (fs st !! str image_path) as [f|] eqn:E; simpl; [|done].
  destruct (f_content f) eqn:C; simpl; try done.
  rewrite Hf. done.
Qed.

(** *** The per-file step *)

Lemma strftime_name_nonempty (dt : datetime) (x : string) :
  String.eqb (strftime_name dt +:+ x) "" = false.
Proof. reflexivity. Qed.

Lemma get_unique_filename_run (path : Path) (st : state) :
  name path <> "" ->
  exists p, get_unique_filename path st = (Ok p, st)
            /\ first_free (fs st) path p.
Proof.
  intros Hn.
  destruct (get_unique_filename_first_free (fs st) path Hn) as (p & R & F).
  exists p. split; [|done].
  unfold get_unique_filename. munfold. by rewrite R.
Qed.

Lemma new_name_joinpath cfg taken_at path r conversion :
  joinpath output_folder (new_name cfg taken_at path r conversion)
  = mkPath output_folder (new_name cfg taken_at path r conversion).
Proof.
  unfold joinpath, new_name.
  destruct conversion as [[? ?]|], (keep_original_filename cfg);
    by rewrite strftime_name_nonempty.
Qed.

Lemma finish_file_missing env cfg taken_at location caption path r conversion st :
  exists_ (fs st) path = false ->
  match conversion with
  | Some (converted_path, converted) => converted = false
  | None => True
  end ->
  finish_file env cfg taken_at location caption path r conversion st
  = (Raise FileNotFoundError, st).
Proof.
  intros Hm Hc. unfold finish_file. cbv zeta.
  rewrite new_name_joinpath.
  destruct (get_unique_filename_run
              (mkPath output_folder (new_name cfg taken_at path r conversion)) st)
    as (p & R & _).
  { simpl. unfold new_name.
    destruct conversion as [[? ?]|], (keep_original_filename cfg); discriminate. }
  rewrite (bind_run_Ok _ _ _ _ _ R).
  assert (C : copy2 path p st = (Raise FileNotFoundError, st)).
  { munfold. unfold exists_ in Hm.
    destruct (fs st !! str path) eqn:E; [|done].
    rewrite bool_decide_eq_false in Hm. exfalso. apply Hm. by eexists. }
  destruct conversion as [[cp cv]|].
  - subst cv. by rewrite (bind_run_Raise _ _ _ _ _ C).
  - by rewrite (bind_run_Raise _ _ _ _ _ C).
Qed.

Lemma process_file_missing env cfg taken_at location caption path r st :
  exists_ (fs st) path = false ->
  process_file env cfg taken_at location caption path r st
  = if convert_to_jpeg cfg && String.eqb (lower (suffix path)) ".webp"
    then (Ok tt, skipped_one (logged (logged st INFO (FoundImage path))
                                     ERROR (ErrorConverting path)))
    else (Raise FileNotFoundError, logged st INFO (FoundImage path)).
Proof.
  intros Hm. unfold process_file.
  assert (L : logging INFO (FoundImage path) st
              = (Ok tt, logged st INFO (FoundImage path))) by done.
  rewrite (bind_run_Ok _ _ _ _ _ L).
  set (st1 := logged st INFO (FoundImage path)).
  assert (Hm1 : exists_ (fs st1) path = false) by done.
  destruct (convert_to_jpeg cfg); simpl andb; cbv iota.
  - destruct (String.eqb_spec (lower (suffix path)) ".webp") as [Hw|Hw].
    + assert (F : conversion_fails env path st1).
      { unfold conversion_fails, exists_ in *.
        destruct (fs st1 !! str path) eqn:E; [|done].
        rewrite bool_decide_eq_false in Hm1. exfalso. apply Hm1. by eexists. }
      rewrite (bind_run_Ok _ _ _ _ _ (convert_webp_to_jpg_fails env path st1 Hw F)).
      done.
    + assert (C : convert_webp_to_jpg env path st1 = (Ok (Some path, false), st1)).
      { unfold convert_webp_to_jpg.
        destruct (String.eqb_spec (lower (suffix path)) ".webp"); done. }
      rewrite (bind_run_Ok _ _ _ _ _ C). cbv iota beta.
      assert (R : (mret tt : M unit) st1 = (Ok tt, st1)) by done.
      rewrite (bind_run_Ok _ _ _ _ _ R).
      by apply finish_file_missing.
  - by apply finish_file_missing.
Qed.

(** One record never raises: what its body raises is logged. *)
Lemma process_entry_run env cfg e st :
  exists st', process_entry env cfg e st = (Ok tt, st')
    /\ (forall x st1, entry_body env cfg e st = (Raise x, st1) ->
                      st' = logged st1 ERROR (ErrorProcessingEntry e))
    /\ (forall st1, entry_body env cfg e st = (Ok tt, st1) -> st' = st1).
Proof.
  unfold process_entry, try_except.
  destruct (entry_body env cfg e st) as [[[]|x] st1] eqn:E.
  - exists st1. split; [done|]. split; [done|]. by intros ? [= <-].
  - exists (logged st1 ERROR (ErrorProcessingEntry e)).
    split; [done|]. split; [by intros ? ? [= <- <-]|done].
Qed.

(** The loop over the manifest reaches its end whatever the records
    are. *)
Lemma for_each_entry_total env cfg data st :
  (for_each (process_entry env cfg) data st).1 = Ok tt.
Proof.
  revert st. induction data as [|e data IH]; intros st; [done|].
  simpl. destruct (process_entry_run env cfg e st) as (st' & R & _).
  rewrite (bind_run_Ok _ _ _ _ _ R). apply IH.
Qed.

(** C4 (amended). When the secondary file is missing, the step for it
    either (conversion enabled, name ending in .webp) logs the converter's
    error and counts one skipped file, or raises [FileNotFoundError]
    with every counter as it was; what a record raises is logged at the
    record, and the loop goes on with the next record. *)
Theorem missing_secondary env cfg taken_at location caption path st :
  exists_ (fs st) path = false ->
  process_file env cfg taken_at location caption path secondary st
  = (if convert_to_jpeg cfg && String.eqb (lower (suffix path)) ".webp"
     then (Ok tt, skipped_one (logged (logged st INFO (FoundImage path))
                                      ERROR (ErrorConverting path)))
     else (Raise FileNotFoundError, logged st INFO (FoundImage path)))
  /\ (forall e st0 x st1,
        entry_body env cfg e st0 = (Raise x, st1) ->
        process_entry env cfg e st0
        = (Ok tt, logged st1 ERROR (ErrorProcessingEntry e)))
  /\ (forall e data st0,
        exists st1, process_entry env cfg e st0 = (Ok tt, st1)
          /\ for_each (process_entry env cfg) (e :: data) st0
             = for_each (process_entry env cfg) data st1).
Proof.
  intros Hm. split; [by apply process_file_missing|]. split.
  - intros e st0 x st1 E. unfold process_entry. by rewrite (try_run_Raise _ _ _ _ _ E).
  - intros e data st0.
    destruct (process_entry_run env cfg e st0) as (st1 & R & _).
    exists st1. split; [done|]. simpl. by rewrite (bind_run_Ok _ _ _ _ _ R).
Qed.

(** *** The video sidecar *)

(** The transcoder is missing or exits with a status that is not 0. *)
Definition transcoder_fails (env : environment) : Prop :=
  match ffmpeg env with
  | None => True
  | Some run => forall cmd f, returncode (run cmd f) <> 0%Z
  end.

(** Two states with the same counters and recorded artifacts. *)
Definition same_counts (st st' : state) : Prop :=
  processed_files_count st' = processed_files_count st
  /\ converted_files_count st' = converted_files_count st
  /\ combined_files_count st' = combined_files_count st
  /\ skipped_files_count st' = skipped_files_count st
  /\ primary_images st' = primary_images st
  /\ secondary_images st' = secondary_images st.

Lemma update_mp4_metadata_fails env input_path output_path dt location st :
  transcoder_fails env ->
  exists st' m,
    update_mp4_metadata env input_path output_path dt location st
    = (Ok false, st')
    /\ same_counts st st'
    /\ log st' = (log st ++ [(ERROR, m)])%list
    /\ (forall k, k <> str output_path -> fs st' !! k = fs st !! k).
Proof.
  intros Hf. unfold update_mp4_metadata, subprocess_run, transcoder_fails in *.
  destruct (ffmpeg_cmd input_path output_path dt location) as [cmd|x] eqn:C.
  - destruct (ffmpeg env) as [run|].
    + munfold. simpl.
      destruct (fs st !! str input_path) as [f|] eqn:E; simpl.
      * specialize (Hf cmd f).
        destruct (written (run cmd f)) as [out|]; simpl;
          destruct (Z.eqb_spec (returncode (run cmd f)) 0); try done; simpl.
        -- eexists _, _. split; [done|]. split; [done|]. split; [done|].
           intros k Hk. simpl. by rewrite lookup_insert_ne.
        -- eexists _, _. split; [done|]. split; [done|]. split; [done|]. done.
      * eexists _, _. split; [done|]. split; [done|]. split; [done|]. done.
    + munfold. simpl. eexists _, _. split; [done|]. split; [done|]. split; [done|]. done.
  - munfold. simpl. destruct x; simpl;
      eexists _, _; (split; [done|]); (split; [done|]); (split; [done|]); done.
Qed.

Lemma str_output_folder (n : string) :
  str (mkPath output_folder n) = "out/__processed/" +:+ n.
Proof. reflexivity. Qed.

Lemma first_free_parent files path p :
  first_free files path p -> parent p = parent path.
Proof. intros [[_ ->] | (_ & k & _ & -> & _)]; done. Qed.

Lemma first_free_name files path p :
  name path <> "" -> first_free files path p -> name p <> "".
Proof.
  intros Hn [[_ ->] | (_ & k & _ & -> & _)]; [done|apply candidate_name].
Qed.

Lemma first_free_free files path p :
  first_free files path p -> exists_ files p = false.
Proof. intros [[F ->] | (_ & k & _ & -> & F & _)]; done. Qed.

(** The name the loop derives for a video. *)
Definition bts_name (cfg : config) (taken_at : datetime) (bts_path : Path) : string :=
  if keep_original_filename cfg
  then strftime_name taken_at +:+ "_bts_" +:+ stem bts_path +:+ ".mp4"
  else strftime_name taken_at +:+ "_bts.mp4".

(** C6. When the transcoder is missing or exits with a status other than
    0, the video writer logs an error and returns [False] without raising;
    the loop then copies the video as it is to the derived, deduplicated
    output path (the file there is the input file, with no tag added),
    logs that, and counts it as processed, not as skipped. *)
Theorem bts_fallback env cfg taken_at location bts_media st :
  bts_media <> "" ->
  exists_ (fs st) (joinpath data_folder (name (Path_of_string bts_media))) = true ->
  lower (suffix (joinpath data_folder (name (Path_of_string bts_media)))) = ".mp4" ->
  transcoder_fails env ->
  (forall i o st0, exists st1 m,
      update_mp4_metadata env i o taken_at location st0 = (Ok false, st1)
      /\ log st1 = (log st0 ++ [(ERROR, m)])%list)
  /\ exists bts_new_path st',
    process_bts env cfg taken_at location (Some bts_media) st = (Ok tt, st')
    /\ first_free (fs st)
         (mkPath output_folder
            (bts_name cfg taken_at
               (joinpath data_folder (name (Path_of_string bts_media)))))
         bts_new_path
    /\ fs st' !! str bts_new_path
       = fs st !! str (joinpath data_folder (name (Path_of_string bts_media)))
    /\ processed_files_count st' = S (processed_files_count st)
    /\ skipped_files_count st' = skipped_files_count st
    /\ In (ERROR, CopiedBtsWithoutMetadata bts_new_path) (log st').
Proof.
  intros Hne Hex Hmp4 Hf. split.
  { intros i o st0.
    destruct (update_mp4_metadata_fails env i o taken_at location st0 Hf)
      as (st1 & m & R & _ & L & _).
    by exists st1, m. }
  set (bts_path := joinpath data_folder (name (Path_of_string bts_media))) in *.
  assert (T : truthy (Some bts_media) = true) by (by destruct bts_media).
  assert (G : get st = (Ok st, st)) by done.
  assert (J : joinpath output_folder (bts_name cfg taken_at bts_path)
              = mkPath output_folder (bts_name cfg taken_at bts_path)).
  { unfold joinpath, bts_name.
    destruct (keep_original_filename cfg); by rewrite strftime_name_nonempty. }
  assert (Hn : name (mkPath output_folder (bts_name cfg taken_at bts_path)) <> "").
  { simpl. unfold bts_name. destruct (keep_original_filename cfg); discriminate. }
  destruct (get_unique_filename_run _ st Hn) as (p & R & FF).
  pose proof (first_free_parent _ _ _ FF) as Hp. simpl in Hp.
  pose proof (first_free_name _ _ _ Hn FF) as Hpn.
  assert (W : with_suffix p ".tmp.mp4"
              = Ok (mkPath (parent p) (stem p +:+ ".tmp.mp4"))).
  { unfold with_suffix. by destruct (String.eqb_spec (name p) ""). }
  assert (Lf : lift (Ok (mkPath (parent p) (stem p +:+ ".tmp.mp4"))) st
               = (Ok (mkPath (parent p) (stem p +:+ ".tmp.mp4")), st)) by done.
  destruct (update_mp4_metadata_fails env bts_path
              (mkPath (parent p) (stem p +:+ ".tmp.mp4")) taken_at location st Hf)
    as (st1 & m & U & (C1 & C2 & C3 & C4 & C5 & C6) & L & Fr).
  assert (Hsrc : fs st1 !! str bts_path = fs st !! str bts_path).
  { apply Fr. rewrite Hp, str_output_folder.
    unfold bts_path, joinpath.
    destruct (String.eqb (name (Path_of_string bts_media)) ""); discriminate. }
  pose proof Hex as Hsome. apply exists_spec in Hsome.
  apply elem_of_dom in Hsome. destruct Hsome as [f Hsome].
  exists p. eexists. split.
  - unfold process_bts. rewrite T. fold bts_path. cbv zeta.
    rewrite (bind_run_Ok _ _ _ _ _ G). rewrite Hex, Hmp4.
    change (String.eqb ".mp4" ".mp4") with true.
    change (true && true) with true. cbv iota.
    fold (bts_name cfg taken_at bts_path). rewrite J.
    rewrite (bind_run_Ok _ _ _ _ _ R). rewrite W.
    rewrite (bind_run_Ok _ _ _ _ _ Lf).
    rewrite (bind_run_Ok _ _ _ _ _ U). cbv iota.
    munfold. rewrite Hsrc, Hsome. simpl. reflexivity.
  - simpl. split; [done|]. split; [by rewrite lookup_insert_eq, Hsome|].
    split; [by rewrite C1|]. split; [done|].
    apply in_or_app. right. by left.
Qed.

(** *** Invariants of a run *)

(** [m] keeps [I], whether it returns or raises, and what it returns
    satisfies [Q]. *)
Definition inv {A} (I : state -> Prop) (m : M A) (Q : A -> Prop) : Prop :=
  forall st, I st ->
    match m st with
    | (Ok a, st') => I st' /\ Q a
    | (Raise _, st') => I st'
    end.

Definition any {A} : A -> Prop := fun _ => True.

Section Invariant.
Variable I : state -> Prop.
Variable good : artifact -> Prop.

Hypothesis I_fs : forall st files, I st -> I (with_fs st files).
Hypothesis I_log : forall st l m, I st -> I (logged st l m).
Hypothesis I_processed : forall st, I st -> I (incr_processed st).2.
Hypothesis I_converted : forall st, I st -> I (incr_converted st).2.
Hypothesis I_combined : forall st, I st -> I (incr_combined st).2.
Hypothesis I_skipped : forall st, I st -> I (incr_skipped st).2.
Hypothesis I_secondary : forall st p, I st -> I (append_secondary p st).2.
Hypothesis I_primary : forall st a, good a -> I st -> I (append_primary a st).2.
Hypothesis good_recorded :
  forall files cfg taken_at location caption path conversion p,
    first_free files
      (mkPath output_folder (new_name cfg taken_at path primary conversion)) p ->
    good (mk_artifact p taken_at location caption).

Lemma inv_weaken {A} (m : M A) (Q Q' : A -> Prop) :
  inv I m Q -> (forall a, Q a -> Q' a) -> inv I m Q'.
Proof.
  intros H HQ st Hst. specialize (H st Hst).
  destruct (m st) as [[a|x] st']; [|done]. destruct H. split; auto.
Qed.

Lemma inv_ret {A} (a : A) (Q : A -> Prop) : Q a -> inv I (mret a) Q.
Proof. intros HQ st Hst. by split. Qed.

Lemma inv_bind {A B} (m : M A) (k : A -> M B) (Q : A -> Prop) (R : B -> Prop) :
  inv I m Q -> (forall a, Q a -> inv I (k a) R) -> inv I (m ≫= k) R.
Proof.
  intros Hm Hk st Hst. rewrite bind_run. specialize (Hm st Hst).
  destruct (m st) as [[a|x] st']; [|done].
  destruct Hm as [Hst' Ha]. apply (Hk a Ha st' Hst').
Qed.

Lemma inv_try {A} (m : M A) (h : exn -> M A) (Q : A -> Prop) :
  inv I m Q -> (forall x, inv I (h x) Q) -> inv I (try_except m h) Q.
Proof.
  intros Hm Hh st Hst. unfold try_except. specialize (Hm st Hst).
  destruct (m st) as [[a|x] st']; [done|]. apply (Hh x st' Hm).
Qed.

Lemma inv_lift {A} (r : result A) : inv I (lift r) any.
Proof. intros st Hst. unfold lift. by destruct r. Qed.

Lemma inv_raise {A} (x : exn) (Q : A -> Prop) : inv I (raise x) Q.
Proof. by intros st Hst. Qed.

Lemma inv_get : inv I get any.
Proof. by intros st Hst. Qed.

Lemma inv_set_fs (f : gmap string file -> gmap string file) : inv I (set_fs f) any.
Proof. intros st Hst. split; [|done]. by apply (I_fs st (f (fs st))). Qed.

Lemma inv_logging (l : level) (m : message) : inv I (logging l m) any.
Proof. intros st Hst. split; [|done]. by apply I_log. Qed.

Lemma inv_incr_processed : inv I incr_processed any.
Proof. intros st Hst. split; [|done]. by apply I_processed. Qed.

Lemma inv_incr_converted : inv I incr_converted any.
Proof. intros st Hst. split; [|done]. by apply I_converted. Qed.

Lemma inv_incr_combined : inv I incr_combined any.
Proof. intros st Hst. split; [|done]. by apply I_combined. Qed.

Lemma inv_incr_skipped : inv I incr_skipped any.
Proof. intros st Hst. split; [|done]. by apply I_skipped. Qed.

Lemma inv_append_secondary (p : Path) : inv I (append_secondary p) any.
Proof. intros st Hst. split; [|done]. by apply I_secondary. Qed.

Lemma inv_append_primary (a : artifact) : good a -> inv I (append_primary a) any.
Proof. intros Ha st Hst. split; [|done]. by apply I_primary. Qed.

Lemma inv_read_file (p : Path) : inv I (read_file p) any.
Proof. intros st Hst. unfold read_file. by destruct (fs st !! str p). Qed.

Lemma inv_read_str (p : string) : inv I (read_str p) any.
Proof. intros st Hst. unfold read_str. by destruct (fs st !! p). Qed.

Lemma inv_get_unique_filename (path : Path) :
  inv I (get_unique_filename path)
      (fun p => exists files, first_free files path p \/ name path = "").
Proof.
  intros st Hst. unfold get_unique_filename. munfold.
  destruct (decide (name path = "")) as [E|N].
  - destruct (get_unique_filename_fuel _ _ _); [|done]. split; [done|].
    exists (fs st). by right.
  - destruct (get_unique_filename_first_free (fs st) path N) as (p & R & F).
    rewrite R. split; [done|]. exists (fs st). by left.
Qed.

Lemma inv_any {A} (m : M A) (Q : A -> Prop) : inv I m Q -> inv I m any.
Proof. intros H. apply (inv_weaken m Q); [done|]. by intros. Qed.

Lemma inv_write_file p f : inv I (write_file p f) any.
Proof. apply inv_set_fs. Qed.

Lemma inv_copy2 src dst : inv I (copy2 src dst) any.
Proof. unfold copy2. eapply inv_bind; [apply inv_read_file|]. intros f _. apply inv_write_file. Qed.

Lemma inv_rename src dst : inv I (rename src dst) any.
Proof. unfold rename. eapply inv_bind; [apply inv_read_file|]. intros f _. apply inv_set_fs. Qed.

Lemma inv_Image_open p : inv I (Image_open p) any.
Proof.
  unfold Image_open. eapply inv_bind; [apply inv_read_file|]. intros f _.
  destruct (f_content f); first [by apply inv_ret | apply inv_raise].
Qed.

Lemma inv_Image_save_jpeg env i p : inv I (Image_save_jpeg env i p) any.
Proof.
  unfold Image_save_jpeg. destruct (can_save env p);
    [apply inv_write_file | apply inv_raise].
Qed.

Lemma inv_seq {A B} (m : M A) (k : M B) (R : B -> Prop) :
  inv I m any -> inv I k R -> inv I (m ≫= fun _ => k) R.
Proof. intros Hm Hk. eapply inv_bind; [exact Hm|]. by intros. Qed.

Lemma inv_convert_webp_to_jpg env p : inv I (convert_webp_to_jpg env p) any.
Proof.
  unfold convert_webp_to_jpg. destruct (String.eqb _ _); [|by apply inv_ret].
  eapply inv_bind; [apply inv_lift|]. intros jpg _.
  apply inv_try.
  - eapply inv_bind; [apply inv_Image_open|]. intros img _.
    apply inv_seq; [apply inv_Image_save_jpeg|].
    apply inv_seq; [apply inv_logging|]. by apply inv_ret.
  - intros x. apply inv_seq; [apply inv_logging|]. by apply inv_ret.
Qed.

Lemma inv_update_exif env ip dt loc cap : inv I (update_exif env ip dt loc cap) any.
Proof.
  unfold update_exif. apply inv_try; [|intros x; apply inv_logging].
  eapply inv_bind; [apply inv_lift|]. intros p _.
  eapply inv_bind; [apply inv_read_file|]. intros f _.
  apply inv_seq; [destruct (can_exif env p); [by apply inv_ret|apply inv_raise]|].
  eapply inv_bind; [apply inv_lift|]. intros dg _.
  apply inv_seq; [apply inv_logging|].
  apply inv_seq; [apply inv_logging|].
  eapply (inv_bind _ _ any).
  { destruct (located loc) as [[la lo]|]; [|by apply inv_ret].
    apply inv_seq; [apply inv_logging|].
    eapply inv_bind; [apply inv_lift|]. intros g _.
    apply inv_seq; [apply inv_logging|]. by apply inv_ret. }
  intros d _.
  eapply (inv_bind _ _ any).
  { destruct cap as [c|]; [|by apply inv_ret].
    destruct (truthy (Some c)); [|by apply inv_ret].
    apply inv_seq; [apply inv_logging|].
    apply inv_seq; [apply inv_logging|]. by apply inv_ret. }
  intros d' _.
  apply inv_seq; [apply inv_lift|].
  apply inv_seq; [destruct (can_insert env p); [by apply inv_ret|apply inv_raise]|].
  apply inv_seq; [apply inv_write_file|]. apply inv_logging.
Qed.

Lemma inv_update_iptc env p cap : inv I (update_iptc env p cap) any.
Proof.
  unfold update_iptc. apply inv_try; [|intros x; apply inv_logging].
  eapply inv_bind; [apply inv_read_str|]. intros f _.
  apply inv_seq; [destruct (can_iptc env p); [by apply inv_ret|apply inv_raise]|].
  eapply (inv_bind _ _ any).
  { destruct (truthy cap); [|by apply inv_ret].
    apply inv_seq; [apply inv_logging|]. by apply inv_ret. }
  intros i _.
  apply inv_seq; [|apply inv_logging].
  unfold iptc_save_as. destruct (file_is_jpeg f); [apply inv_set_fs|by apply inv_ret].
Qed.

Lemma inv_update_mp4_metadata env i o dt loc :
  inv I (update_mp4_metadata env i o dt loc) any.
Proof.
  unfold update_mp4_metadata. apply inv_try.
  - eapply inv_bind; [apply inv_lift|]. intros cmd _.
    eapply (inv_bind _ _ any).
    { unfold subprocess_run. destruct (ffmpeg env) as [run|]; [|apply inv_raise].
      eapply inv_bind; [apply inv_get|]. intros st0 _.
      destruct (fs st0 !! str i) as [f|]; [|by apply inv_ret].
      apply inv_seq; [|by apply inv_ret].
      destruct (written (run cmd f)); [apply inv_write_file|by apply inv_ret]. }
    intros code _.
    destruct (negb _); (apply inv_seq; [apply inv_logging|by apply inv_ret]).
  - intros x. destruct x; (apply inv_seq; [apply inv_logging|by apply inv_ret]).
Qed.

Lemma inv_finish_file env cfg taken_at location caption path r conversion :
  inv I (finish_file env cfg taken_at location caption path r conversion) any.
Proof.
  unfold finish_file. cbv zeta. rewrite new_name_joinpath.
  eapply inv_bind; [apply inv_get_unique_filename|].
  intros p [files [FF|E]].
  2:{ exfalso. simpl in E. unfold new_name in E.
      destruct conversion as [[? ?]|], (keep_original_filename cfg); discriminate. }
  apply inv_seq.
  { destruct conversion as [[cp [|]]|]; first [apply inv_rename | apply inv_copy2]. }
  apply inv_seq; [apply inv_update_exif|].
  apply inv_seq; [apply inv_logging|].
  apply inv_seq; [apply inv_update_iptc|].
  apply inv_seq.
  { destruct r; [|apply inv_append_secondary].
    apply inv_append_primary. by apply (good_recorded files cfg _ _ _ path conversion). }
  apply inv_seq; [apply inv_logging|]. apply inv_incr_processed.
Qed.

Lemma inv_process_file env cfg taken_at location caption path r :
  inv I (process_file env cfg taken_at location caption path r) any.
Proof.
  unfold process_file. apply inv_seq; [apply inv_logging|].
  destruct (convert_to_jpeg cfg); [|apply inv_finish_file].
  eapply inv_bind; [apply inv_convert_webp_to_jpg|]. intros [cp cv] _.
  destruct cp as [cp|]; [|apply inv_incr_skipped].
  apply inv_seq; [|apply inv_finish_file].
  destruct cv; [apply inv_incr_converted|by apply inv_ret].
Qed.

Lemma inv_process_bts env cfg taken_at location bts :
  inv I (process_bts env cfg taken_at location bts) any.
Proof.
  unfold process_bts. destruct bts as [b|]; [|by apply inv_ret].
  destruct (truthy (Some b)); [|by apply inv_ret]. cbv zeta.
  eapply inv_bind; [apply inv_get|]. intros st0 _.
  destruct (_ && _); [|by apply inv_ret].
  eapply inv_bind; [apply (inv_any _ _ (inv_get_unique_filename _))|]. intros p _.
  eapply inv_bind; [apply inv_lift|]. intros tmp _.
  eapply inv_bind; [apply inv_update_mp4_metadata|]. intros [|] _.
  - apply inv_seq; [apply inv_rename|].
    apply inv_seq; [apply inv_logging|]. apply inv_incr_processed.
  - apply inv_seq; [apply inv_copy2|].
    apply inv_seq; [apply inv_logging|]. apply inv_incr_processed.
Qed.

Lemma inv_entry_body env cfg e : inv I (entry_body env cfg e) any.
Proof.
  unfold entry_body.
  eapply inv_bind; [apply inv_lift|]. intros pe _.
  eapply inv_bind; [apply inv_lift|]. intros se _. cbv zeta.
  eapply inv_bind; [apply inv_get|]. intros st0 _.
  destruct (negb _).
  - eapply inv_bind; [apply inv_lift|]. intros ts _.
    eapply inv_bind; [apply inv_lift|]. intros ta _.
    apply inv_seq; [apply inv_process_file|].
    apply inv_seq; [apply inv_process_file|]. apply inv_process_bts.
  - eapply inv_bind; [apply inv_lift|]. intros ts _.
    eapply inv_bind; [apply inv_lift|]. intros ta _.
    apply inv_seq; [apply inv_process_file|].
    apply inv_seq; [apply inv_process_file|]. apply inv_process_bts.
Qed.

Lemma inv_process_entry env cfg e : inv I (process_entry env cfg e) any.
Proof.
  unfold process_entry. apply inv_try; [apply inv_entry_body|].
  intros x. apply inv_logging.
Qed.

Lemma inv_for_each {A} (body : A -> M unit) (l : list A) :
  (forall a, inv I (body a) any) -> inv I (for_each body l) any.
Proof.
  intros Hb. induction l as [|a l IH]; simpl; [by apply inv_ret|].
  apply inv_seq; [apply Hb|exact IH].
Qed.

Lemma inv_combine_pair env cfg a s : inv I (combine_pair env cfg a s) any.
Proof.
  unfold combine_pair. cbv zeta.
  eapply (inv_bind _ _ any).
  { unfold combine_images_with_resizing.
    eapply inv_bind; [apply inv_Image_open|]. intros ip _.
    eapply inv_bind; [apply inv_Image_open|]. intros isec _. by apply inv_ret. }
  intros img _.
  apply inv_seq; [apply inv_Image_save_jpeg|].
  apply inv_seq; [apply inv_incr_combined|].
  apply inv_seq; [apply inv_logging|].
  apply inv_seq; [apply inv_update_exif|].
  apply inv_seq; [apply inv_logging|].
  apply inv_seq; [apply inv_update_iptc|].
  destruct (convert_to_jpeg cfg); [|by apply inv_ret].
  eapply inv_bind; [apply inv_convert_webp_to_jpg|]. intros [cp cv] _.
  apply inv_seq; [apply inv_update_exif|].
  apply inv_seq; [apply inv_logging|].
  apply inv_seq; [apply inv_update_iptc|].
  destruct cp; [by apply inv_ret|apply inv_logging].
Qed.

Lemma inv_combine_pass env cfg : inv I (combine_pass env cfg) any.
Proof.
  unfold combine_pass. destruct (create_combined_images cfg); [|by apply inv_ret].
  eapply inv_bind; [apply inv_get|]. intros st0 _.
  apply inv_for_each. intros [a s]. apply inv_combine_pair.
Qed.

Lemma inv_main env cfg posts : inv I (main env cfg posts) any.
Proof.
  unfold main. destruct posts as [data|]; [|apply inv_logging].
  apply inv_seq; [apply inv_for_each; intros e; apply inv_process_entry|].
  apply inv_seq; [apply inv_combine_pass|].
  apply inv_seq; [apply inv_set_fs|].
  destruct (create_combined_images cfg); [apply inv_set_fs|by apply inv_ret].
Qed.

End Invariant.

(** *** The timestamp of a file name *)

(** No character of [s] is [c]. *)
Fixpoint lacks (c : ascii) (s : string) : Prop :=
  match s with
  | EmptyString => True
  | String a s' => a <> c /\ lacks c s'
  end.

Lemma digit_cases (n : Z) :
  digit n = "0"%char \/ digit n = "1"%char \/ digit n = "2"%char
  \/ digit n = "3"%char \/ digit n = "4"%char \/ digit n = "5"%char
  \/ digit n = "6"%char \/ digit n = "7"%char \/ digit n = "8"%char
  \/ digit n = "9"%char.
Proof.
  unfold digit.
  assert (H : (0 <= n mod 10 < 10)%Z) by (apply Z.mod_pos_bound; lia).
  assert (n mod 10 = 0 \/ n mod 10 = 1 \/ n mod 10 = 2 \/ n mod 10 = 3
          \/ n mod 10 = 4 \/ n mod 10 = 5 \/ n mod 10 = 6 \/ n mod 10 = 7
          \/ n mod 10 = 8 \/ n mod 10 = 9)%Z as C by lia.
  repeat (destruct C as [C|C]; [rewrite C; tauto|]). rewrite C. tauto.
Qed.

Lemma digit_neq (n : Z) (c : ascii) :
  is_digit c = false -> digit n <> c.
Proof.
  intros Hc E. subst c.
  destruct (digit_cases n) as [H|[H|[H|[H|[H|[H|[H|[H|[H|H]]]]]]]]];
    rewrite H in Hc; discriminate.
Qed.

Lemma strftime_name_lacks (dt : datetime) (c : ascii) :
  is_digit c = false -> c <> "-"%char -> c <> "T"%char ->
  lacks c (strftime_name dt).
Proof.
  intros Hd H1 H2. unfold strftime_name, pad4, pad2. simpl.
  repeat split; try (by apply digit_neq); try (by apply not_eq_sym).
Qed.

Lemma rfind_cons_ne (c a : ascii) (s : string) :
  a <> c -> rfind c (String a s) = S <$> rfind c s.
Proof.
  intros N. simpl. destruct (rfind c s); [done|].
  destruct (Ascii.eqb_spec a c); done.
Qed.

Lemma rfind_lacks_app (c : ascii) (t s : string) :
  lacks c t ->
  rfind c (t +:+ s) = (fun i => String.length t + i)%nat <$> rfind c s.
Proof.
  induction t as [|a t IH]; intros L.
  - change ("" +:+ s) with s. destruct (rfind c s); reflexivity.
  - destruct L as [N L].
    change (String a t +:+ s) with (String a (t +:+ s)).
    rewrite rfind_cons_ne by done. rewrite (IH L).
    destruct (rfind c s); reflexivity.
Qed.

Lemma take_str_app (t s : string) (i : nat) :
  take_str (String.length t + i) (t +:+ s) = t +:+ take_str i s.
Proof.
  induction t as [|a t IH]; [done|].
  change (String a t +:+ s) with (String a (t +:+ s)). simpl. by rewrite IH.
Qed.

Lemma split_head_app (c : ascii) (t s : string) :
  lacks c t -> split_head c (t +:+ String c s) = t.
Proof.
  induction t as [|a t IH]; intros L.
  - simpl. by rewrite Ascii.eqb_refl.
  - destruct L as [N L].
    change (String a t +:+ String c s) with (String a (t +:+ String c s)).
    simpl. destruct (Ascii.eqb_spec a c); [done|]. by rewrite (IH L).
Qed.

(** A name that starts with a dot-free [t] and an underscore keeps them
    in its stem. *)
Lemma stem_prefix (d t y : string) :
  lacks "." t ->
  exists y', stem (mkPath d (t +:+ String "_" y)) = t +:+ String "_" y'.
Proof.
  intros L. unfold stem. simpl name.
  rewrite (rfind_lacks_app _ _ _ L).
  rewrite rfind_cons_ne by done.
  destruct (rfind "." y) as [i|]; simpl; [|by eexists].
  destruct (_ && _); [|by eexists].
  rewrite take_str_app. simpl. by eexists.
Qed.

Lemma timestamp_of_name (d t y : string) :
  lacks "." t -> lacks "_" t ->
  split_head "_" (stem (mkPath d (t +:+ String "_" y))) = t.
Proof.
  intros L1 L2. destruct (stem_prefix d t y L1) as [y' ->].
  by apply split_head_app.
Qed.

(** The artifact carries the name the loop gave it: its timestamp and
    role first. *)
Definition recorded (a : artifact) : Prop :=
  exists y, name (a_path a)
            = strftime_name (a_taken_at a) +:+ String "_" y.

Lemma new_name_shape cfg taken_at path r conversion :
  exists y, new_name cfg taken_at path r conversion
            = strftime_name taken_at +:+ String "_" y.
Proof.
  unfold new_name. destruct conversion as [[? ?]|], (keep_original_filename cfg);
    by eexists.
Qed.

Lemma first_free_recorded files cfg taken_at location caption path conversion p :
  first_free files
    (mkPath output_folder (new_name cfg taken_at path primary conversion)) p ->
  recorded (mk_artifact p taken_at location caption).
Proof.
  destruct (new_name_shape cfg taken_at path primary conversion) as [y E].
  rewrite E. intros [[_ ->] | (_ & k & _ & -> & _)]; unfold recorded; simpl.
  - by eexists.
  - destruct (stem_prefix output_folder (strftime_name taken_at) y) as [y' ->].
    { apply strftime_name_lacks; done. }
    rewrite app_assoc_str. simpl. by eexists.
Qed.

Lemma recorded_timestamp (a : artifact) :
  recorded a ->
  split_head "_" (stem (a_path a)) = strftime_name (a_taken_at a).
Proof.
  intros [y E]. destruct (a_path a) as [d n]. simpl in E. subst n.
  apply timestamp_of_name; apply strftime_name_lacks; done.
Qed.

(** Every primary artifact a run records carries its timestamp. *)
Lemma main_loop_recorded env cfg data files :
  Forall recorded
    (primary_images (for_each (process_entry env cfg) data (initial files)).2).
Proof.
  assert (H : inv (fun st => Forall recorded (primary_images st))
                  (for_each (process_entry env cfg) data) any).
  { apply inv_for_each. intros e.
    apply inv_process_entry with (good := recorded); try done.
    - intros st a Ha Hst. simpl. apply Forall_app. split; [done|].
      by apply Forall_singleton.
    - intros. by eapply first_free_recorded. }
  specialize (H (initial files)). simpl in H.
  destruct (for_each _ _ _) as [[[]|x] st']; simpl; [apply H|apply H];
    by apply Forall_nil.
Qed.

(** *** What the metadata writers leave alone *)

(** The content of the file that [k] names, if any. *)
Definition content_at (st : state) (k : string) : option content :=
  f_content <$> fs st !! k.

Definition log_grows (st st' : state) : Prop :=
  exists l, log st' = (log st ++ l)%list.

Lemma log_grows_refl st : log_grows st st.
Proof. exists []. by rewrite app_nil_r. Qed.

Lemma log_grows_trans st1 st2 st3 :
  log_grows st1 st2 -> log_grows st2 st3 -> log_grows st1 st3.
Proof. intros [l1 E1] [l2 E2]. exists (l1 ++ l2)%list. by rewrite E2, E1, app_assoc. Qed.

Lemma log_grows_In st st' x : log_grows st st' -> In x (log st) -> In x (log st').
Proof. intros [l E] H. rewrite E. apply in_or_app. by left. Qed.

Lemma same_counts_refl st : same_counts st st.
Proof. by repeat split. Qed.

Lemma same_counts_trans st1 st2 st3 :
  same_counts st1 st2 -> same_counts st2 st3 -> same_counts st1 st3.
Proof.
  intros (a1 & a2 & a3 & a4 & a5 & a6) (b1 & b2 & b3 & b4 & b5 & b6).
  repeat split; congruence.
Qed.

Lemma content_insert_same (files : gmap string file) (k k' : string) (f g : file) :
  files !! k = Some f -> f_content g = f_content f ->
  f_content <$> <[k := g]> files !! k' = f_content <$> files !! k'.
Proof.
  intros Hf Hc. destruct (decide (k = k')) as [<-|N].
  - rewrite lookup_insert_eq, Hf. simpl. by rewrite Hc.
  - by rewrite lookup_insert_ne.
Qed.

Lemma update_exif_frame env ip dt loc cap st :
  exists st', update_exif env ip dt loc cap st = (Ok tt, st')
    /\ same_counts st st'
    /\ (forall k, content_at st' k = content_at st k)
    /\ log_grows st st'
    /\ (forall p, ip = Some p ->
          In (INFO, UpdatedExif p) (log st')
          \/ In (ERROR, FailedExif (Some p)) (log st')).
Proof.
  unfold update_exif, content_at. munfold.
  repeat (case_match; simpl in *; simplify_eq);
    eexists; (split; [reflexivity|]); (split; [by repeat split|]); simpl;
    (split; [first [done | intros k; by eapply content_insert_same]|]);
    (split; [eexists; rewrite <- ?app_assoc; reflexivity|]);
    intros p' [= <-]; rewrite ?in_app_iff; simpl; tauto.
Qed.

Lemma content_iptc_save (files : gmap string file) (path k : string) (f g : file) :
  files !! path = Some f -> f_content g = f_content f -> k <> path +:+ "~" ->
  f_content <$> <[path := g]> (<[path +:+ "~" := f]> files) !! k
  = f_content <$> files !! k.
Proof.
  intros Hf Hc Hk. destruct (decide (path = k)) as [<-|N].
  - rewrite lookup_insert_eq, Hf. simpl. by rewrite Hc.
  - rewrite lookup_insert_ne by done. by rewrite lookup_insert_ne.
Qed.

Lemma update_iptc_frame env path cap st :
  exists st', update_iptc env path cap st = (Ok tt, st')
    /\ same_counts st st'
    /\ (forall k, k <> path +:+ "~" -> content_at st' k = content_at st k)
    /\ log_grows st st'
    /\ (In (INFO, UpdatedIptc path) (log st')
        \/ In (ERROR, FailedIptc path) (log st')).
Proof.
  unfold update_iptc, content_at. munfold.
  repeat (case_match; simpl in *; simplify_eq);
    eexists; (split; [reflexivity|]); (split; [by repeat split|]); simpl;
    (split; [first [done | intros k Hk; by apply content_iptc_save]|]);
    (split; [eexists; rewrite <- ?app_assoc; reflexivity|]);
    rewrite ?in_app_iff; simpl; tauto.
Qed.

(** The JPEG file the converter writes for a picture. *)
Definition jpeg_of (i : image) : file :=
  mk_file (Picture JPEG (RGB i)) no_exif no_iptc [].

Lemma convert_webp_to_jpg_ok env image_path st f fmt i :
  lower (suffix image_path) = ".webp" ->
  fs st !! str image_path = Some f ->
  f_content f = Picture fmt i ->
  can_save env (mkPath (parent image_path) (stem image_path +:+ ".jpg")) = true ->
  convert_webp_to_jpg env image_path st
  = (Ok (Some (mkPath (parent image_path) (stem image_path +:+ ".jpg")), true),
     logged (with_fs st (<[str (mkPath (parent image_path)
                                       (stem image_path +:+ ".jpg"))
                           := jpeg_of i]> (fs st)))
            INFO (Converted image_path)).
Proof.
  intros Hw Hf Hc Hs. unfold convert_webp_to_jpg.
  rewrite Hw. change (String.eqb ".webp" ".webp") with true. cbv iota.
  rewrite (webp_with_suffix _ _ Hw). munfold. rewrite Hf. simpl.
  rewrite Hc. simpl. rewrite Hs. done.
Qed.

(** *** One round of the combine pass *)

(** Where the combined picture of an artifact goes. *)
Definition combined_path (a : artifact) : Path :=
  mkPath output_folder_combined
         (split_head "_" (stem (a_path a)) +:+ "_combined.webp").

Definition combined_jpg_path (a : artifact) : Path :=
  mkPath output_folder_combined
         (split_head "_" (stem (a_path a)) +:+ "_combined.jpg").

Lemma rfind_webp (x : string) :
  rfind "." (x +:+ ".webp") = Some (String.length x).
Proof.
  induction x as [|a x IH]; [done|].
  change (String a x +:+ ".webp") with (String a (x +:+ ".webp")).
  simpl. by rewrite IH.
Qed.

Lemma take_str_length (x y : string) : take_str (String.length x) (x +:+ y) = x.
Proof.
  induction x as [|a x IH]; [by destruct y|].
  change (String a x +:+ y) with (String a (x +:+ y)). simpl. by rewrite IH.
Qed.

Lemma drop_str_length (x y : string) : drop_str (String.length x) (x +:+ y) = y.
Proof.
  induction x as [|a x IH]; [by destruct y|].
  change (String a x +:+ y) with (String a (x +:+ y)). simpl. by rewrite IH.
Qed.

Lemma webp_name (d x : string) :
  x <> "" ->
  suffix (mkPath d (x +:+ ".webp")) = ".webp"
  /\ stem (mkPath d (x +:+ ".webp")) = x.
Proof.
  intros Hx. unfold suffix, stem. simpl name. rewrite rfind_webp.
  rewrite length_app_str. simpl String.length.
  assert (0 < String.length x)%nat by (destruct x; [done|simpl; lia]).
  destruct (Nat.ltb_spec 0 (String.length x)); [|lia].
  destruct (Nat.ltb_spec (String.length x) (String.length x + 5 - 1)); [|lia].
  simpl andb. cbv iota.
  by rewrite take_str_length, drop_str_length.
Qed.

Lemma combined_path_webp (a : artifact) :
  suffix (combined_path a) = ".webp"
  /\ with_suffix (combined_path a) ".jpg" = Ok (combined_jpg_path a).
Proof.
  unfold combined_path, combined_jpg_path.
  set (t := split_head "_" (stem (a_path a))).
  change (t +:+ "_combined.webp") with (t +:+ ("_combined" +:+ ".webp")).
  rewrite <- app_assoc_str.
  destruct (webp_name output_folder_combined (t +:+ "_combined")) as [S1 S2].
  { intros E. apply (f_equal String.length) in E.
    rewrite length_app_str in E. simpl in E. lia. }
  split; [done|].
  rewrite (webp_with_suffix _ ".jpg") by (by rewrite S1).
  simpl parent. rewrite S2. by rewrite app_assoc_str.
Qed.

Lemma str_combined (n : string) :
  str (mkPath output_folder_combined n) = "out/__combined/" +:+ n.
Proof. reflexivity. Qed.

Lemma neq_backup (s : string) : s <> s +:+ "~".
Proof.
  intros E. apply (f_equal String.length) in E.
  rewrite length_app_str in E. simpl in E. lia.
Qed.

Lemma combined_keys (a : artifact) :
  str (combined_path a) <> str (combined_jpg_path a)
  /\ str (combined_path a) <> str (combined_jpg_path a) +:+ "~"
  /\ str (combined_path a) <> "None" +:+ "~".
Proof.
  unfold combined_path, combined_jpg_path. rewrite !str_combined.
  set (t := split_head "_" (stem (a_path a))).
  split; [|split].
  - intros E. apply (inj _) in E. apply (inj _) in E. discriminate.
  - rewrite !app_assoc_str. intros E.
    apply (inj _) in E. apply (inj _) in E. discriminate.
  - discriminate.
Qed.

Lemma content_at_logged st l m k : content_at (logged st l m) k = content_at st k.
Proof. reflexivity. Qed.

(** One round of the combine pass whose two pictures decode and whose
    combined file can be written. *)
Lemma combine_pair_run env cfg a s st fa fb fmt1 fmt2 ip isec :
  fs st !! str (a_path a) = Some fa -> f_content fa = Picture fmt1 ip ->
  fs st !! str s = Some fb -> f_content fb = Picture fmt2 isec ->
  can_save env (combined_path a) = true ->
  exists st', combine_pair env cfg a s st = (Ok tt, st')
    /\ content_at st' (str (combined_path a))
       = Some (Picture JPEG (Combined ip isec))
    /\ combined_files_count st' = S (combined_files_count st)
    /\ log_grows st st'
    /\ (convert_to_jpeg cfg = true ->
        can_save env (combined_jpg_path a) = true ->
        content_at st' (str (combined_jpg_path a))
        = Some (Picture JPEG (RGB (Combined ip isec)))
        /\ In (INFO, MetadataAddedConverted) (log st')
        /\ (In (INFO, UpdatedExif (combined_jpg_path a)) (log st')
            \/ In (ERROR, FailedExif (Some (combined_jpg_path a))) (log st'))
        /\ (In (INFO, UpdatedIptc (str (combined_jpg_path a))) (log st')
            \/ In (ERROR, FailedIptc (str (combined_jpg_path a))) (log st'))).
Proof.
  intros Ha Hca Hb Hcb Hsave.
  destruct (combined_keys a) as (N1 & N2 & N3).
  destruct (combined_path_webp a) as (Sw & Wj).
  unfold combine_pair. cbv zeta.
  assert (J : joinpath output_folder_combined
                (split_head "_" (stem (a_path a)) +:+ "_combined.webp")
              = combined_path a).
  { unfold joinpath, combined_path.
    destruct (String.eqb_spec (split_head "_" (stem (a_path a)) +:+ "_combined.webp") "")
      as [E|]; [|done].
    apply (f_equal String.length) in E. rewrite length_app_str in E. simpl in E. lia. }
  rewrite J.
  set (K := combined_path a) in *.
  set (img := Combined ip isec).
  set (kf := mk_file (Picture JPEG img) no_exif no_iptc []).
  assert (C : combine_images_with_resizing (a_path a) s st = (Ok img, st)).
  { unfold combine_images_with_resizing. munfold. rewrite Ha. simpl. rewrite Hca.
    simpl. rewrite Hb. simpl. by rewrite Hcb. }
  rewrite (bind_run_Ok _ _ _ _ _ C).
  set (st1 := with_fs st (<[str K := kf]> (fs st))).
  assert (S1 : Image_save_jpeg env img K st = (Ok tt, st1)).
  { unfold Image_save_jpeg. by rewrite Hsave. }
  rewrite (bind_run_Ok _ _ _ _ _ S1).
  set (st2 := (incr_combined st1).2).
  assert (S2 : incr_combined st1 = (Ok tt, st2)) by done.
  rewrite (bind_run_Ok _ _ _ _ _ S2).
  set (st3 := logged st2 INFO (CombinedSaved K)).
  assert (S3 : logging INFO (CombinedSaved K) st2 = (Ok tt, st3)) by done.
  rewrite (bind_run_Ok _ _ _ _ _ S3).
  assert (C3 : content_at st3 (str K) = Some (Picture JPEG img)).
  { unfold content_at. simpl. by rewrite lookup_insert_eq. }
  assert (L3 : log_grows st st3) by (by exists [(INFO, CombinedSaved K)]).
  destruct (update_exif_frame env (Some K) (a_taken_at a) (a_location a)
              (a_caption a) st3) as (st4 & R4 & SC4 & F4 & L4 & _).
  rewrite (bind_run_Ok _ _ _ _ _ R4).
  set (st5 := logged st4 INFO MetadataAddedCombined).
  assert (S5 : logging INFO MetadataAddedCombined st4 = (Ok tt, st5)) by done.
  rewrite (bind_run_Ok _ _ _ _ _ S5).
  destruct (update_iptc_frame env (str K) (a_caption a) st5)
    as (st6 & R6 & SC6 & F6 & L6 & _).
  rewrite (bind_run_Ok _ _ _ _ _ R6).
  assert (C6 : content_at st6 (str K) = Some (Picture JPEG img)).
  { rewrite F6 by apply neq_backup. unfold st5. rewrite content_at_logged, F4. done. }
  assert (N6 : combined_files_count st6 = S (combined_files_count st)).
  { destruct SC4 as (_ & _ & E4 & _), SC6 as (_ & _ & E6 & _).
    rewrite E6. simpl. by rewrite E4. }
  assert (G6 : log_grows st st6).
  { eapply log_grows_trans; [|exact L6].
    eapply log_grows_trans; [|by exists [(INFO, MetadataAddedCombined)]].
    eapply log_grows_trans; [exact L3|exact L4]. }
  destruct (convert_to_jpeg cfg) eqn:Hconv.
  2:{ exists st6. split; [done|]. split; [done|]. split; [done|]. split; [done|].
      intros; done. }
  unfold content_at in C6.
  destruct (fs st6 !! str K) as [f6|] eqn:E6; [|done].
  simpl in C6. injection C6 as C6.
  destruct (can_save env (combined_jpg_path a)) eqn:Hsj.
  - pose proof (convert_webp_to_jpg_ok env K st6 f6 JPEG img) as R7.
    rewrite Sw in R7. specialize (R7 eq_refl E6 C6).
    assert (Epath : mkPath (parent K) (stem K +:+ ".jpg") = combined_jpg_path a).
    { unfold with_suffix in Wj. destruct (String.eqb (name K) ""); congruence. }
    rewrite Epath in R7. specialize (R7 Hsj).
    set (Jp := combined_jpg_path a) in *.
    set (st7 := logged (with_fs st6 (<[str Jp := jpeg_of img]> (fs st6)))
                       INFO (Converted K)) in *.
    rewrite (bind_run_Ok _ _ _ _ _ R7). cbv iota beta.
    destruct (update_exif_frame env (Some Jp) (a_taken_at a) (a_location a)
                (a_caption a) st7) as (st8 & R8 & SC8 & F8 & L8 & X8).
    rewrite (bind_run_Ok _ _ _ _ _ R8).
    set (st9 := logged st8 INFO MetadataAddedConverted).
    assert (S9 : logging INFO MetadataAddedConverted st8 = (Ok tt, st9)) by done.
    rewrite (bind_run_Ok _ _ _ _ _ S9).
    destruct (update_iptc_frame env (str Jp) (a_caption a) st9)
      as (st10 & R10 & SC10 & F10 & L10 & X10).
    rewrite (bind_run_Ok _ _ _ _ _ R10).
    exists st10. split; [done|].
    assert (G9 : log_grows st8 st9) by (by exists [(INFO, MetadataAddedConverted)]).
    split; [|split; [|split]].
    + rewrite F10 by done. unfold st9. rewrite content_at_logged, F8.
      unfold content_at, st7. simpl. rewrite lookup_insert_ne by done.
      rewrite E6. simpl. by rewrite C6.
    + destruct SC8 as (_ & _ & E8 & _), SC10 as (_ & _ & E10 & _).
      rewrite E10. simpl. rewrite E8. simpl. done.
    + eapply log_grows_trans; [|exact L10].
      eapply log_grows_trans; [|exact G9].
      eapply log_grows_trans; [|exact L8].
      eapply log_grows_trans; [exact G6|]. by exists [(INFO, Converted K)].
    + intros _ _. split; [|split; [|split]].
      * rewrite F10 by apply neq_backup. unfold st9. rewrite content_at_logged, F8.
        unfold content_at, st7. simpl. by rewrite lookup_insert_eq.
      * apply (log_grows_In st9 st10); [done|].
        unfold st9. simpl. apply in_or_app. right. by left.
      * destruct (X8 Jp eq_refl) as [H|H]; [left|right];
          apply (log_grows_In st9 st10); try done;
          apply (log_grows_In st8 st9); done.
      * done.
  - assert (F : conversion_fails env K st6).
    { unfold conversion_fails. rewrite E6, C6.
      unfold with_suffix in Wj. destruct (String.eqb (name K) ""); congruence. }
    assert (Swl : lower (suffix K) = ".webp") by (by rewrite Sw).
    rewrite (bind_run_Ok _ _ _ _ _ (convert_webp_to_jpg_fails env K st6 Swl F)).
    cbv iota beta.
    set (st7 := logged st6 ERROR (ErrorConverting K)).
    destruct (update_exif_frame env None (a_taken_at a) (a_location a)
                (a_caption a) st7) as (st8 & R8 & SC8 & F8 & L8 & _).
    rewrite (bind_run_Ok _ _ _ _ _ R8).
    set (st9 := logged st8 INFO MetadataAddedConverted).
    assert (S9 : logging INFO MetadataAddedConverted st8 = (Ok tt, st9)) by done.
    rewrite (bind_run_Ok _ _ _ _ _ S9).
    destruct (update_iptc_frame env "None" (a_caption a) st9)
      as (st10 & R10 & SC10 & F10 & L10 & _).
    rewrite (bind_run_Ok _ _ _ _ _ R10).
    exists (logged st10 ERROR (FailedConvertCombined K)). split; [done|].
    split; [|split; [|split]].
    + rewrite content_at_logged, F10 by done. unfold st9.
      rewrite content_at_logged, F8.
      unfold content_at, st7. simpl. rewrite E6. simpl. by rewrite C6.
    + simpl. destruct SC8 as (_ & _ & E8 & _), SC10 as (_ & _ & E10 & _).
      rewrite E10. simpl. rewrite E8. simpl. done.
    + eapply log_grows_trans; [|by exists [(ERROR, FailedConvertCombined K)]].
      eapply log_grows_trans; [|exact L10].
      eapply log_grows_trans; [|by exists [(INFO, MetadataAddedConverted)]].
      eapply log_grows_trans; [|exact L8].
      eapply log_grows_trans; [exact G6|]. by exists [(ERROR, ErrorConverting K)].
    + intros _ ?. done.
Qed.

(** C9. The combined picture of a recorded primary goes to
    [{timestamp}_combined.webp] in the combined folder, the timestamp
    being the capture time in the form of the file names; the path is not
    deduplicated, so two recorded primaries whose capture times render
    alike share it, and the round for the later one replaces the file that
    is there with its own picture while the counter of combined files goes
    up all the same. *)
Theorem combined_path_collision env cfg data files a b :
  In a (primary_images (for_each (process_entry env cfg) data (initial files)).2) ->
  In b (primary_images (for_each (process_entry env cfg) data (initial files)).2) ->
  strftime_name (a_taken_at a) = strftime_name (a_taken_at b) ->
  combined_path a
  = mkPath output_folder_combined
           (strftime_name (a_taken_at a) +:+ "_combined.webp")
  /\ combined_path b = combined_path a
  /\ forall s st0 old fa fb fmt1 fmt2 ip isec,
       fs st0 !! str (combined_path a) = Some old ->
       fs st0 !! str (a_path b) = Some fa -> f_content fa = Picture fmt1 ip ->
       fs st0 !! str s = Some fb -> f_content fb = Picture fmt2 isec ->
       can_save env (combined_path b) = true ->
       exists st1, combine_pair env cfg b s st0 = (Ok tt, st1)
         /\ content_at st1 (str (combined_path a))
            = Some (Picture JPEG (Combined ip isec))
         /\ combined_files_count st1 = S (combined_files_count st0).
Proof.
  intros Ia Ib Et.
  pose proof (main_loop_recorded env cfg data files) as Hrec.
  rewrite Forall_forall in Hrec.
  pose proof (recorded_timestamp a (Hrec a ltac:(by apply list_elem_of_In))) as Ta.
  pose proof (recorded_timestamp b (Hrec b ltac:(by apply list_elem_of_In))) as Tb.
  assert (Eab : combined_path b = combined_path a).
  { unfold combined_path. by rewrite Ta, Tb, Et. }
  split; [unfold combined_path; by rewrite Ta|]. split; [done|].
  intros s st0 old fa fb fmt1 fmt2 ip isec _ Ha Hca Hb Hcb Hs.
  destruct (combine_pair_run env cfg b s st0 fa fb fmt1 fmt2 ip isec
              Ha Hca Hb Hcb Hs) as (st1 & R & C & N & _).
  exists st1. rewrite <- Eab. done.
Qed.

(** *** Scenarios *)

(** A WebP file that shows [i]. *)
Definition webp (i : image) : file := mk_file (Picture WEBP i) no_exif no_iptc [].

(** An environment where the encoder and the metadata writers work and
    no transcoder is installed. *)
Definition quiet (zi : option zoneinfo) : environment :=
  mk_environment zi (fun _ => Raise ValueError) (fun _ => true) (fun _ => true)
    (fun _ => true) (fun _ => true) None.

(** The same, and a transcoder is installed. *)
Definition transcoding (run : list string -> file -> completed) : environment :=
  mk_environment None (fun _ => Raise ValueError) (fun _ => true) (fun _ => true)
    (fun _ => true) (fun _ => true) (Some run).

(** The default settings: convert, do not keep the original name, and
    combine. *)
Definition default_settings : config := mk_config true false true.

Definition paris : entry :=
  mk_entry (Some "/Photos/user/post/p1.webp") (Some "/Photos/user/post/s1.webp")
           (Some "2024-07-15T12:00:00.000Z")
           (Some (mk_location (Some (Some 48.8566%float))
                              (Some (Some 2.3522%float))))
           (Some "Paris") None.

Definition paris_files (ip isec : image) : gmap string file :=
  <["resources/data/Photos/post/p1.webp" := webp ip]>
  (<["resources/data/Photos/post/s1.webp" := webp isec]> ∅).

Definition paris_run (zi : option zoneinfo) (ip isec : image) : state :=
  (main (quiet zi) default_settings (Some [paris]) (initial (paris_files ip isec))).2.

Definition paris_gps (seconds_of_longitude : Z) : gps_ifd :=
  mk_gps "N" ((48, 1), (51, 1), (2376, 100))%Z
         "E" ((2, 1), (21, 1), (seconds_of_longitude, 100))%Z.

Definition paris_exif (seconds_of_longitude : Z) : exif_dict :=
  mk_exif (Some "Paris") (Some "2024:07:15 14:00:00")
          (Some (paris_gps seconds_of_longitude)).

(** C1 (amended). The run on the one record of the scenario, with or
    without the timezone database, leaves
    [2024-07-15T12-00-00_primary.jpg] and
    [2024-07-15T12-00-00_secondary.jpg] (the capture time in UTC) in the
    output folder: JPEG conversions of the two pictures, each with the
    EXIF capture time 2024:07:15 14:00:00, the title Paris, and the
    position N 48 deg 51' 23.76'', E 2 deg 21' 7.91''. *)
Theorem paris_scenario (ip isec : image) :
  forall zi, In zi [None; Some tzdata] ->
  fs (paris_run zi ip isec) !! "out/__processed/2024-07-15T12-00-00_primary.jpg"
  = Some (mk_file (Picture JPEG (RGB ip)) (paris_exif 791)
                  (mk_iptc (Some "Paris") (Some source_app) (Some processing_tool)) [])
  /\ fs (paris_run zi ip isec) !! "out/__processed/2024-07-15T12-00-00_secondary.jpg"
     = Some (mk_file (Picture JPEG (RGB isec)) (paris_exif 791)
                     (mk_iptc (Some "Paris") (Some source_app) (Some processing_tool)) [])
  /\ processed_files_count (paris_run zi ip isec) = 2%nat
  /\ skipped_files_count (paris_run zi ip isec) = 0%nat.
Proof.
  intros zi [<-|[<-|[]]]; vm_compute; done.
Qed.

(** Witness of [paris_scenario]. *)
Lemma paris_scenario_witness :
  In (Some tzdata) [None; Some tzdata]
  /\ fs (paris_run (Some tzdata) (Pixels "p") (Pixels "s"))
       !! "out/__processed/2024-07-15T12-00-00_primary.jpg"
     = Some (mk_file (Picture JPEG (RGB (Pixels "p"))) (paris_exif 791)
               (mk_iptc (Some "Paris") (Some source_app) (Some processing_tool)) [])
  /\ fs (paris_run (Some tzdata) (Pixels "p") (Pixels "s"))
       !! "out/__processed/2024-07-15T12-00-00_secondary.jpg"
     = Some (mk_file (Picture JPEG (RGB (Pixels "s"))) (paris_exif 791)
               (mk_iptc (Some "Paris") (Some source_app) (Some processing_tool)) [])
  /\ processed_files_count (paris_run (Some tzdata) (Pixels "p") (Pixels "s")) = 2%nat
  /\ skipped_files_count (paris_run (Some tzdata) (Pixels "p") (Pixels "s")) = 0%nat.
Proof.
  assert (H : In (Some tzdata) [None; Some tzdata]) by (right; left; reflexivity).
  exact (conj H (paris_scenario (Pixels "p") (Pixels "s") (Some tzdata) H)).
Defined.

(** The scenario as C1 states it: the names carry the capture time in
    German time, and the seconds of the longitude are 7.92. *)
Definition paris_claim (st : state) : Prop :=
  exists f g,
    fs st !! "out/__processed/2024-07-15T14-00-00_primary.jpg" = Some f
    /\ fs st !! "out/__processed/2024-07-15T14-00-00_secondary.jpg" = Some g
    /\ f_exif f = paris_exif 792 /\ f_exif g = paris_exif 792.

(** C1 (counterexample). No file of that name is written. *)
Lemma paris_scenario_counterexample :
  ~ paris_claim (paris_run (Some tzdata) (Pixels "p") (Pixels "s")).
Proof.
  intros (f & g & Hf & _). vm_compute in Hf. discriminate.
Qed.

(** The seconds of the longitude, too, differ from the claim's. *)
Example paris_longitude :
  gps_block 48.8566%float 2.3522%float = Ok (paris_gps 791).
Proof. vm_compute. reflexivity. Qed.

(** *** A missing secondary file *)

Definition noon : datetime := mkdatetime 2024 7 15 12 0 0 0 (Some UTC).

Definition s1_path : Path := mkPath photo_folder "s1.webp".

(** Witness of [missing_secondary]: the default settings and an empty
    input folder. *)
Lemma missing_secondary_witness :
  exists_ (fs (initial ∅)) s1_path = false
  /\ process_file (quiet None) default_settings noon None None s1_path
       secondary (initial ∅)
     = (if convert_to_jpeg default_settings
           && String.eqb (lower (suffix s1_path)) ".webp"
        then (Ok tt, skipped_one (logged (logged (initial ∅) INFO (FoundImage s1_path))
                                         ERROR (ErrorConverting s1_path)))
        else (Raise FileNotFoundError, logged (initial ∅) INFO (FoundImage s1_path)))
  /\ (forall e st0 x st1,
        entry_body (quiet None) default_settings e st0 = (Raise x, st1) ->
        process_entry (quiet None) default_settings e st0
        = (Ok tt, logged st1 ERROR (ErrorProcessingEntry e)))
  /\ (forall e data st0,
        exists st1, process_entry (quiet None) default_settings e st0 = (Ok tt, st1)
          /\ for_each (process_entry (quiet None) default_settings) (e :: data) st0
             = for_each (process_entry (quiet None) default_settings) data st1).
Proof.
  assert (H : exists_ (fs (initial ∅)) s1_path = false) by reflexivity.
  exact (conj H (missing_secondary (quiet None) default_settings noon None None
                   s1_path (initial ∅) H)).
Defined.

(** C4 as it is written: the step for a missing secondary file leaves
    both counters alone. *)
Definition missing_secondary_claim : Prop :=
  forall env cfg taken_at location caption path st r st',
    exists_ (fs st) path = false ->
    process_file env cfg taken_at location caption path secondary st = (r, st') ->
    processed_files_count st' = processed_files_count st
    /\ skipped_files_count st' = skipped_files_count st.

(** C4 (counterexample). With the default settings the missing
    [s1.webp] is counted as skipped. *)
Lemma missing_secondary_counterexample : ~ missing_secondary_claim.
Proof.
  intros C.
  assert (H1 : exists_ (fs (initial ∅)) s1_path = false) by reflexivity.
  assert (H2 : process_file (quiet None) default_settings noon None None s1_path
                 secondary (initial ∅)
               = (Ok tt,
                  skipped_one (logged (logged (initial ∅) INFO (FoundImage s1_path))
                                      ERROR (ErrorConverting s1_path))))
    by (vm_compute; reflexivity).
  destruct (C _ _ _ _ _ _ _ _ _ H1 H2) as [_ H].
  discriminate H.
Qed.

(** A file that is not a picture. *)
Definition broken_files : gmap string file :=
  <["resources/data/Photos/post/s1.webp" := mk_file Corrupt no_exif no_iptc []]> ∅.

(** *** A video without a transcoder *)

Definition clip : file := mk_file (Video "clip") no_exif no_iptc [].

Definition clip_files : gmap string file := <["resources/data/clip.mp4" := clip]> ∅.

(** Witness of [bts_fallback]. *)
Lemma bts_fallback_witness :
  "/Photos/user/bts/clip.mp4" <> ""
  /\ exists_ (fs (initial clip_files))
       (joinpath data_folder (name (Path_of_string "/Photos/user/bts/clip.mp4")))
     = true
  /\ lower (suffix (joinpath data_folder
                      (name (Path_of_string "/Photos/user/bts/clip.mp4"))))
     = ".mp4"
  /\ transcoder_fails (quiet None)
  /\ ((forall i o st0, exists st1 m,
         update_mp4_metadata (quiet None) i o noon None st0 = (Ok false, st1)
         /\ log st1 = (log st0 ++ [(ERROR, m)])%list)
      /\ exists bts_new_path st',
        process_bts (quiet None) default_settings noon None
          (Some "/Photos/user/bts/clip.mp4") (initial clip_files) = (Ok tt, st')
        /\ first_free (fs (initial clip_files))
             (mkPath output_folder
                (bts_name default_settings noon
                   (joinpath data_folder
                      (name (Path_of_string "/Photos/user/bts/clip.mp4")))))
             bts_new_path
        /\ fs st' !! str bts_new_path
           = fs (initial clip_files)
               !! str (joinpath data_folder
                         (name (Path_of_string "/Photos/user/bts/clip.mp4")))
        /\ processed_files_count st'
           = S (processed_files_count (initial clip_files))
        /\ skipped_files_count st' = skipped_files_count (initial clip_files)
        /\ In (ERROR, CopiedBtsWithoutMetadata bts_new_path) (log st')).
Proof.
  assert (H1 : "/Photos/user/bts/clip.mp4" <> "") by discriminate.
  assert (H2 : exists_ (fs (initial clip_files))
                 (joinpath data_folder
                    (name (Path_of_string "/Photos/user/bts/clip.mp4"))) = true)
    by (vm_compute; reflexivity).
  assert (H3 : lower (suffix (joinpath data_folder
                    (name (Path_of_string "/Photos/user/bts/clip.mp4")))) = ".mp4")
    by (vm_compute; reflexivity).
  assert (H4 : transcoder_fails (quiet None)) by exact I.
  exact (conj H1 (conj H2 (conj H3 (conj H4
           (bts_fallback (quiet None) default_settings noon None
              "/Photos/user/bts/clip.mp4" (initial clip_files) H1 H2 H3 H4))))).
Defined.

(** *** Two records *)

Definition record (p s t : string) : entry :=
  mk_entry (Some p) (Some s) (Some t) None None None.

Definition monday : entry :=
  record "/Photos/user/post/p1.webp" "/Photos/user/post/s1.webp"
         "2024-07-15T12:00:00.000Z".

Definition tuesday : entry :=
  record "/Photos/user/post/p2.webp" "/Photos/user/post/s2.webp"
         "2024-07-16T12:00:00.000Z".

(** The input folder of the two records; the first primary file is there
    but is not a picture. *)
Definition two_days_files (s1 p2 s2 : image) : gmap string file :=
  <["resources/data/Photos/post/p1.webp" := mk_file Corrupt no_exif no_iptc []]>
  (<["resources/data/Photos/post/s1.webp" := webp s1]>
  (<["resources/data/Photos/post/p2.webp" := webp p2]>
  (<["resources/data/Photos/post/s2.webp" := webp s2]> ∅))).

Definition two_days_run (s1 p2 s2 : image) : state :=
  (main (quiet None) default_settings (Some [monday; tuesday])
        (initial (two_days_files s1 p2 s2))).2.

(** C8 (divergence). With conversion enabled and the first record's
    primary file undecodable, the main loop skips that file and records
    the first record's secondary all the same; the combine pass then pairs
    the second record's primary with the first record's secondary. The one
    combined picture of the run carries Tuesday's name and shows Tuesday's
    primary beside Monday's secondary; Tuesday's secondary is in no
    combined picture. *)
Theorem combine_pass_misaligned (s1 p2 s2 : image) :
  map a_path (primary_images (two_days_run s1 p2 s2))
  = [mkPath output_folder "2024-07-16T12-00-00_primary.jpg"]
  /\ secondary_images (two_days_run s1 p2 s2)
     = [mkPath output_folder "2024-07-15T12-00-00_secondary.jpg";
        mkPath output_folder "2024-07-16T12-00-00_secondary.jpg"]
  /\ content_at (two_days_run s1 p2 s2)
       "out/__combined/2024-07-16T12-00-00_combined.webp"
     = Some (Picture JPEG (Combined (RGB p2) (RGB s1)))
  /\ combined_files_count (two_days_run s1 p2 s2) = 1%nat
  /\ skipped_files_count (two_days_run s1 p2 s2) = 1%nat.
Proof. vm_compute. done. Qed.

(** *** Two records of the same second *)

Definition first_shot : entry :=
  record "/Photos/user/post/p1.webp" "/Photos/user/post/s1.webp"
         "2024-07-15T12:00:00.000Z".

Definition second_shot : entry :=
  record "/Photos/user/post/p2.webp" "/Photos/user/post/s2.webp"
         "2024-07-15T12:00:00.500Z".

Definition same_second_files : gmap string file :=
  <["resources/data/Photos/post/p1.webp" := webp (Pixels "p1")]>
  (<["resources/data/Photos/post/s1.webp" := webp (Pixels "s1")]>
  (<["resources/data/Photos/post/p2.webp" := webp (Pixels "p2")]>
  (<["resources/data/Photos/post/s2.webp" := webp (Pixels "s2")]> ∅))).

Definition first_artifact : artifact :=
  mk_artifact (mkPath output_folder "2024-07-15T12-00-00_primary.jpg")
              (mkdatetime 2024 7 15 12 0 0 0 (Some UTC)) None None.

Definition second_artifact : artifact :=
  mk_artifact (mkPath output_folder "2024-07-15T12-00-00_primary_1.jpg")
              (mkdatetime 2024 7 15 12 0 0 500000 (Some UTC)) None None.

(** Witness of [combined_path_collision]: the two primaries of
    [first_shot] and [second_shot], taken half a second apart. *)
Lemma combined_path_collision_witness :
  In first_artifact
     (primary_images (for_each (process_entry (quiet None) default_settings)
                               [first_shot; second_shot]
                               (initial same_second_files)).2)
  /\ In second_artifact
        (primary_images (for_each (process_entry (quiet None) default_settings)
                                  [first_shot; second_shot]
                                  (initial same_second_files)).2)
  /\ strftime_name (a_taken_at first_artifact)
     = strftime_name (a_taken_at second_artifact)
  /\ combined_path first_artifact
     = mkPath output_folder_combined
              (strftime_name (a_taken_at first_artifact) +:+ "_combined.webp")
  /\ combined_path second_artifact = combined_path first_artifact
  /\ forall s st0 old fa fb fmt1 fmt2 ip isec,
       fs st0 !! str (combined_path first_artifact) = Some old ->
       fs st0 !! str (a_path second_artifact) = Some fa ->
       f_content fa = Picture fmt1 ip ->
       fs st0 !! str s = Some fb -> f_content fb = Picture fmt2 isec ->
       can_save (quiet None) (combined_path second_artifact) = true ->
       exists st1,
         combine_pair (quiet None) default_settings second_artifact s st0
         = (Ok tt, st1)
         /\ content_at st1 (str (combined_path first_artifact))
            = Some (Picture JPEG (Combined ip isec))
         /\ combined_files_count st1 = S (combined_files_count st0).
Proof.
  assert (H1 : In first_artifact
     (primary_images (for_each (process_entry (quiet None) default_settings)
                               [first_shot; second_shot]
                               (initial same_second_files)).2))
    by (vm_compute; left; reflexivity).
  assert (H2 : In second_artifact
     (primary_images (for_each (process_entry (quiet None) default_settings)
                               [first_shot; second_shot]
                               (initial same_second_files)).2))
    by (vm_compute; right; left; reflexivity).
  assert (H3 : strftime_name (a_taken_at first_artifact)
               = strftime_name (a_taken_at second_artifact))
    by (vm_compute; reflexivity).
  exact (conj H1 (conj H2 (conj H3
           (combined_path_collision (quiet None) default_settings
              [first_shot; second_shot] same_second_files
              first_artifact second_artifact H1 H2 H3)))).
Defined.

(** *** Two pictures to combine *)

Definition pair_files : gmap string file :=
  <["out/__processed/2024-07-15T12-00-00_primary.jpg" := jpeg_of (Pixels "p")]>
  (<["out/__processed/2024-07-15T12-00-00_secondary.jpg" := jpeg_of (Pixels "s")]> ∅).

Definition secondary_jpg : Path :=
  mkPath output_folder "2024-07-15T12-00-00_secondary.jpg".

(** ** More of the script *)

(** *** Records that cannot be read *)

(** What the head of the [try] of a record needs: the two paths and a
    capture time that [datetime.strptime] reads with the format
    [%Y-%m-%dT%H:%M:%S.%fZ]. *)
Definition readable (env : environment) (e : entry) : bool :=
  match e_primary e, e_secondary e, e_takenAt e with
  | Some _, Some _, Some t =>
      match datetime_strptime env t with
      | Ok _ => true
      | Raise _ => false
      end
  | _, _, _ => false
  end.

(** X1. A record without a primary path, without a secondary path,
    without a capture time, or with a capture time that
    [datetime.strptime] does not read with the format
    [%Y-%m-%dT%H:%M:%S.%fZ], is given up as a whole before any of its
    files is looked at: one error line is logged for the record, and no
    file and no counter changes (the primary picture of a record that only
    lacks its secondary is not processed either). *)
Theorem unreadable_record env cfg e st :
  readable env e = false ->
  process_entry env cfg e st = (Ok tt, logged st ERROR (ErrorProcessingEntry e)).
Proof.
  unfold readable. intros H. unfold process_entry, entry_body.
  destruct (e_primary e) as [p|] eqn:Ep; [|done].
  destruct (e_secondary e) as [s|] eqn:Es; [|done].
  destruct (e_takenAt e) as [t|] eqn:Et.
  2:{ unfold key. munfold. by destruct (negb _). }
  destruct (datetime_strptime env t) as [d|x] eqn:Ed; [done|].
  unfold key. munfold. destruct (negb _); by rewrite Ed.
Qed.

(** A record whose capture time has no fraction of a second. *)
Definition whole_second : entry :=
  mk_entry (Some "/Photos/user/post/p1.webp") (Some "/Photos/user/post/s1.webp")
           (Some "2024-07-15T12:00:00Z") None None None.

(** Witness of [unreadable_record]. *)
Lemma unreadable_record_witness :
  readable (quiet None) whole_second = false
  /\ process_entry (quiet None) default_settings whole_second
       (initial (paris_files (Pixels "p") (Pixels "s")))
     = (Ok tt, logged (initial (paris_files (Pixels "p") (Pixels "s"))) ERROR
                      (ErrorProcessingEntry whole_second)).
Proof.
  assert (H : readable (quiet None) whole_second = false)
    by (vm_compute; reflexivity).
  exact (conj H (unreadable_record (quiet None) default_settings whole_second
                   (initial (paris_files (Pixels "p") (Pixels "s"))) H)).
Defined.

(** *** Videos that are left alone *)

(** X2. A record's video reference is dropped without a trace when it is
    empty, when no file of that name is in the data folder, or when the
    name does not end in .mp4 (in any case): nothing is copied, nothing is
    logged, and neither the processed nor the skipped counter moves. *)
Theorem bts_ignored env cfg taken_at location bts_media st :
  match bts_media with
  | Some m =>
      m = ""
      \/ exists_ (fs st) (joinpath data_folder (name (Path_of_string m))) = false
      \/ lower (suffix (joinpath data_folder (name (Path_of_string m)))) <> ".mp4"
  | None => True
  end ->
  process_bts env cfg taken_at location bts_media st = (Ok tt, st).
Proof.
  intros H. unfold process_bts. destruct bts_media as [m|]; [|done].
  destruct (truthy (Some m)) eqn:T; [|done].
  destruct H as [->|[H|H]]; [done| |].
  - munfold. by rewrite H.
  - munfold. destruct (String.eqb_spec
      (lower (suffix (joinpath data_folder (name (Path_of_string m))))) ".mp4");
      [done|]. by rewrite andb_false_r.
Qed.

(** Witness of [bts_ignored]: a video in another container. *)
Lemma bts_ignored_witness :
  ("/Photos/user/bts/clip.mov" = ""
   \/ exists_ (fs (initial clip_files))
        (joinpath data_folder (name (Path_of_string "/Photos/user/bts/clip.mov")))
      = false
   \/ lower (suffix (joinpath data_folder
                       (name (Path_of_string "/Photos/user/bts/clip.mov"))))
      <> ".mp4")
  /\ process_bts (quiet None) default_settings noon None
       (Some "/Photos/user/bts/clip.mov") (initial clip_files)
     = (Ok tt, initial clip_files).
Proof.
  assert (H : "/Photos/user/bts/clip.mov" = ""
   \/ exists_ (fs (initial clip_files))
        (joinpath data_folder (name (Path_of_string "/Photos/user/bts/clip.mov")))
      = false
   \/ lower (suffix (joinpath data_folder
                       (name (Path_of_string "/Photos/user/bts/clip.mov"))))
      <> ".mp4") by (right; left; vm_compute; reflexivity).
  exact (conj H (bts_ignored (quiet None) default_settings noon None
                   (Some "/Photos/user/bts/clip.mov") (initial clip_files) H)).
Defined.

(** *** What a run can add to a counter *)

(** [m] adds at most [k] to the measure [c], whether it returns or
    raises. *)
Definition bounded {A} (c : state -> nat) (m : M A) (k : nat) : Prop :=
  forall st, c (m st).2 <= c st + k.

Section Bounded.
Variable c : state -> nat.
Variables wp wc wb ws wprim wsec : nat.

Hypothesis c_fs : forall st files, c (with_fs st files) = c st.
Hypothesis c_log : forall st l m, c (logged st l m) = c st.
Hypothesis c_processed : forall st, c (incr_processed st).2 <= c st + wp.
Hypothesis c_converted : forall st, c (incr_converted st).2 <= c st + wc.
Hypothesis c_combined : forall st, c (incr_combined st).2 <= c st + wb.
Hypothesis c_skipped : forall st, c (incr_skipped st).2 <= c st + ws.
Hypothesis c_primary : forall st a, c (append_primary a st).2 <= c st + wprim.
Hypothesis c_secondary : forall st p, c (append_secondary p st).2 <= c st + wsec.

Definition wrole (r : role) : nat :=
  match r with
  | primary => wprim
  | secondary => wsec
  end.

Lemma bounded_weaken {A} (m : M A) (k k' : nat) :
  bounded c m k -> k <= k' -> bounded c m k'.
Proof. intros H L st. specialize (H st). lia. Qed.

Lemma bounded_ret {A} (a : A) : bounded c (mret a) 0.
Proof. intros st. simpl. lia. Qed.

Lemma bounded_bind {A B} (m : M A) (k : A -> M B) (n1 n2 : nat) :
  bounded c m n1 -> (forall a, bounded c (k a) n2) -> bounded c (m ≫= k) (n1 + n2).
Proof.
  intros Hm Hk st. rewrite bind_run. specialize (Hm st).
  destruct (m st) as [[a|x] st']; simpl in *; [|lia].
  specialize (Hk a st'). lia.
Qed.

Lemma bounded_seq {A B} (m : M A) (k : M B) (n : nat) :
  bounded c m 0 -> bounded c k n -> bounded c (m ≫= fun _ => k) n.
Proof. intros Hm Hk. apply (bounded_bind m (fun _ => k) 0 n); auto. Qed.

Lemma bounded_try {A} (m : M A) (h : exn -> M A) (n : nat) :
  bounded c m n -> (forall x, bounded c (h x) 0) -> bounded c (try_except m h) n.
Proof.
  intros Hm Hh st. unfold try_except. specialize (Hm st).
  destruct (m st) as [[a|x] st']; simpl in *; [lia|].
  specialize (Hh x st'). lia.
Qed.

(** A statement that only touches files and the log adds nothing. *)
Lemma bounded_inv {A} (m : M A) :
  (forall n, inv (fun st => c st <= n) m any) -> bounded c m 0.
Proof.
  intros H st. specialize (H (c st) st (le_n _)).
  destruct (m st) as [[a|x] st']; simpl; [destruct H|]; lia.
Qed.

Lemma keeps_fs n st files : c st <= n -> c (with_fs st files) <= n.
Proof. by rewrite c_fs. Qed.

Lemma keeps_log n st l m : c st <= n -> c (logged st l m) <= n.
Proof. by rewrite c_log. Qed.

Lemma bounded_logging l m : bounded c (logging l m) 0.
Proof.
  apply bounded_inv. intros n. apply inv_logging. apply keeps_log.
Qed.

Lemma bounded_get_unique_filename path : bounded c (get_unique_filename path) 0.
Proof.
  intros st. unfold get_unique_filename. munfold.
  destruct (get_unique_filename_fuel _ _ _); simpl; lia.
Qed.

Lemma bounded_finish_file env cfg taken_at location caption path r conversion :
  bounded c (finish_file env cfg taken_at location caption path r conversion)
          (wrole r + wp).
Proof.
  unfold finish_file. cbv zeta.
  apply (bounded_bind _ _ 0 (wrole r + wp)); [apply bounded_get_unique_filename|].
  intros new_path.
  apply bounded_seq.
  { apply bounded_inv. intros n.
    destruct conversion as [[cp [|]]|];
      first [apply inv_rename | apply inv_copy2]; apply keeps_fs. }
  apply bounded_seq.
  { apply bounded_inv. intros n. apply inv_update_exif; [apply keeps_fs|apply keeps_log]. }
  apply bounded_seq; [apply bounded_logging|].
  apply bounded_seq.
  { apply bounded_inv. intros n. apply inv_update_iptc; [apply keeps_fs|apply keeps_log]. }
  apply (bounded_bind _ _ (wrole r) wp).
  { destruct r; intros st; [apply c_primary|apply c_secondary]. }
  intros _. apply bounded_seq; [apply bounded_logging|].
  intros st. apply c_processed.
Qed.

Lemma bounded_process_file env cfg taken_at location caption path r :
  bounded c (process_file env cfg taken_at location caption path r)
          (Nat.max ws (wc + (wrole r + wp))).
Proof.
  unfold process_file. apply bounded_seq; [apply bounded_logging|].
  destruct (convert_to_jpeg cfg).
  - apply (bounded_bind _ _ 0 (Nat.max ws (wc + (wrole r + wp)))).
    { apply bounded_inv. intros n.
      apply inv_convert_webp_to_jpg; [apply keeps_fs|apply keeps_log]. }
    intros [[cp|] cv].
    + apply (bounded_weaken _ (wc + (wrole r + wp))); [|lia].
      apply bounded_bind; [|intros _; apply bounded_finish_file].
      destruct cv; [intros st; apply c_converted|].
      apply (bounded_weaken _ 0); [apply bounded_ret|lia].
    + apply (bounded_weaken _ ws); [|lia]. intros st. apply c_skipped.
  - apply (bounded_weaken _ (wrole r + wp)); [|lia]. apply bounded_finish_file.
Qed.

Lemma bounded_process_bts env cfg taken_at location bts_media :
  bounded c (process_bts env cfg taken_at location bts_media) wp.
Proof.
  unfold process_bts.
  assert (Z : bounded c (mret tt : M unit) wp).
  { apply (bounded_weaken _ 0); [apply bounded_ret|lia]. }
  destruct bts_media as [m|]; [|exact Z].
  destruct (truthy (Some m)); [|exact Z]. cbv zeta.
  apply (bounded_bind _ _ 0 wp); [intros st; simpl; lia|]. intros st0.
  destruct (_ && _); [|exact Z].
  apply (bounded_bind _ _ 0 wp); [apply bounded_get_unique_filename|]. intros p.
  apply (bounded_bind _ _ 0 wp); [intros st; unfold lift; simpl; lia|]. intros t.
  apply (bounded_bind _ _ 0 wp).
  { apply bounded_inv. intros n.
    apply inv_update_mp4_metadata; [apply keeps_fs|apply keeps_log]. }
  intros [|].
  - apply bounded_seq.
    { apply bounded_inv. intros n. apply inv_rename. apply keeps_fs. }
    apply bounded_seq; [apply bounded_logging|]. intros st. apply c_processed.
  - apply bounded_seq.
    { apply bounded_inv. intros n. apply inv_copy2. apply keeps_fs. }
    apply bounded_seq; [apply bounded_logging|]. intros st. apply c_processed.
Qed.

(** What one record can add. *)
Definition per_record : nat :=
  Nat.max ws (wc + (wprim + wp)) + (Nat.max ws (wc + (wsec + wp)) + wp).

Lemma bounded_process_entry env cfg e : bounded c (process_entry env cfg e) per_record.
Proof.
  unfold process_entry. apply bounded_try; [|intros x; apply bounded_logging].
  unfold entry_body.
  apply (bounded_bind _ _ 0 per_record); [intros st; unfold lift; simpl; lia|].
  intros p.
  apply (bounded_bind _ _ 0 per_record); [intros st; unfold lift; simpl; lia|].
  intros s. cbv zeta.
  apply (bounded_bind _ _ 0 per_record); [intros st; simpl; lia|]. intros st0.
  destruct (negb _).
  all: apply (bounded_bind _ _ 0 per_record); [intros st; unfold lift; simpl; lia|];
    intros t;
    apply (bounded_bind _ _ 0 per_record); [intros st; unfold lift; simpl; lia|];
    intros d;
    apply bounded_bind; [apply (bounded_process_file _ _ _ _ _ _ primary)|];
    intros _;
    apply bounded_bind; [apply (bounded_process_file _ _ _ _ _ _ secondary)|];
    intros _; apply bounded_process_bts.
Qed.

Lemma bounded_for_each {A} (body : A -> M unit) (l : list A) (k : nat) :
  (forall a, bounded c (body a) k) -> bounded c (for_each body l) (k * length l).
Proof.
  intros Hb. induction l as [|a l IH]; simpl.
  - apply (bounded_weaken _ 0); [apply bounded_ret|lia].
  - apply (bounded_weaken _ (k + k * length l)); [|lia].
    apply bounded_bind; [apply Hb|]. intros _. exact IH.
Qed.

Lemma bounded_combine_pair env cfg a s : bounded c (combine_pair env cfg a s) wb.
Proof.
  unfold combine_pair. cbv zeta.
  apply (bounded_bind _ _ 0 wb).
  { apply bounded_inv. intros n. unfold combine_images_with_resizing.
    eapply inv_bind; [apply inv_Image_open|]. intros ip _.
    eapply inv_bind; [apply inv_Image_open|]. intros isec _. by apply inv_ret. }
  intros img.
  apply bounded_seq.
  { apply bounded_inv. intros n. apply inv_Image_save_jpeg. apply keeps_fs. }
  apply (bounded_weaken _ (wb + 0)); [|lia].
  apply bounded_bind; [intros st; apply c_combined|]. intros _.
  apply bounded_seq; [apply bounded_logging|].
  apply bounded_seq.
  { apply bounded_inv. intros n. apply inv_update_exif; [apply keeps_fs|apply keeps_log]. }
  apply bounded_seq; [apply bounded_logging|].
  apply bounded_seq.
  { apply bounded_inv. intros n. apply inv_update_iptc; [apply keeps_fs|apply keeps_log]. }
  destruct (convert_to_jpeg cfg); [|apply bounded_ret].
  apply (bounded_bind _ _ 0 0).
  { apply bounded_inv. intros n.
    apply inv_convert_webp_to_jpg; [apply keeps_fs|apply keeps_log]. }
  intros [cp cv].
  apply bounded_seq.
  { apply bounded_inv. intros n. apply inv_update_exif; [apply keeps_fs|apply keeps_log]. }
  apply bounded_seq; [apply bounded_logging|].
  apply bounded_seq.
  { apply bounded_inv. intros n. apply inv_update_iptc; [apply keeps_fs|apply keeps_log]. }
  destruct cp; [apply bounded_ret|apply bounded_logging].
Qed.

Lemma bounded_remove_backup_files d : bounded c (remove_backup_files d) 0.
Proof.
  apply bounded_inv. intros n. unfold remove_backup_files.
  apply inv_set_fs. apply keeps_fs.
Qed.

(** The main loop, and the whole run after it. *)
Lemma bounded_main_loop env cfg data :
  bounded c (for_each (process_entry env cfg) data) (per_record * length data).
Proof. apply bounded_for_each. intros e. apply bounded_process_entry. Qed.

Lemma bounded_combine_pass env cfg st :
  c (combine_pass env cfg st).2
  <= c st + wb * Nat.min (length (primary_images st)) (length (secondary_images st)).
Proof.
  unfold combine_pass. destruct (create_combined_images cfg); [|simpl; lia].
  rewrite bind_run. cbn [get].
  pose proof (bounded_for_each (fun pair : artifact * Path => combine_pair env cfg pair.1 pair.2)
                (zip (primary_images st) (secondary_images st)) wb
                (fun pair => bounded_combine_pair env cfg pair.1 pair.2) st) as H.
  rewrite length_zip_with in H. exact H.
Qed.

(** The run after the main loop. *)
Lemma bounded_main env cfg data st :
  c (main env cfg (Some data) st).2
  <= c (for_each (process_entry env cfg) data st).2
     + wb * Nat.min
              (length (primary_images (for_each (process_entry env cfg) data st).2))
              (length (secondary_images (for_each (process_entry env cfg) data st).2)).
Proof.
  unfold main. rewrite bind_run.
  pose proof (for_each_entry_total env cfg data st) as T.
  destruct (for_each (process_entry env cfg) data st) as [r st1].
  simpl in T. subst r. cbn [snd].
  pose proof (bounded_combine_pass env cfg st1) as B.
  rewrite bind_run. destruct (combine_pass env cfg st1) as [[[]|x] st2]; [|exact B].
  cbn [snd] in B.
  assert (R : bounded c (remove_backup_files output_folder
                         ≫= fun _ => if create_combined_images cfg
                                     then remove_backup_files output_folder_combined
                                     else mret tt) 0).
  { apply bounded_seq; [apply bounded_remove_backup_files|].
    destruct (create_combined_images cfg);
      [apply bounded_remove_backup_files|apply bounded_ret]. }
  specialize (R st2). lia.
Qed.

End Bounded.

(** X3. The counters of a run that starts from scratch, against the number
    of records: at most three files of a record are processed or skipped
    (two pictures and a video), at most two are converted, at most one
    primary and one secondary picture are recorded for the combine pass,
    and there are no more combined pictures than records. *)
Theorem counters_bounded env cfg data files :
  processed_files_count (main env cfg (Some data) (initial files)).2
  + skipped_files_count (main env cfg (Some data) (initial files)).2
  <= 3 * length data
  /\ converted_files_count (main env cfg (Some data) (initial files)).2
     <= 2 * length data
  /\ combined_files_count (main env cfg (Some data) (initial files)).2
     <= length data
  /\ length (primary_images (main env cfg (Some data) (initial files)).2)
     <= length data
  /\ length (secondary_images (main env cfg (Some data) (initial files)).2)
     <= length data.
Proof.
  set (loop := (for_each (process_entry env cfg) data (initial files)).2).
  assert (P : length (primary_images loop) <= length data).
  { pose proof (bounded_main_loop (fun st => length (primary_images st))
                  0 0 0 1 0) as H.
    unfold per_record in H. simpl in H.
    specialize (H ltac:(done) ltac:(done) ltac:(intros; simpl; lia)
                  ltac:(intros; simpl; lia) ltac:(intros; simpl; lia)
                  ltac:(intros; simpl; rewrite length_app; simpl; lia)
                  ltac:(intros; simpl; lia) env cfg data (initial files)).
    simpl in H. unfold loop. lia. }
  assert (S2 : length (secondary_images loop) <= length data).
  { pose proof (bounded_main_loop (fun st => length (secondary_images st))
                  0 0 0 0 1) as H.
    unfold per_record in H. simpl in H.
    specialize (H ltac:(done) ltac:(done) ltac:(intros; simpl; lia)
                  ltac:(intros; simpl; lia) ltac:(intros; simpl; lia)
                  ltac:(intros; simpl; lia)
                  ltac:(intros; simpl; rewrite length_app; simpl; lia)
                  env cfg data (initial files)).
    simpl in H. unfold loop. lia. }
  repeat split.
  - pose proof (bounded_main (fun st => processed_files_count st + skipped_files_count st)
                  0) as M.
    specialize (M ltac:(done) ltac:(done) ltac:(intros; simpl; lia)
                  env cfg data (initial files)).
    pose proof (bounded_main_loop
                  (fun st => processed_files_count st + skipped_files_count st)
                  1 0 1 0 0) as H.
    unfold per_record in H. simpl in H.
    specialize (H ltac:(done) ltac:(done) ltac:(intros; simpl; lia)
                  ltac:(intros; simpl; lia) ltac:(intros; simpl; lia)
                  ltac:(intros; simpl; lia) ltac:(intros; simpl; lia)
                  env cfg data (initial files)).
    cbv beta in H, M.
    change (processed_files_count (initial files)) with 0 in H.
    change (skipped_files_count (initial files)) with 0 in H. lia.
  - pose proof (bounded_main (fun st => converted_files_count st) 0) as M.
    specialize (M ltac:(done) ltac:(done) ltac:(intros; simpl; lia)
                  env cfg data (initial files)).
    pose proof (bounded_main_loop (fun st => converted_files_count st)
                  0 1 0 0 0) as H.
    unfold per_record in H. simpl in H.
    specialize (H ltac:(done) ltac:(done) ltac:(intros; simpl; lia)
                  ltac:(intros; simpl; lia) ltac:(intros; simpl; lia)
                  ltac:(intros; simpl; lia) ltac:(intros; simpl; lia)
                  env cfg data (initial files)).
    cbv beta in H, M.
    change (converted_files_count (initial files)) with 0 in H. lia.
  - pose proof (bounded_main (fun st => combined_files_count st) 1) as M.
    specialize (M ltac:(done) ltac:(done) ltac:(intros; simpl; lia)
                  env cfg data (initial files)).
    pose proof (bounded_main_loop (fun st => combined_files_count st)
                  0 0 0 0 0) as H.
    unfold per_record in H. simpl in H.
    specialize (H ltac:(done) ltac:(done) ltac:(intros; simpl; lia)
                  ltac:(intros; simpl; lia) ltac:(intros; simpl; lia)
                  ltac:(intros; simpl; lia) ltac:(intros; simpl; lia)
                  env cfg data (initial files)).
    cbv beta in H, M. fold loop in M, H.
    change (combined_files_count (initial files)) with 0 in H. lia.
  - pose proof (bounded_main (fun st => length (primary_images st)) 0) as M.
    specialize (M ltac:(done) ltac:(done) ltac:(intros; simpl; lia)
                  env cfg data (initial files)).
    cbv beta in M. fold loop in M. lia.
  - pose proof (bounded_main (fun st => length (secondary_images st)) 0) as M.
    specialize (M ltac:(done) ltac:(done) ltac:(intros; simpl; lia)
                  env cfg data (initial files)).
    cbv beta in M. fold loop in M. lia.
Qed.

(** *** Nothing is taken back *)

(** [st'] continues [st]: no counter is lower, and the log and the two
    lists of recorded pictures are the old ones with more at their end. *)
Definition continues (st st' : state) : Prop :=
  processed_files_count st <= processed_files_count st'
  /\ converted_files_count st <= converted_files_count st'
  /\ combined_files_count st <= combined_files_count st'
  /\ skipped_files_count st <= skipped_files_count st'
  /\ primary_images st `prefix_of` primary_images st'
  /\ secondary_images st `prefix_of` secondary_images st'
  /\ log st `prefix_of` log st'.

(** X4. Whatever the manifest, the files and the environment, and whether
    the run reaches its end or stops with an exception in the combine
    pass, it never lowers a counter, never drops or reorders a recorded
    picture and never rewrites a line of the log. *)
Theorem main_only_grows env cfg posts st :
  continues st (main env cfg posts st).2.
Proof.
  pose proof (inv_main (continues st) (fun _ => True)) as H.
  assert (R : continues st st).
  { unfold continues. repeat split; done. }
  specialize (H ltac:(by intros ? ? (?&?&?&?&?&?&?))).
  specialize (H ltac:(intros s l m (?&?&?&?&?&?&?); repeat split; try done;
                      simpl; by apply prefix_app_r)).
  specialize (H ltac:(intros s (?&?&?&?&?&?&?); repeat split; try done; simpl; lia)).
  specialize (H ltac:(intros s (?&?&?&?&?&?&?); repeat split; try done; simpl; lia)).
  specialize (H ltac:(intros s (?&?&?&?&?&?&?); repeat split; try done; simpl; lia)).
  specialize (H ltac:(intros s (?&?&?&?&?&?&?); repeat split; try done; simpl; lia)).
  specialize (H ltac:(intros s p (?&?&?&?&?&?&?); repeat split; try done;
                      simpl; by apply prefix_app_r)).
  specialize (H ltac:(intros s a _ (?&?&?&?&?&?&?); repeat split; try done;
                      simpl; by apply prefix_app_r)).
  specialize (H ltac:(done) env cfg posts st R).
  destruct (main env cfg posts st) as [[[]|x] st']; [by destruct H|done].
Qed.

(** *** The cleanup *)

Lemma split_on_cons (c : ascii) (s : string) :
  exists w ws, split_on c s = w :: ws.
Proof.
  induction s as [|a s (w & ws & IH)]; simpl; [by eexists _, _|].
  destruct (Ascii.eqb a c); [by eexists _, _|]. rewrite IH. by eexists _, _.
Qed.

Lemma split_on_app (c : ascii) (s t : string) :
  split_on c (s +:+ String c t) = (split_on c s ++ split_on c t)%list.
Proof.
  induction s as [|a s IH]; simpl.
  - by rewrite Ascii.eqb_refl.
  - destruct (Ascii.eqb a c); [by rewrite IH|].
    rewrite IH. by destruct (split_on_cons c s) as (w & ws & ->).
Qed.

Lemma split_on_lacks (c : ascii) (n : string) : lacks c n -> split_on c n = [n].
Proof.
  induction n as [|a n IH]; simpl; [done|]. intros [Ha Hn].
  destruct (Ascii.eqb_spec a c); [done|]. by rewrite IH.
Qed.

(** A file name: one component that [Path] keeps. *)
Definition filename (n : string) : Prop := lacks "/" n /\ n <> "" /\ n <> ".".

(** A folder as [Path] writes it. *)
Definition folder (d : string) : Prop :=
  d <> ""
  /\ (if is_absolute d then "/" else "") +:+ join_components (components d) = d.

Lemma str_join (d n : string) : d <> "" -> str (mkPath d n) = d +:+ "/" +:+ n.
Proof. intros H. unfold str. simpl. by destruct (String.eqb_spec d ""). Qed.

Lemma Path_of_string_join (d n : string) :
  folder d -> filename n -> Path_of_string (d +:+ "/" +:+ n) = mkPath d n.
Proof.
  intros [Hd Hj] (Hl & Hn & Hdot). unfold Path_of_string, components.
  change (d +:+ "/" +:+ n) with (d +:+ String "/" n).
  rewrite split_on_app, filter_app, (split_on_lacks _ _ Hl).
  rewrite filter_cons_True by done. rewrite filter_nil.
  rewrite reverse_app. simpl. rewrite reverse_involutive.
  assert (A : is_absolute (d +:+ String "/" n) = is_absolute d).
  { destruct d; [done|reflexivity]. }
  rewrite A. unfold components in Hj. by rewrite Hj.
Qed.

Lemma is_backup_spec (d d' n : string) :
  folder d -> folder d' -> filename n ->
  is_backup d (str (mkPath d' n)) = bool_decide (d' = d) && ends_with "~" n.
Proof.
  intros Hd Hd' Hn. unfold is_backup, entry_of.
  rewrite (str_join d' n) by apply Hd'.
  rewrite (Path_of_string_join d' n Hd' Hn). simpl.
  rewrite (str_join d' n) by apply Hd'. rewrite String.eqb_refl, andb_true_r.
  destruct (String.eqb_spec d' d) as [->|N].
  - by rewrite bool_decide_eq_true_2.
  - by rewrite bool_decide_eq_false_2.
Qed.

Lemma folder_output : folder output_folder.
Proof. split; [done|reflexivity]. Qed.

Lemma folder_combined : folder output_folder_combined.
Proof. split; [done|reflexivity]. Qed.

Lemma remove_backup_files_lookup d st k :
  fs (remove_backup_files d st).2 !! k
  = if is_backup d k then None else fs st !! k.
Proof.
  unfold remove_backup_files. simpl.
  destruct (is_backup d k) eqn:B.
  - apply map_lookup_filter_None. right. intros f _. simpl. by rewrite B.
  - destruct (fs st !! k) as [f|] eqn:E.
    + apply map_lookup_filter_Some. done.
    + apply map_lookup_filter_None. by left.
Qed.

(** X5. The cleanup of a folder removes the files of that folder whose
    name ends in a tilde, whoever put them there, and no other file: a
    file of another name, or of another folder, is as it was; no counter
    moves and nothing is logged. *)
Theorem remove_backup_files_spec d d' n st :
  folder d -> folder d' -> filename n ->
  exists st', remove_backup_files d st = (Ok tt, st')
    /\ fs st' !! str (mkPath d' n)
       = (if bool_decide (d' = d) && ends_with "~" n then None
          else fs st !! str (mkPath d' n))
    /\ same_counts st st' /\ log st' = log st.
Proof.
  intros Hd Hd' Hn. eexists. split; [reflexivity|].
  split; [|by repeat split].
  pose proof (remove_backup_files_lookup d st (str (mkPath d' n))) as L.
  rewrite (is_backup_spec d d' n Hd Hd' Hn) in L. exact L.
Qed.

(** A folder with a picture and a stray editor backup. *)
Definition stray_files : gmap string file :=
  <["out/__processed/a.jpg" := jpeg_of (Pixels "a")]>
  (<["out/__processed/notes.txt~" := clip]> ∅).

(** Witness of [remove_backup_files_spec]. *)
Lemma remove_backup_files_spec_witness :
  folder output_folder /\ folder output_folder /\ filename "notes.txt~"
  /\ exists st', remove_backup_files output_folder (initial stray_files) = (Ok tt, st')
    /\ fs st' !! str (mkPath output_folder "notes.txt~")
       = (if bool_decide (output_folder = output_folder)
             && ends_with "~" "notes.txt~" then None
          else fs (initial stray_files) !! str (mkPath output_folder "notes.txt~"))
    /\ same_counts (initial stray_files) st' /\ log st' = log (initial stray_files).
Proof.
  assert (H1 : folder output_folder) by (split; [discriminate|reflexivity]).
  assert (H3 : filename "notes.txt~").
  { split; [simpl; repeat split; discriminate|]. split; discriminate. }
  exact (conj H1 (conj H1 (conj H3
           (remove_backup_files_spec output_folder output_folder "notes.txt~"
              (initial stray_files) H1 H1 H3)))).
Defined.

(** X6. A run that reaches its end leaves no file with a name that ends
    in a tilde in the output folder, nor, when combining is enabled, in
    the folder of the combined pictures: the backups that the IPTC writer
    left are gone. *)
Theorem main_leaves_no_backups env cfg data st n :
  (main env cfg (Some data) st).1 = Ok tt ->
  filename n -> ends_with "~" n = true ->
  fs (main env cfg (Some data) st).2 !! str (mkPath output_folder n) = None
  /\ (create_combined_images cfg = true ->
      fs (main env cfg (Some data) st).2 !! str (mkPath output_folder_combined n)
      = None).
Proof.
  intros HOk Hn He. unfold main in *. rewrite bind_run in *.
  destruct (for_each (process_entry env cfg) data st) as [[[]|x] st1]; [|done].
  rewrite bind_run in *.
  destruct (combine_pass env cfg st1) as [[[]|x] st2]; [|done].
  rewrite bind_run in *.
  change (remove_backup_files output_folder st2)
    with (Ok tt, (remove_backup_files output_folder st2).2) in *.
  cbv iota beta in *.
  set (st3 := (remove_backup_files output_folder st2).2) in *.
  assert (L3 : fs st3 !! str (mkPath output_folder n) = None).
  { unfold st3. rewrite remove_backup_files_lookup.
    rewrite (is_backup_spec _ _ n folder_output folder_output Hn), He.
    by rewrite bool_decide_eq_true_2. }
  destruct (create_combined_images cfg).
  - split.
    + rewrite remove_backup_files_lookup, L3. by destruct (is_backup _ _).
    + intros _. rewrite remove_backup_files_lookup.
      rewrite (is_backup_spec _ _ n folder_combined folder_combined Hn), He.
      by rewrite bool_decide_eq_true_2.
  - split; [exact L3|done].
Qed.

(** Witness of [main_leaves_no_backups]: the run on the record of the
    Paris scenario. *)
Lemma main_leaves_no_backups_witness :
  (main (quiet None) default_settings (Some [paris])
        (initial (paris_files (Pixels "p") (Pixels "s")))).1 = Ok tt
  /\ filename "2024-07-15T12-00-00_primary.jpg~"
  /\ ends_with "~" "2024-07-15T12-00-00_primary.jpg~" = true
  /\ fs (main (quiet None) default_settings (Some [paris])
              (initial (paris_files (Pixels "p") (Pixels "s")))).2
       !! str (mkPath output_folder "2024-07-15T12-00-00_primary.jpg~") = None
  /\ (create_combined_images default_settings = true ->
      fs (main (quiet None) default_settings (Some [paris])
               (initial (paris_files (Pixels "p") (Pixels "s")))).2
        !! str (mkPath output_folder_combined "2024-07-15T12-00-00_primary.jpg~")
      = None).
Proof.
  assert (H1 : (main (quiet None) default_settings (Some [paris])
                  (initial (paris_files (Pixels "p") (Pixels "s")))).1 = Ok tt)
    by (vm_compute; reflexivity).
  assert (H2 : filename "2024-07-15T12-00-00_primary.jpg~").
  { split; [simpl; repeat split; discriminate|]. split; discriminate. }
  assert (H3 : ends_with "~" "2024-07-15T12-00-00_primary.jpg~" = true)
    by reflexivity.
  exact (conj H1 (conj H2 (conj H3
           (main_leaves_no_backups (quiet None) default_settings [paris]
              (initial (paris_files (Pixels "p") (Pixels "s")))
              "2024-07-15T12-00-00_primary.jpg~" H1 H2 H3)))).
Defined.

(** *** A picture that the compositor cannot open *)

(** [Image.open(p)] returns. *)
Definition decodable (files : gmap string file) (p : Path) : bool :=
  match files !! str p with
  | Some f =>
      match f_content f with
      | Picture _ _ => true
      | _ => false
      end
  | None => false
  end.

Lemma Image_open_raises (p : Path) (st : state) :
  decodable (fs st) p = false -> exists x, Image_open p st = (Raise x, st).
Proof.
  unfold decodable, Image_open. munfold. intros H.
  destruct (fs st !! str p) as [f|]; [|by eexists].
  destruct (f_content f); [done|by eexists..].
Qed.

Lemma Image_open_cases (p : Path) (st : state) :
  (exists i, Image_open p st = (Ok i, st)) \/ (exists x, Image_open p st = (Raise x, st)).
Proof.
  unfold Image_open. munfold.
  destruct (fs st !! str p) as [f|]; [|right; by eexists].
  destruct (f_content f); [left|right..]; by eexists.
Qed.

(** X7. The combine pass has no handler of its own. When the first pair of
    recorded pictures holds one that cannot be opened as a picture (with
    conversion disabled the main loop copies and records any file that
    exists), the run stops there with the exception: the state is the one
    the main loop left, so nothing is combined, nothing more is logged,
    and the cleanup of the backup files does not happen. *)
Theorem combine_pass_uncaught env cfg data st a l s l' :
  create_combined_images cfg = true ->
  primary_images (for_each (process_entry env cfg) data st).2 = a :: l ->
  secondary_images (for_each (process_entry env cfg) data st).2 = s :: l' ->
  decodable (fs (for_each (process_entry env cfg) data st).2) (a_path a)
  && decodable (fs (for_each (process_entry env cfg) data st).2) s = false ->
  exists x, main env cfg (Some data) st
            = (Raise x, (for_each (process_entry env cfg) data st).2).
Proof.
  intros Hc Hp Hs Hd. unfold main. rewrite bind_run.
  pose proof (for_each_entry_total env cfg data st) as T.
  destruct (for_each (process_entry env cfg) data st) as [r st1].
  simpl in T, Hp, Hs, Hd. subst r. cbn [snd].
  assert (C : exists x, combine_pass env cfg st1 = (Raise x, st1)).
  { unfold combine_pass. rewrite Hc. rewrite bind_run. cbn [get].
    rewrite Hp, Hs. simpl. rewrite bind_run.
    unfold combine_pair. cbv zeta. rewrite bind_run.
    unfold combine_images_with_resizing. rewrite bind_run.
    destruct (Image_open_cases (a_path a) st1) as [[i E]|[x E]]; rewrite E.
    2:{ by exists x. }
    rewrite bind_run.
    destruct (decodable (fs st1) (a_path a)) eqn:D1.
    - simpl in Hd. destruct (Image_open_raises s st1 Hd) as [x E2].
      rewrite E2. by exists x.
    - destruct (Image_open_raises (a_path a) st1 D1) as [x E1]. congruence. }
  destruct C as [x C]. exists x. rewrite bind_run. by rewrite C.
Qed.

(** Copying without conversion, and combining. *)
Definition copy_and_combine : config := mk_config false false true.

Definition broken_primary : artifact :=
  mk_artifact (mkPath output_folder "2024-07-15T12-00-00_primary.webp")
              (mkdatetime 2024 7 15 12 0 0 0 (Some UTC)) None None.

(** Witness of [combine_pass_uncaught]: the first primary file is there
    but is not a picture. *)
Lemma combine_pass_uncaught_witness :
  create_combined_images copy_and_combine = true
  /\ primary_images
       (for_each (process_entry (quiet None) copy_and_combine) [monday]
          (initial (two_days_files (Pixels "s1") (Pixels "p2") (Pixels "s2")))).2
     = broken_primary :: []
  /\ secondary_images
       (for_each (process_entry (quiet None) copy_and_combine) [monday]
          (initial (two_days_files (Pixels "s1") (Pixels "p2") (Pixels "s2")))).2
     = mkPath output_folder "2024-07-15T12-00-00_secondary.webp" :: []
  /\ decodable
       (fs (for_each (process_entry (quiet None) copy_and_combine) [monday]
              (initial (two_days_files (Pixels "s1") (Pixels "p2") (Pixels "s2")))).2)
       (a_path broken_primary)
     && decodable
          (fs (for_each (process_entry (quiet None) copy_and_combine) [monday]
                 (initial (two_days_files (Pixels "s1") (Pixels "p2") (Pixels "s2")))).2)
          (mkPath output_folder "2024-07-15T12-00-00_secondary.webp")
     = false
  /\ exists x,
      main (quiet None) copy_and_combine (Some [monday])
           (initial (two_days_files (Pixels "s1") (Pixels "p2") (Pixels "s2")))
      = (Raise x,
         (for_each (process_entry (quiet None) copy_and_combine) [monday]
            (initial (two_days_files (Pixels "s1") (Pixels "p2") (Pixels "s2")))).2).
Proof.
  assert (H1 : create_combined_images copy_and_combine = true) by reflexivity.
  assert (H2 : primary_images
       (for_each (process_entry (quiet None) copy_and_combine) [monday]
          (initial (two_days_files (Pixels "s1") (Pixels "p2") (Pixels "s2")))).2
     = broken_primary :: []) by (vm_compute; reflexivity).
  assert (H3 : secondary_images
       (for_each (process_entry (quiet None) copy_and_combine) [monday]
          (initial (two_days_files (Pixels "s1") (Pixels "p2") (Pixels "s2")))).2
     = mkPath output_folder "2024-07-15T12-00-00_secondary.webp" :: [])
    by (vm_compute; reflexivity).
  assert (H4 : decodable
       (fs (for_each (process_entry (quiet None) copy_and_combine) [monday]
              (initial (two_days_files (Pixels "s1") (Pixels "p2") (Pixels "s2")))).2)
       (a_path broken_primary)
     && decodable
          (fs (for_each (process_entry (quiet None) copy_and_combine) [monday]
                 (initial (two_days_files (Pixels "s1") (Pixels "p2") (Pixels "s2")))).2)
          (mkPath output_folder "2024-07-15T12-00-00_secondary.webp")
     = false) by (vm_compute; reflexivity).
  exact (conj H1 (conj H2 (conj H3 (conj H4
           (combine_pass_uncaught (quiet None) copy_and_combine [monday]
              (initial (two_days_files (Pixels "s1") (Pixels "p2") (Pixels "s2")))
              broken_primary [] (mkPath output_folder "2024-07-15T12-00-00_secondary.webp")
              [] H1 H2 H3 H4))))).
Defined.

(** *** The metadata writers *)

(** The capture time as [update_exif] hands it to the normaliser. *)
Definition as_utc (dt : datetime) : datetime :=
  match tzinfo dt with
  | Some _ => dt
  | None => replace_tzinfo dt (Some UTC)
  end.

Ltac exif_fails :=
  eexists; split; [reflexivity|]; split; [by repeat split|];
  left; split; [done|]; simpl; rewrite ?in_app_iff; simpl; tauto.

(** The two ways [update_exif] can go. *)
Lemma update_exif_cases env p dt loc cap st :
  exists st', update_exif env (Some p) dt loc cap st = (Ok tt, st')
    /\ same_counts st st'
    /\ ((fs st' = fs st /\ In (ERROR, FailedExif (Some p)) (log st'))
        \/ exists f d e,
             fs st !! str p = Some f
             /\ _utc_to_german_time (ZoneInfo env) (as_utc dt) = Ok d
             /\ fs st' = <[str p := set_exif f e]> (fs st)
             /\ In (INFO, UpdatedExif p) (log st')
             /\ DateTimeOriginal e = Some (strftime_exif d)
             /\ match located loc with
                | Some (la, lo) => exists g, gps_of la lo = Ok g /\ GPS e = Some g
                | None => GPS e = GPS (f_exif f)
                end
             /\ ImageDescription e
                = if truthy cap then cap else ImageDescription (f_exif f)).
Proof.
  unfold update_exif, as_utc. munfold.
  destruct (fs st !! str p) as [f|] eqn:Ef; simpl.
  2:{ eexists. split; [reflexivity|]. split; [by repeat split|].
      left. split; [done|]. simpl. apply in_or_app. right. by left. }
  destruct (can_exif env p); simpl.
  2:{ eexists. split; [reflexivity|]. split; [by repeat split|].
      left. split; [done|]. simpl. apply in_or_app. right. by left. }
  destruct (_utc_to_german_time (ZoneInfo env) _) as [d|x] eqn:Ed; simpl.
  2:{ eexists. split; [reflexivity|]. split; [by repeat split|].
      left. split; [done|]. simpl. apply in_or_app. right. by left. }
  destruct (located loc) as [[la lo]|] eqn:El; simpl.
  - destruct (gps_of la lo) as [g|x] eqn:Eg; simpl.
    2:{ eexists. split; [reflexivity|]. split; [by repeat split|].
        left. split; [done|]. simpl. rewrite !in_app_iff. simpl. tauto. }
    destruct cap as [c|]; [destruct (truthy (Some c)) eqn:T|]; simpl;
      (destruct (dump _) as [[]|x] eqn:Edump; simpl;
       [destruct (can_insert env p); simpl|]);
      first
        [ eexists; split; [reflexivity|]; split; [by repeat split|]; right;
          eexists f, d, _; split; [done|]; split; [done|]; split; [reflexivity|];
          split; [simpl; rewrite !in_app_iff; simpl; tauto|];
          split; [reflexivity|]; split; [by exists g|]; simpl; by rewrite ?T
        | exif_fails ].
  - destruct cap as [c|]; [destruct (truthy (Some c)) eqn:T|]; simpl;
      (destruct (dump _) as [[]|x] eqn:Edump; simpl;
       [destruct (can_insert env p); simpl|]);
      first
        [ eexists; split; [reflexivity|]; split; [by repeat split|]; right;
          eexists f, d, _; split; [done|]; split; [done|]; split; [reflexivity|];
          split; [simpl; rewrite !in_app_iff; simpl; tauto|];
          split; [reflexivity|]; split; [reflexivity|]; simpl; by rewrite ?T
        | exif_fails ].
Qed.

(** X8. The EXIF writer never raises and moves no counter, and it writes
    all of its fields or none. Either it logs a failure and every file is
    as it was (so a location whose coordinates cannot be encoded also
    costs the file its capture time and its title), or the one file it was
    given changes in its EXIF block only: the capture time is the German
    civil time, the GPS block is the encoded location when the location
    has both keys and is kept as it was otherwise, and the description is
    the caption when the caption is a non-empty string and is kept as it
    was otherwise. *)
Theorem update_exif_all_or_nothing env p dt loc cap st :
  exists st', update_exif env (Some p) dt loc cap st = (Ok tt, st')
    /\ same_counts st st'
    /\ (forall k, k <> str p -> fs st' !! k = fs st !! k)
    /\ ((fs st' = fs st /\ In (ERROR, FailedExif (Some p)) (log st'))
        \/ exists f d e,
             fs st !! str p = Some f
             /\ _utc_to_german_time (ZoneInfo env) (as_utc dt) = Ok d
             /\ fs st' = <[str p := set_exif f e]> (fs st)
             /\ In (INFO, UpdatedExif p) (log st')
             /\ DateTimeOriginal e = Some (strftime_exif d)
             /\ match located loc with
                | Some (la, lo) => exists g, gps_of la lo = Ok g /\ GPS e = Some g
                | None => GPS e = GPS (f_exif f)
                end
             /\ ImageDescription e
                = if truthy cap then cap else ImageDescription (f_exif f)).
Proof.
  destruct (update_exif_cases env p dt loc cap st) as (st' & E & C & H).
  exists st'. split; [exact E|]. split; [exact C|]. split; [|exact H].
  intros k Hk. destruct H as [[-> _]|(f & d & e & _ & _ & -> & _)]; [done|].
  by rewrite lookup_insert_ne.
Qed.

(** The three ways [update_iptc] can go. *)
Lemma update_iptc_cases env path cap st :
  exists st', update_iptc env path cap st = (Ok tt, st')
    /\ same_counts st st'
    /\ (forall k, k <> path -> k <> path +:+ "~" -> fs st' !! k = fs st !! k)
    /\ ((fs st' = fs st /\ In (ERROR, FailedIptc path) (log st'))
        \/ (exists f,
              fs st !! path = Some f /\ file_is_jpeg f = false
              /\ fs st' = fs st
              /\ In (INFO, UpdatedIptc path) (log st'))
        \/ exists f i,
             fs st !! path = Some f /\ file_is_jpeg f = true
             /\ fs st' !! (path +:+ "~") = Some f
             /\ fs st' !! path = Some (set_iptc f i)
             /\ In (INFO, UpdatedIptc path) (log st')
             /\ iptc_source i = Some source_app
             /\ originating_program i = Some processing_tool
             /\ caption_abstract i
                = if truthy cap then cap else caption_abstract (f_iptc f)).
Proof.
  unfold update_iptc, iptc_save_as. munfold.
  destruct (fs st !! path) as [f|] eqn:Ef; simpl.
  2:{ eexists. split; [reflexivity|]. split; [by repeat split|].
      split; [done|]. left. split; [done|]. simpl. apply in_or_app. right. by left. }
  destruct (can_iptc env path); simpl.
  2:{ eexists. split; [reflexivity|]. split; [by repeat split|].
      split; [done|]. left. split; [done|]. simpl. apply in_or_app. right. by left. }
  destruct (file_is_jpeg f) eqn:J; destruct (truthy cap) eqn:T; simpl.
  1,2: (eexists; split; [reflexivity|]; split; [by repeat split|]; simpl;
        split; [intros k N1 N2; by rewrite !lookup_insert_ne|]; right; right;
        eexists f, _; split; [done|]; split; [done|];
        split; [rewrite lookup_insert_ne by apply neq_backup;
                by rewrite lookup_insert_eq|];
        split; [by rewrite lookup_insert_eq|];
        split; [rewrite !in_app_iff; simpl; tauto|]; done).
  all: (eexists; split; [reflexivity|]; split; [by repeat split|]; simpl;
        split; [done|]; right; left; exists f;
        split; [done|]; split; [done|]; split; [done|];
        rewrite ?in_app_iff; simpl; tauto).
Qed.

(** X9. The IPTC writer never raises and moves no counter, and it goes
    one of three ways. It logs a failure, and every file is as it was. Or
    the file is not a JPEG: nothing is written, no file changes, and the
    update is logged as done all the same. Or the file is a JPEG: it is
    left as it was found under the same name with a tilde at its end, and
    the file itself is rewritten in its IPTC block only, where the source
    and the originating program are the two fixed tags and the caption is
    the given one when that is a non-empty string and is kept as it was
    otherwise. No other file changes. *)
Theorem update_iptc_keeps_backup env path cap st :
  exists st', update_iptc env path cap st = (Ok tt, st')
    /\ same_counts st st'
    /\ (forall k, k <> path -> k <> path +:+ "~" -> fs st' !! k = fs st !! k)
    /\ ((fs st' = fs st /\ In (ERROR, FailedIptc path) (log st'))
        \/ (exists f,
              fs st !! path = Some f /\ file_is_jpeg f = false
              /\ fs st' = fs st
              /\ In (INFO, UpdatedIptc path) (log st'))
        \/ exists f i,
             fs st !! path = Some f /\ file_is_jpeg f = true
             /\ fs st' !! (path +:+ "~") = Some f
             /\ fs st' !! path = Some (set_iptc f i)
             /\ In (INFO, UpdatedIptc path) (log st')
             /\ iptc_source i = Some source_app
             /\ originating_program i = Some processing_tool
             /\ caption_abstract i
                = if truthy cap then cap else caption_abstract (f_iptc f)).
Proof. apply update_iptc_cases. Qed.

(** *** The converter *)

Lemma take_drop_str (i : nat) (s : string) : take_str i s +:+ drop_str i s = s.
Proof.
  revert s. induction i as [|i IH]; intros [|a s]; simpl; try done.
  change (String a (take_str i s +:+ drop_str i s) = String a s). by rewrite IH.
Qed.

Lemma app_nil_r_str (s : string) : s +:+ "" = s.
Proof.
  induction s as [|a s IH]; [done|].
  change (String a (s +:+ "") = String a s). by rewrite IH.
Qed.

Lemma stem_suffix (p : Path) : stem p +:+ suffix p = name p.
Proof.
  unfold stem, suffix. destruct (rfind "." (name p)) as [i|].
  - destruct (_ && _); [apply take_drop_str|apply app_nil_r_str].
  - apply app_nil_r_str.
Qed.

Lemma app_inv_head_str (s t1 t2 : string) : s +:+ t1 = s +:+ t2 -> t1 = t2.
Proof.
  induction s as [|a s IH]; [done|].
  change (String a (s +:+ t1) = String a (s +:+ t2) -> t1 = t2).
  intros [= H]. auto.
Qed.

(** The JPEG beside a WebP file has another name. *)
Lemma jpg_beside (p : Path) :
  lower (suffix p) = ".webp" ->
  str (mkPath (parent p) (stem p +:+ ".jpg")) <> str p.
Proof.
  intros Hw E. destruct p as [d n]. simpl in E.
  apply str_inj_name in E.
  pose proof (stem_suffix (mkPath d n)) as S. simpl in S.
  rewrite <- S in E at 2. apply app_inv_head_str in E.
  rewrite <- E in Hw. done.
Qed.

(** X10. The converter never raises and moves no counter. It writes at
    most one file, the one named like its input with the extension .jpg,
    and the input file stays where it is. It answers in one of three
    ways: the path it was given and [False], with nothing done, when the
    extension is not .webp in any case; the .jpg path and [True], with a
    JPEG of the picture there and a line in the log; or [None] and
    [False], with an error in the log. *)
Theorem convert_webp_to_jpg_never_raises env p st :
  exists r st', convert_webp_to_jpg env p st = (Ok r, st')
    /\ same_counts st st'
    /\ fs st' !! str p = fs st !! str p
    /\ (forall k, k <> str (mkPath (parent p) (stem p +:+ ".jpg")) ->
                  fs st' !! k = fs st !! k)
    /\ match r with
       | (Some q, true) =>
           lower (suffix p) = ".webp"
           /\ q = mkPath (parent p) (stem p +:+ ".jpg")
           /\ In (INFO, Converted p) (log st')
           /\ exists f fmt i, fs st !! str p = Some f
                /\ f_content f = Picture fmt i
                /\ fs st' !! str q = Some (jpeg_of i)
       | (Some q, false) => lower (suffix p) <> ".webp" /\ q = p /\ st' = st
       | (None, converted) =>
           lower (suffix p) = ".webp" /\ converted = false
           /\ In (ERROR, ErrorConverting p) (log st')
       end.
Proof.
  unfold convert_webp_to_jpg.
  destruct (String.eqb_spec (lower (suffix p)) ".webp") as [Hw|Hw].
  2:{ eexists _, _. split; [reflexivity|]. split; [by repeat split|]. done. }
  rewrite (webp_with_suffix _ _ Hw). munfold.
  pose proof (jpg_beside p Hw) as N.
  destruct (fs st !! str p) as [f|] eqn:Ef; simpl.
  2:{ eexists _, _. split; [reflexivity|]. split; [by repeat split|]. simpl.
      split; [done|]. split; [done|]. split; [done|]. split; [done|].
      apply in_or_app. right. by left. }
  destruct (f_content f) as [fmt i| |] eqn:Ec; simpl.
  2,3: eexists _, _; (split; [reflexivity|]); (split; [by repeat split|]); simpl;
       (split; [done|]); (split; [done|]); (split; [done|]); (split; [done|]);
       apply in_or_app; right; by left.
  destruct (can_save env _); simpl.
  2:{ eexists _, _. split; [reflexivity|]. split; [by repeat split|]. simpl.
      split; [done|]. split; [done|]. split; [done|]. split; [done|].
      apply in_or_app. right. by left. }
  eexists _, _. split; [reflexivity|]. split; [by repeat split|]. simpl.
  split; [by rewrite lookup_insert_ne, Ef|].
  split; [intros k Hk; by rewrite lookup_insert_ne|].
  split; [done|]. split; [done|].
  split; [apply in_or_app; right; by left|].
  exists f, fmt, i. by rewrite lookup_insert_eq.
Qed.

(** *** A video that the transcoder tags *)

Lemma rfind_None (c : ascii) (s : string) : rfind c s = None -> lacks c s.
Proof.
  induction s as [|a s IH]; simpl; [done|].
  destruct (rfind c s); [done|].
  destruct (Ascii.eqb_spec a c); [done|]. auto.
Qed.

Lemma rfind_Some (c : ascii) (s : string) (i : nat) :
  rfind c s = Some i -> exists t, drop_str i s = String c t /\ lacks c t.
Proof.
  revert i. induction s as [|a s IH]; simpl; [done|]. intros i.
  destruct (rfind c s) as [j|] eqn:E.
  - intros [= <-]. simpl. by apply IH.
  - destruct (Ascii.eqb_spec a c) as [->|]; [|done].
    intros [= <-]. exists s. split; [done|]. by apply rfind_None.
Qed.

(** An extension holds one dot, its first character. *)
Lemma suffix_one_dot (p : Path) :
  suffix p = "" \/ exists t, suffix p = String "." t /\ lacks "." t.
Proof.
  unfold suffix. destruct (rfind "." (name p)) as [i|] eqn:E; [|by left].
  destruct (_ && _); [|by left]. right. by apply rfind_Some.
Qed.

(** The temporary file of a video has another name than the video. *)
Lemma tmp_beside (p : Path) :
  str (mkPath (parent p) (stem p +:+ ".tmp.mp4")) <> str p.
Proof.
  intros E. destruct p as [d n]. simpl in E. apply str_inj_name in E.
  pose proof (stem_suffix (mkPath d n)) as S. simpl in S.
  rewrite <- S in E at 2. apply app_inv_head_str in E.
  destruct (suffix_one_dot (mkPath d n)) as [Z|(t & Z & L)]; rewrite Z in E; [done|].
  injection E as <-. simpl in L. tauto.
Qed.

(** Every coordinate of the location is a number. *)
Definition numeric (l : option location) : bool :=
  match located l with
  | Some (Some _, Some _) => true
  | Some _ => false
  | None => true
  end.

Lemma ffmpeg_cmd_numeric i o dt l :
  numeric l = true -> exists cmd, ffmpeg_cmd i o dt l = Ok cmd.
Proof.
  unfold numeric, ffmpeg_cmd. intros H.
  destruct (located l) as [[[x|] [y|]]|]; try done; by eexists.
Qed.

(** X11. When the transcoder is installed and exits with status 0, the
    video it wrote to the temporary path is moved to the derived,
    deduplicated output path: the file there is the transcoder's output,
    the temporary path is free again, the input video is still in the
    data folder, and the video counts as processed. *)
Theorem bts_transcoded env cfg taken_at location bts_media st run f out :
  bts_media <> "" ->
  fs st !! str (joinpath data_folder (name (Path_of_string bts_media))) = Some f ->
  lower (suffix (joinpath data_folder (name (Path_of_string bts_media)))) = ".mp4" ->
  numeric location = true ->
  ffmpeg env = Some run ->
  (forall cmd, returncode (run cmd f) = 0%Z /\ written (run cmd f) = Some out) ->
  exists bts_new_path st',
    process_bts env cfg taken_at location (Some bts_media) st = (Ok tt, st')
    /\ first_free (fs st)
         (mkPath output_folder
            (bts_name cfg taken_at
               (joinpath data_folder (name (Path_of_string bts_media)))))
         bts_new_path
    /\ fs st' !! str bts_new_path = Some out
    /\ fs st' !! str (mkPath (parent bts_new_path)
                             (stem bts_new_path +:+ ".tmp.mp4")) = None
    /\ fs st' !! str (joinpath data_folder (name (Path_of_string bts_media)))
       = Some f
    /\ processed_files_count st' = S (processed_files_count st)
    /\ skipped_files_count st' = skipped_files_count st
    /\ In (INFO, ProcessedBts bts_new_path) (log st').
Proof.
  intros Hne Hsome Hmp4 Hnum Hff Hrun.
  set (bts_path := joinpath data_folder (name (Path_of_string bts_media))) in *.
  assert (Hex : exists_ (fs st) bts_path = true).
  { apply exists_spec. apply elem_of_dom. by exists f. }
  assert (T : truthy (Some bts_media) = true) by (by destruct bts_media).
  assert (G : get st = (Ok st, st)) by done.
  assert (J : joinpath output_folder (bts_name cfg taken_at bts_path)
              = mkPath output_folder (bts_name cfg taken_at bts_path)).
  { unfold joinpath, bts_name.
    destruct (keep_original_filename cfg); by rewrite strftime_name_nonempty. }
  assert (Hn : name (mkPath output_folder (bts_name cfg taken_at bts_path)) <> "").
  { simpl. unfold bts_name. destruct (keep_original_filename cfg); discriminate. }
  destruct (get_unique_filename_run _ st Hn) as (p & R & FF).
  pose proof (first_free_parent _ _ _ FF) as Hp. simpl in Hp.
  pose proof (first_free_name _ _ _ Hn FF) as Hpn.
  set (tmp := mkPath (parent p) (stem p +:+ ".tmp.mp4")).
  assert (W : with_suffix p ".tmp.mp4" = Ok tmp).
  { unfold with_suffix. by destruct (String.eqb_spec (name p) ""). }
  assert (Lf : lift (Ok tmp) st = (Ok tmp, st)) by done.
  destruct (ffmpeg_cmd_numeric bts_path tmp taken_at location Hnum) as [cmd Hcmd].
  destruct (Hrun cmd) as [Hrc Hwr].
  assert (Nsrc_p : str bts_path <> str p).
  { destruct p as [d n]. simpl in Hp. subst d. rewrite str_output_folder.
    unfold bts_path, joinpath.
    destruct (String.eqb (name (Path_of_string bts_media)) ""); discriminate. }
  assert (Nsrc_t : str bts_path <> str tmp).
  { unfold tmp. rewrite Hp, str_output_folder.
    unfold bts_path, joinpath.
    destruct (String.eqb (name (Path_of_string bts_media)) ""); discriminate. }
  assert (U : update_mp4_metadata env bts_path tmp taken_at location st
              = (Ok true, logged (with_fs st (<[str tmp := out]> (fs st)))
                                 INFO (UpdatedMp4 tmp))).
  { unfold update_mp4_metadata, subprocess_run. rewrite Hff, Hcmd. munfold.
    rewrite Hsome, Hwr, Hrc. reflexivity. }
  exists p. eexists. split.
  - unfold process_bts. rewrite T. fold bts_path. cbv zeta.
    rewrite (bind_run_Ok _ _ _ _ _ G). rewrite Hex, Hmp4.
    change (String.eqb ".mp4" ".mp4") with true.
    change (true && true) with true. cbv iota.
    fold (bts_name cfg taken_at bts_path). rewrite J.
    rewrite (bind_run_Ok _ _ _ _ _ R). rewrite W.
    rewrite (bind_run_Ok _ _ _ _ _ Lf).
    rewrite (bind_run_Ok _ _ _ _ _ U). cbv iota.
    munfold. simpl. rewrite lookup_insert_eq. reflexivity.
  - simpl. split; [done|]. split; [by rewrite lookup_insert_eq|].
    split.
    { rewrite lookup_insert_ne by (apply not_eq_sym, tmp_beside).
      by rewrite lookup_delete_eq. }
    split.
    { rewrite lookup_insert_ne by done. rewrite lookup_delete_ne by done.
      rewrite lookup_insert_ne by done. done. }
    split; [done|]. split; [done|].
    apply in_or_app. right. by left.
Qed.

(** A transcoder that always succeeds and tags what it copies. *)
Definition tagging (cmd : list string) (f : file) : completed :=
  mk_completed 0 (Some (mk_file (Video "tagged") no_exif no_iptc [])).

(** Witness of [bts_transcoded]. *)
Lemma bts_transcoded_witness :
  "/Photos/user/bts/clip.mp4" <> ""
  /\ fs (initial clip_files)
       !! str (joinpath data_folder (name (Path_of_string "/Photos/user/bts/clip.mp4")))
     = Some clip
  /\ lower (suffix (joinpath data_folder
                      (name (Path_of_string "/Photos/user/bts/clip.mp4"))))
     = ".mp4"
  /\ numeric None = true
  /\ ffmpeg (transcoding tagging) = Some tagging
  /\ (forall cmd, returncode (tagging cmd clip) = 0%Z
                  /\ written (tagging cmd clip)
                     = Some (mk_file (Video "tagged") no_exif no_iptc []))
  /\ exists bts_new_path st',
    process_bts (transcoding tagging)
                default_settings noon None (Some "/Photos/user/bts/clip.mp4")
                (initial clip_files) = (Ok tt, st')
    /\ first_free (fs (initial clip_files))
         (mkPath output_folder
            (bts_name default_settings noon
               (joinpath data_folder
                  (name (Path_of_string "/Photos/user/bts/clip.mp4")))))
         bts_new_path
    /\ fs st' !! str bts_new_path
       = Some (mk_file (Video "tagged") no_exif no_iptc [])
    /\ fs st' !! str (mkPath (parent bts_new_path)
                             (stem bts_new_path +:+ ".tmp.mp4")) = None
    /\ fs st' !! str (joinpath data_folder
                        (name (Path_of_string "/Photos/user/bts/clip.mp4")))
       = Some clip
    /\ processed_files_count st' = S (processed_files_count (initial clip_files))
    /\ skipped_files_count st' = skipped_files_count (initial clip_files)
    /\ In (INFO, ProcessedBts bts_new_path) (log st').
Proof.
  assert (H1 : "/Photos/user/bts/clip.mp4" <> "") by discriminate.
  assert (H2 : fs (initial clip_files)
       !! str (joinpath data_folder (name (Path_of_string "/Photos/user/bts/clip.mp4")))
     = Some clip) by (vm_compute; reflexivity).
  assert (H3 : lower (suffix (joinpath data_folder
                      (name (Path_of_string "/Photos/user/bts/clip.mp4"))))
     = ".mp4") by (vm_compute; reflexivity).
  assert (H4 : numeric None = true) by reflexivity.
  assert (H5 : ffmpeg (transcoding tagging) = Some tagging)
    by reflexivity.
  assert (H6 : forall cmd, returncode (tagging cmd clip) = 0%Z
                  /\ written (tagging cmd clip)
                     = Some (mk_file (Video "tagged") no_exif no_iptc []))
    by (intros cmd; split; reflexivity).
  exact (conj H1 (conj H2 (conj H3 (conj H4 (conj H5 (conj H6
           (bts_transcoded _ default_settings noon None
              "/Photos/user/bts/clip.mp4" (initial clip_files) tagging clip
              _ H1 H2 H3 H4 H5 H6))))))).
Defined.

(** *** The last hour of the calendar *)

Lemma fallback_ignores_tzinfo (dt : datetime) :
  _utc_to_german_time None (as_utc dt) = _utc_to_german_time None dt.
Proof. destruct dt as [y m d h mi s us [[]|]]; reflexivity. Qed.

Lemma add_overflow (dt : datetime) (td : Z) :
  ((_MAXORDINAL + 1) * US_PER_DAY <= as_timedelta dt + td)%Z ->
  add dt td = Raise OverflowError.
Proof.
  intros H. unfold add. cbv zeta.
  assert (D : (_MAXORDINAL + 1 <= (as_timedelta dt + td) / US_PER_DAY)%Z).
  { apply Z.div_le_lower_bound; [done|]. lia. }
  destruct (Z.leb_spec ((as_timedelta dt + td) / US_PER_DAY) _MAXORDINAL); [lia|].
  by rewrite andb_false_r.
Qed.

(** X12. Without the timezone database, a capture time in the last hour
    of the year 9999 cannot be moved to German time: the normaliser raises
    [OverflowError]. The EXIF writer catches it, so the file gets no EXIF
    data at all. *)
Theorem utc_to_german_time_overflow (dt : datetime) :
  valid_datetime dt ->
  (instant datetime_max < instant dt + hours 1)%Z ->
  _utc_to_german_time None dt = Raise OverflowError
  /\ forall env p loc cap st,
       ZoneInfo env = None ->
       fs (update_exif env (Some p) dt loc cap st).2 = fs st.
Proof.
  intros V Hmax.
  assert (R : _utc_to_german_time None dt = Raise OverflowError).
  { unfold _utc_to_german_time. rewrite naive_replace.
    set (dn := replace_tzinfo dt None).
    assert (Hy : (1 <= year dt <= MAXYEAR)%Z) by (destruct V as (? & (? & ?) & ?); lia).
    destruct (last_sunday_loop (year dt) 3) as (ds & C3 & L3 & S3); [done|lia|done|].
    destruct (last_sunday_loop (year dt) 10) as (de & C10 & L10 & S10); [done|lia|done|].
    change (year dn) with (year dt).
    rewrite C3, bind_Ok, L3, bind_Ok, C10, bind_Ok, L10, bind_Ok.
    apply add_overflow.
    change (as_timedelta dn) with (as_timedelta dt).
    unfold instant, hours in Hmax. rewrite as_timedelta_max in Hmax.
    unfold timedelta. destruct (_ && _); lia. }
  split; [exact R|].
  intros env p loc cap st Hz.
  destruct (update_exif_cases env p dt loc cap st)
    as (st' & E & _ & [[F _]|(f & d & e & _ & D & _)]).
  - by rewrite E.
  - rewrite Hz, fallback_ignores_tzinfo, R in D. done.
Qed.

(** Witness of [utc_to_german_time_overflow]: half an hour before the
    end of the calendar. *)
Lemma utc_to_german_time_overflow_witness :
  valid_datetime (mkdatetime 9999 12 31 23 30 0 0 (Some UTC))
  /\ (instant datetime_max
      < instant (mkdatetime 9999 12 31 23 30 0 0 (Some UTC)) + hours 1)%Z
  /\ _utc_to_german_time None (mkdatetime 9999 12 31 23 30 0 0 (Some UTC))
     = Raise OverflowError
  /\ forall env p loc cap st,
       ZoneInfo env = None ->
       fs (update_exif env (Some p) (mkdatetime 9999 12 31 23 30 0 0 (Some UTC))
                       loc cap st).2 = fs st.
Proof.
  assert (V : valid_datetime (mkdatetime 9999 12 31 23 30 0 0 (Some UTC))).
  { unfold valid_datetime, valid_date, valid_time, MAXYEAR; simpl.
    change (_days_in_month 9999 12) with 31%Z. lia. }
  assert (H : (instant datetime_max
      < instant (mkdatetime 9999 12 31 23 30 0 0 (Some UTC)) + hours 1)%Z)
    by (vm_compute; reflexivity).
  exact (conj V (conj H (utc_to_german_time_overflow _ V H))).
Defined.

(** *** A file that goes through *)

(** The file that the loop moves or copies to the new name. *)
Definition staged (path : Path) (conversion : option (Path * bool)) : Path :=
  match conversion with
  | Some (converted_path, true) => converted_path
  | _ => path
  end.

(** What the loop records for a file. *)
Definition record_file (r : role) (a : artifact) (st st' : state) : Prop :=
  match r with
  | primary =>
      primary_images st' = (primary_images st ++ [a])%list
      /\ secondary_images st' = secondary_images st
  | secondary =>
      primary_images st' = primary_images st
      /\ secondary_images st' = (secondary_images st ++ [a_path a])%list
  end.

Lemma new_name_nonempty cfg taken_at path r conversion :
  new_name cfg taken_at path r conversion <> "".
Proof.
  destruct (new_name_shape cfg taken_at path r conversion) as [y ->].
  pose proof (strftime_name_nonempty taken_at (String "_" y)) as H.
  intros E. rewrite E in H. done.
Qed.

Lemma finish_file_run env cfg taken_at location caption path r conversion st g :
  fs st !! str (staged path conversion) = Some g ->
  exists p st',
    finish_file env cfg taken_at location caption path r conversion st = (Ok tt, st')
    /\ first_free (fs st)
         (mkPath output_folder (new_name cfg taken_at path r conversion)) p
    /\ content_at st' (str p) = Some (f_content g)
    /\ processed_files_count st' = S (processed_files_count st)
    /\ converted_files_count st' = converted_files_count st
    /\ combined_files_count st' = combined_files_count st
    /\ skipped_files_count st' = skipped_files_count st
    /\ record_file r (mk_artifact p taken_at location caption) st st'
    /\ In (INFO, Processed r) (log st')
    /\ forall k, k <> str p -> k <> str p +:+ "~" ->
         fs st' !! k
         = match conversion with
           | Some (converted_path, true) => delete (str converted_path) (fs st) !! k
           | _ => fs st !! k
           end.
Proof.
  intros Hg. unfold finish_file. cbv zeta. rewrite new_name_joinpath.
  assert (Hn : name (mkPath output_folder (new_name cfg taken_at path r conversion))
               <> "") by apply new_name_nonempty.
  destruct (get_unique_filename_run _ st Hn) as (p & R & FF).
  rewrite (bind_run_Ok _ _ _ _ _ R).
  assert (Mv : exists files,
             match conversion with
             | Some (converted_path, true) => rename converted_path p
             | _ => copy2 path p
             end st = (Ok tt, with_fs st files)
             /\ files !! str p = Some g
             /\ forall k, k <> str p ->
                  files !! k
                  = match conversion with
                    | Some (converted_path, true) =>
                        delete (str converted_path) (fs st) !! k
                    | _ => fs st !! k
                    end).
  { unfold staged in Hg.
    destruct conversion as [[cp [|]]|]; munfold; rewrite Hg; simpl;
      eexists; (split; [reflexivity|]);
      (split; [by rewrite lookup_insert_eq|]);
      intros k Hk; by rewrite lookup_insert_ne. }
  destruct Mv as (files & Mv & Lp & Fr).
  rewrite (bind_run_Ok _ _ _ _ _ Mv).
  set (st1 := with_fs st files).
  destruct (update_exif_frame env (Some p) taken_at location caption st1)
    as (st2 & E2 & (a1 & a2 & a3 & a4 & a5 & a6) & C2 & _).
  rewrite (bind_run_Ok _ _ _ _ _ E2).
  assert (L3 : logging INFO (ExifAdded r) st2
               = (Ok tt, logged st2 INFO (ExifAdded r))) by done.
  rewrite (bind_run_Ok _ _ _ _ _ L3).
  destruct (update_iptc_frame env (str p) caption (logged st2 INFO (ExifAdded r)))
    as (st4 & E4 & (b1 & b2 & b3 & b4 & b5 & b6) & C4 & _).
  rewrite (bind_run_Ok _ _ _ _ _ E4).
  assert (Cp : content_at st4 (str p) = Some (f_content g)).
  { rewrite C4 by apply neq_backup. rewrite content_at_logged, C2.
    unfold content_at, st1. simpl. by rewrite Lp. }
  assert (F2 : forall k, k <> str p -> fs st2 !! k = files !! k).
  { intros k Hk.
    destruct (update_exif_cases env p taken_at location caption st1)
      as (st2' & E2' & _ & H).
    assert (st2' = st2) as -> by congruence.
    destruct H as [[-> _]|(f0 & d0 & e0 & _ & _ & -> & _)]; [done|].
    by rewrite lookup_insert_ne. }
  assert (F4 : forall k, k <> str p -> k <> str p +:+ "~" ->
                         fs st4 !! k = fs st2 !! k).
  { intros k Hk Hk'.
    destruct (update_iptc_cases env (str p) caption (logged st2 INFO (ExifAdded r)))
      as (st4' & E4' & _ & H & _).
    assert (st4' = st4) as -> by congruence.
    by rewrite H. }
  simpl in *.
  exists p. destruct r; munfold; simpl; eexists; (split; [reflexivity|]); simpl;
    (split; [done|]); (split; [exact Cp|]);
    (split; [congruence|]); (split; [congruence|]); (split; [congruence|]);
    (split; [congruence|]); (split; [split; congruence|]);
    (split; [apply in_or_app; right; by left|]);
    intros k Hk Hk'; rewrite F4, F2 by done; by apply Fr.
Qed.

(** X13. With conversion enabled, a WebP picture that decodes and whose
    JPEG can be written goes through: the step returns, the JPEG of the
    picture is at the first free path for the derived name, the file is
    recorded for the combine pass under that path with the record's
    capture time, location and caption, and the converted and the
    processed counter each go up by one. A failing EXIF or IPTC writer
    changes none of this. *)
Theorem process_file_converts env cfg taken_at location caption path r st f fmt i :
  convert_to_jpeg cfg = true ->
  lower (suffix path) = ".webp" ->
  fs st !! str path = Some f ->
  f_content f = Picture fmt i ->
  can_save env (mkPath (parent path) (stem path +:+ ".jpg")) = true ->
  exists p st',
    process_file env cfg taken_at location caption path r st = (Ok tt, st')
    /\ first_free (<[str (mkPath (parent path) (stem path +:+ ".jpg"))
                     := jpeg_of i]> (fs st))
         (mkPath output_folder
            (new_name cfg taken_at path r
               (Some (mkPath (parent path) (stem path +:+ ".jpg"), true)))) p
    /\ content_at st' (str p) = Some (Picture JPEG (RGB i))
    /\ processed_files_count st' = S (processed_files_count st)
    /\ converted_files_count st' = S (converted_files_count st)
    /\ skipped_files_count st' = skipped_files_count st
    /\ record_file r (mk_artifact p taken_at location caption) st st'.
Proof.
  intros Hc Hw Hf Hcf Hs. unfold process_file. rewrite Hc.
  assert (L : logging INFO (FoundImage path) st
              = (Ok tt, logged st INFO (FoundImage path))) by done.
  rewrite (bind_run_Ok _ _ _ _ _ L).
  pose proof (convert_webp_to_jpg_ok env path (logged st INFO (FoundImage path))
                f fmt i Hw Hf Hcf Hs) as Cv.
  rewrite (bind_run_Ok _ _ _ _ _ Cv). cbv iota beta.
  set (jpg := mkPath (parent path) (stem path +:+ ".jpg")) in *.
  set (st1 := logged (with_fs (logged st INFO (FoundImage path))
                        (<[str jpg := jpeg_of i]> (fs (logged st INFO (FoundImage path)))))
                     INFO (Converted path)).
  assert (I1 : incr_converted st1 = (Ok tt, (incr_converted st1).2)) by done.
  rewrite (bind_run_Ok _ _ _ _ _ I1).
  destruct (finish_file_run env cfg taken_at location caption path r
              (Some (jpg, true)) (incr_converted st1).2 (jpeg_of i))
    as (p & st' & R & FF & C & P1 & P2 & P3 & P4 & Rec & _).
  { simpl. by rewrite lookup_insert_eq. }
  exists p, st'. split; [exact R|]. split; [exact FF|]. split; [exact C|].
  split; [exact P1|]. split; [by rewrite P2|]. split; [by rewrite P4|].
  destruct r; exact Rec.
Qed.

(** A name that ends in .webp. *)
Definition named_webp (p : Path) : Prop :=
  exists x, x <> "" /\ name p = x +:+ ".webp".

Lemma first_free_named_webp files x p :
  x <> "" ->
  first_free files (mkPath output_folder (x +:+ ".webp")) p -> named_webp p.
Proof.
  intros Hx [[_ ->] | (_ & k & _ & -> & _)].
  - by exists x.
  - unfold candidate. simpl.
    destruct (webp_name output_folder x Hx) as [-> ->].
    exists (x +:+ "_" +:+ pretty k). split.
    + destruct x; [done|discriminate].
    + by rewrite !app_assoc_str.
Qed.

(** X14. With conversion disabled, every file that exists goes through,
    picture or not: it is copied as it is to the first free path for the
    derived name, which always ends in .webp whatever the name and the
    format of the input, it is recorded for the combine pass, and the
    processed counter goes up by one; nothing is converted or skipped. *)
Theorem process_file_copies env cfg taken_at location caption path r st f :
  convert_to_jpeg cfg = false ->
  fs st !! str path = Some f ->
  exists p st',
    process_file env cfg taken_at location caption path r st = (Ok tt, st')
    /\ first_free (fs st)
         (mkPath output_folder (new_name cfg taken_at path r None)) p
    /\ named_webp p
    /\ content_at st' (str p) = Some (f_content f)
    /\ processed_files_count st' = S (processed_files_count st)
    /\ converted_files_count st' = converted_files_count st
    /\ skipped_files_count st' = skipped_files_count st
    /\ record_file r (mk_artifact p taken_at location caption) st st'.
Proof.
  intros Hc Hf. unfold process_file. rewrite Hc.
  assert (L : logging INFO (FoundImage path) st
              = (Ok tt, logged st INFO (FoundImage path))) by done.
  rewrite (bind_run_Ok _ _ _ _ _ L).
  destruct (finish_file_run env cfg taken_at location caption path r
              None (logged st INFO (FoundImage path)) f)
    as (p & st' & R & FF & C & P1 & P2 & P3 & P4 & Rec & _); [done|].
  exists p, st'. split; [exact R|]. split; [exact FF|]. split.
  { simpl in FF. unfold new_name in FF.
    destruct (keep_original_filename cfg).
    - rewrite <- !app_assoc_str in FF.
      apply first_free_named_webp in FF; [done|].
      pose proof (strftime_name_nonempty taken_at
                    ("_" +:+ role_str r +:+ "_" +:+ stem path)) as N.
      intros E. rewrite !app_assoc_str in E. rewrite E in N. done.
    - rewrite <- !app_assoc_str in FF.
      apply first_free_named_webp in FF; [done|].
      pose proof (strftime_name_nonempty taken_at ("_" +:+ role_str r)) as N.
      intros E. rewrite !app_assoc_str in E. rewrite E in N. done. }
  split; [exact C|]. split; [exact P1|]. split; [exact P2|]. split; [exact P4|].
  destruct r; exact Rec.
Qed.

(** Witness of [process_file_converts]: the primary picture of the Paris
    scenario. *)
Lemma process_file_converts_witness :
  convert_to_jpeg default_settings = true
  /\ lower (suffix (mkPath photo_folder "p1.webp")) = ".webp"
  /\ fs (initial (paris_files (Pixels "p") (Pixels "s")))
       !! str (mkPath photo_folder "p1.webp") = Some (webp (Pixels "p"))
  /\ f_content (webp (Pixels "p")) = Picture WEBP (Pixels "p")
  /\ can_save (quiet None)
       (mkPath (parent (mkPath photo_folder "p1.webp"))
               (stem (mkPath photo_folder "p1.webp") +:+ ".jpg")) = true
  /\ exists p st',
    process_file (quiet None) default_settings noon None None
      (mkPath photo_folder "p1.webp") primary
      (initial (paris_files (Pixels "p") (Pixels "s"))) = (Ok tt, st')
    /\ first_free
         (<[str (mkPath (parent (mkPath photo_folder "p1.webp"))
                        (stem (mkPath photo_folder "p1.webp") +:+ ".jpg"))
            := jpeg_of (Pixels "p")]>
            (fs (initial (paris_files (Pixels "p") (Pixels "s")))))
         (mkPath output_folder
            (new_name default_settings noon (mkPath photo_folder "p1.webp") primary
               (Some (mkPath (parent (mkPath photo_folder "p1.webp"))
                             (stem (mkPath photo_folder "p1.webp") +:+ ".jpg"),
                      true)))) p
    /\ content_at st' (str p) = Some (Picture JPEG (RGB (Pixels "p")))
    /\ processed_files_count st'
       = S (processed_files_count (initial (paris_files (Pixels "p") (Pixels "s"))))
    /\ converted_files_count st'
       = S (converted_files_count (initial (paris_files (Pixels "p") (Pixels "s"))))
    /\ skipped_files_count st'
       = skipped_files_count (initial (paris_files (Pixels "p") (Pixels "s")))
    /\ record_file primary (mk_artifact p noon None None)
         (initial (paris_files (Pixels "p") (Pixels "s"))) st'.
Proof.
  assert (H1 : convert_to_jpeg default_settings = true) by reflexivity.
  assert (H2 : lower (suffix (mkPath photo_folder "p1.webp")) = ".webp")
    by reflexivity.
  assert (H3 : fs (initial (paris_files (Pixels "p") (Pixels "s")))
       !! str (mkPath photo_folder "p1.webp") = Some (webp (Pixels "p")))
    by (vm_compute; reflexivity).
  assert (H4 : f_content (webp (Pixels "p")) = Picture WEBP (Pixels "p"))
    by reflexivity.
  assert (H5 : can_save (quiet None)
       (mkPath (parent (mkPath photo_folder "p1.webp"))
               (stem (mkPath photo_folder "p1.webp") +:+ ".jpg")) = true)
    by reflexivity.
  exact (conj H1 (conj H2 (conj H3 (conj H4 (conj H5
           (process_file_converts (quiet None) default_settings noon None None
              (mkPath photo_folder "p1.webp") primary
              (initial (paris_files (Pixels "p") (Pixels "s")))
              (webp (Pixels "p")) WEBP (Pixels "p") H1 H2 H3 H4 H5)))))).
Defined.

(** A JPEG picture in the input folder. *)
Definition jpeg_input : gmap string file :=
  <["resources/data/Photos/post/p1.jpg" := jpeg_of (Pixels "p")]> ∅.

(** Witness of [process_file_copies]: the JPEG picture gets a name that
    ends in .webp. *)
Lemma process_file_copies_witness :
  convert_to_jpeg copy_and_combine = false
  /\ fs (initial jpeg_input) !! str (mkPath photo_folder "p1.jpg")
     = Some (jpeg_of (Pixels "p"))
  /\ exists p st',
    process_file (quiet None) copy_and_combine noon None None
      (mkPath photo_folder "p1.jpg") primary (initial jpeg_input) = (Ok tt, st')
    /\ first_free (fs (initial jpeg_input))
         (mkPath output_folder
            (new_name copy_and_combine noon (mkPath photo_folder "p1.jpg")
                      primary None)) p
    /\ named_webp p
    /\ content_at st' (str p) = Some (f_content (jpeg_of (Pixels "p")))
    /\ processed_files_count st' = S (processed_files_count (initial jpeg_input))
    /\ converted_files_count st' = converted_files_count (initial jpeg_input)
    /\ skipped_files_count st' = skipped_files_count (initial jpeg_input)
    /\ record_file primary (mk_artifact p noon None None) (initial jpeg_input) st'.
Proof.
  assert (H1 : convert_to_jpeg copy_and_combine = false) by reflexivity.
  assert (H2 : fs (initial jpeg_input) !! str (mkPath photo_folder "p1.jpg")
               = Some (jpeg_of (Pixels "p"))) by (vm_compute; reflexivity).
  exact (conj H1 (conj H2
           (process_file_copies (quiet None) copy_and_combine noon None None
              (mkPath photo_folder "p1.jpg") primary (initial jpeg_input)
              (jpeg_of (Pixels "p")) H1 H2))).
Defined.

(** *** What a conversion does to the input folder *)

(** [path] is a file of one of the two input folders. *)
Definition input_file (path : Path) : Prop :=
  parent path = photo_folder \/ parent path = bereal_folder.

Lemma input_not_output (path p : Path) (x : string) :
  input_file path -> parent p = output_folder ->
  str path <> str p +:+ x.
Proof.
  intros [H|H] Hp; destruct path as [d n], p as [d' n']; simpl in *; subst;
    rewrite str_output_folder; discriminate.
Qed.

(** X15. The converter writes its JPEG into the input folder, beside the
    WebP file, and the loop then moves it to the output folder. So after a
    WebP file of an input folder went through with conversion enabled, the
    WebP file is still there, and no file of the same name with the
    extension .jpg is in the input folder, whether or not there was one
    before the step. *)
Theorem conversion_replaces_sibling env cfg taken_at location caption path r st
    f fmt i :
  convert_to_jpeg cfg = true ->
  lower (suffix path) = ".webp" ->
  fs st !! str path = Some f ->
  f_content f = Picture fmt i ->
  can_save env (mkPath (parent path) (stem path +:+ ".jpg")) = true ->
  input_file path ->
  exists st',
    process_file env cfg taken_at location caption path r st = (Ok tt, st')
    /\ fs st' !! str path = Some f
    /\ fs st' !! str (mkPath (parent path) (stem path +:+ ".jpg")) = None.
Proof.
  intros Hc Hw Hf Hcf Hs Hin. unfold process_file. rewrite Hc.
  assert (L : logging INFO (FoundImage path) st
              = (Ok tt, logged st INFO (FoundImage path))) by done.
  rewrite (bind_run_Ok _ _ _ _ _ L).
  pose proof (convert_webp_to_jpg_ok env path (logged st INFO (FoundImage path))
                f fmt i Hw Hf Hcf Hs) as Cv.
  rewrite (bind_run_Ok _ _ _ _ _ Cv). cbv iota beta.
  set (jpg := mkPath (parent path) (stem path +:+ ".jpg")) in *.
  set (st1 := logged (with_fs (logged st INFO (FoundImage path))
                        (<[str jpg := jpeg_of i]> (fs (logged st INFO (FoundImage path)))))
                     INFO (Converted path)).
  assert (I1 : incr_converted st1 = (Ok tt, (incr_converted st1).2)) by done.
  rewrite (bind_run_Ok _ _ _ _ _ I1).
  destruct (finish_file_run env cfg taken_at location caption path r
              (Some (jpg, true)) (incr_converted st1).2 (jpeg_of i))
    as (p & st' & R & FF & _ & _ & _ & _ & _ & _ & _ & Fr).
  { simpl. by rewrite lookup_insert_eq. }
  pose proof (first_free_parent _ _ _ FF) as Hp. simpl in Hp.
  assert (Hjin : input_file jpg) by exact Hin.
  exists st'. split; [exact R|]. split.
  - rewrite Fr.
    + rewrite lookup_delete_ne by apply (jpg_beside path Hw).
      simpl. rewrite lookup_insert_ne by apply (jpg_beside path Hw). exact Hf.
    + pose proof (input_not_output path p "" Hin Hp) as N.
      by rewrite app_nil_r_str in N.
    + apply (input_not_output path p "~" Hin Hp).
  - rewrite Fr.
    + by rewrite lookup_delete_eq.
    + pose proof (input_not_output jpg p "" Hjin Hp) as N.
      by rewrite app_nil_r_str in N.
    + apply (input_not_output jpg p "~" Hjin Hp).
Qed.

(** An input folder where a JPEG of the same name lies beside the WebP
    file. *)
Definition sibling_files : gmap string file :=
  <["resources/data/Photos/post/p1.webp" := webp (Pixels "p")]>
  (<["resources/data/Photos/post/p1.jpg" := jpeg_of (Pixels "other")]> ∅).

(** Witness of [conversion_replaces_sibling]. *)
Lemma conversion_replaces_sibling_witness :
  convert_to_jpeg default_settings = true
  /\ lower (suffix (mkPath photo_folder "p1.webp")) = ".webp"
  /\ fs (initial sibling_files) !! str (mkPath photo_folder "p1.webp")
     = Some (webp (Pixels "p"))
  /\ f_content (webp (Pixels "p")) = Picture WEBP (Pixels "p")
  /\ can_save (quiet None)
       (mkPath (parent (mkPath photo_folder "p1.webp"))
               (stem (mkPath photo_folder "p1.webp") +:+ ".jpg")) = true
  /\ input_file (mkPath photo_folder "p1.webp")
  /\ exists st',
    process_file (quiet None) default_settings noon None None
      (mkPath photo_folder "p1.webp") primary (initial sibling_files) = (Ok tt, st')
    /\ fs st' !! str (mkPath photo_folder "p1.webp") = Some (webp (Pixels "p"))
    /\ fs st' !! str (mkPath (parent (mkPath photo_folder "p1.webp"))
                             (stem (mkPath photo_folder "p1.webp") +:+ ".jpg"))
       = None.
Proof.
  assert (H1 : convert_to_jpeg default_settings = true) by reflexivity.
  assert (H2 : lower (suffix (mkPath photo_folder "p1.webp")) = ".webp")
    by reflexivity.
  assert (H3 : fs (initial sibling_files) !! str (mkPath photo_folder "p1.webp")
               = Some (webp (Pixels "p"))) by (vm_compute; reflexivity).
  assert (H4 : f_content (webp (Pixels "p")) = Picture WEBP (Pixels "p"))
    by reflexivity.
  assert (H5 : can_save (quiet None)
       (mkPath (parent (mkPath photo_folder "p1.webp"))
               (stem (mkPath photo_folder "p1.webp") +:+ ".jpg")) = true)
    by reflexivity.
  assert (H6 : input_file (mkPath photo_folder "p1.webp")) by (left; reflexivity).
  exact (conj H1 (conj H2 (conj H3 (conj H4 (conj H5 (conj H6
           (conversion_replaces_sibling (quiet None) default_settings noon None None
              (mkPath photo_folder "p1.webp") primary (initial sibling_files)
              (webp (Pixels "p")) WEBP (Pixels "p") H1 H2 H3 H4 H5 H6))))))).
Defined.

(** *** The folder of a record *)

(** X16. The folder of a record is chosen by its primary file alone: when
    the primary file is not in the post folder, both files are looked for
    in the older folder. So a record whose primary file is in neither
    folder and whose secondary file is not in the older folder is given
    up, even if the secondary file lies in the post folder: no file is
    written, nothing is recorded for the combine pass and nothing is
    counted as processed. *)
Theorem secondary_follows_primary env cfg e st p s t d :
  e_primary e = Some p -> e_secondary e = Some s ->
  e_takenAt e = Some t -> strptime t = Ok d ->
  e_btsMedia e = None ->
  exists_ (fs st) (joinpath photo_folder (name (Path_of_string p))) = false ->
  exists_ (fs st) (joinpath bereal_folder (name (Path_of_string p))) = false ->
  exists_ (fs st) (joinpath bereal_folder (name (Path_of_string s))) = false ->
  exists st', process_entry env cfg e st = (Ok tt, st')
    /\ fs st' = fs st
    /\ processed_files_count st' = processed_files_count st
    /\ primary_images st' = primary_images st
    /\ secondary_images st' = secondary_images st.
Proof.
  intros Ep Es Et Ed Eb Hp Hbp Hbs.
  assert (L1 : forall (A : Type) (a : A), lift (Ok a) st = (Ok a, st)) by done.
  assert (G : get st = (Ok st, st)) by done.
  set (ta := replace_tzinfo d (Some UTC)).
  pose proof (process_file_missing env cfg ta (e_location e) (e_caption e)
                (joinpath bereal_folder (name (Path_of_string p))) primary st Hbp)
    as P1.
  assert (B : exists st1 r,
             entry_body env cfg e st = (r, st1) /\ fs st1 = fs st
             /\ processed_files_count st1 = processed_files_count st
             /\ primary_images st1 = primary_images st
             /\ secondary_images st1 = secondary_images st).
  { unfold entry_body. rewrite Ep, Es, Et, Eb. unfold key.
    rewrite (bind_run_Ok _ _ _ _ _ (L1 _ p)).
    rewrite (bind_run_Ok _ _ _ _ _ (L1 _ s)).
    rewrite (bind_run_Ok _ _ _ _ _ G). rewrite Hp. cbn [negb]. cbv iota beta.
    rewrite (bind_run_Ok _ _ _ _ _ (L1 _ t)).
    unfold datetime_strptime. rewrite Ed.
    rewrite (bind_run_Ok _ _ _ _ _ (L1 _ d)). fold ta.
    rewrite bind_run, P1.
    destruct (convert_to_jpeg cfg && _); [|by eexists _, _].
    set (st1 := skipped_one _).
    assert (Hbs1 : exists_ (fs st1)
                     (joinpath bereal_folder (name (Path_of_string s))) = false)
      by exact Hbs.
    rewrite bind_run.
    rewrite (process_file_missing env cfg ta (e_location e) (e_caption e)
               (joinpath bereal_folder (name (Path_of_string s))) secondary
               st1 Hbs1).
    destruct (convert_to_jpeg cfg && _); by eexists _, _. }
  destruct B as (st1 & r & B & F & C1 & C2 & C3).
  unfold process_entry, try_except. rewrite B.
  destruct r as [[]|x]; eexists; (split; [reflexivity|]); done.
Qed.

(** A record whose secondary picture is in the post folder, and whose
    primary picture is nowhere. *)
Definition lone_secondary : gmap string file :=
  <["resources/data/Photos/post/s1.webp" := webp (Pixels "s")]> ∅.

(** Witness of [secondary_follows_primary]. *)
Lemma secondary_follows_primary_witness :
  e_primary monday = Some "/Photos/user/post/p1.webp"
  /\ e_secondary monday = Some "/Photos/user/post/s1.webp"
  /\ e_takenAt monday = Some "2024-07-15T12:00:00.000Z"
  /\ strptime "2024-07-15T12:00:00.000Z" = Ok (mkdatetime 2024 7 15 12 0 0 0 None)
  /\ e_btsMedia monday = None
  /\ exists_ (fs (initial lone_secondary))
       (joinpath photo_folder (name (Path_of_string "/Photos/user/post/p1.webp")))
     = false
  /\ exists_ (fs (initial lone_secondary))
       (joinpath bereal_folder (name (Path_of_string "/Photos/user/post/p1.webp")))
     = false
  /\ exists_ (fs (initial lone_secondary))
       (joinpath bereal_folder (name (Path_of_string "/Photos/user/post/s1.webp")))
     = false
  /\ exists st',
      process_entry (quiet None) default_settings monday (initial lone_secondary)
      = (Ok tt, st')
      /\ fs st' = fs (initial lone_secondary)
      /\ processed_files_count st' = processed_files_count (initial lone_secondary)
      /\ primary_images st' = primary_images (initial lone_secondary)
      /\ secondary_images st' = secondary_images (initial lone_secondary).
Proof.
  assert (H1 : e_primary monday = Some "/Photos/user/post/p1.webp") by reflexivity.
  assert (H2 : e_secondary monday = Some "/Photos/user/post/s1.webp") by reflexivity.
  assert (H3 : e_takenAt monday = Some "2024-07-15T12:00:00.000Z") by reflexivity.
  assert (H4 : strptime "2024-07-15T12:00:00.000Z"
               = Ok (mkdatetime 2024 7 15 12 0 0 0 None)) by (vm_compute; reflexivity).
  assert (H5 : e_btsMedia monday = None) by reflexivity.
  assert (H6 : exists_ (fs (initial lone_secondary))
       (joinpath photo_folder (name (Path_of_string "/Photos/user/post/p1.webp")))
     = false) by (vm_compute; reflexivity).
  assert (H7 : exists_ (fs (initial lone_secondary))
       (joinpath bereal_folder (name (Path_of_string "/Photos/user/post/p1.webp")))
     = false) by (vm_compute; reflexivity).
  assert (H8 : exists_ (fs (initial lone_secondary))
       (joinpath bereal_folder (name (Path_of_string "/Photos/user/post/s1.webp")))
     = false) by (vm_compute; reflexivity).
  exact (conj H1 (conj H2 (conj H3 (conj H4 (conj H5 (conj H6 (conj H7 (conj H8
           (secondary_follows_primary (quiet None) default_settings monday
              (initial lone_secondary) _ _ _ _ H1 H2 H3 H4 H5 H6 H7 H8))))))))).
Defined.

(** *** Degrees, minutes and seconds *)

(** X17. For a latitude of magnitude at most 90 and a longitude of
    magnitude at most 180, in the binary64 arithmetic of the script, the
    numerators of the GPS block are whole numbers in range: the degrees
    from 0 to 90 (to 180 for the longitude), the minutes from 0 to 60 and
    the hundredths of a second from 0 to 6000. *)
Theorem gps_block_sexagesimal (lat lon : float) :
  PrimFloat.leb (abs lat) (float_of_Z 90) = true ->
  PrimFloat.leb (abs lon) (float_of_Z 180) = true ->
  exists g, gps_block lat lon = Ok g
    /\ (0 <= degrees (GPSLatitude g) <= 90)%Z
    /\ (0 <= minutes (GPSLatitude g) <= 60)%Z
    /\ (0 <= centiseconds (GPSLatitude g) <= 6000)%Z
    /\ (0 <= degrees (GPSLongitude g) <= 180)%Z
    /\ (0 <= minutes (GPSLongitude g) <= 60)%Z
    /\ (0 <= centiseconds (GPSLongitude g) <= 6000)%Z.
Proof.
  intros H1 H2. unfold gps_block.
  destruct (convert_to_degrees_abs lat 90 ltac:(lia) H1)
    as (_ & _ & t1 & -> & _ & A1 & A2 & A3 & _).
  destruct (convert_to_degrees_abs lon 180 ltac:(lia) H2)
    as (_ & _ & t2 & -> & _ & B1 & B2 & B3 & _).
  cbn [mbind result_bind]. eexists. split; [reflexivity|].
  cbn [GPSLatitude GPSLongitude]. done.
Qed.

(** Witness of [gps_block_sexagesimal]: the North Pole on the date
    line. *)
Lemma gps_block_sexagesimal_witness :
  PrimFloat.leb (abs 90) (float_of_Z 90) = true
  /\ PrimFloat.leb (abs (-180)) (float_of_Z 180) = true
  /\ exists g, gps_block 90 (-180) = Ok g
    /\ (0 <= degrees (GPSLatitude g) <= 90)%Z
    /\ (0 <= minutes (GPSLatitude g) <= 60)%Z
    /\ (0 <= centiseconds (GPSLatitude g) <= 6000)%Z
    /\ (0 <= degrees (GPSLongitude g) <= 180)%Z
    /\ (0 <= minutes (GPSLongitude g) <= 60)%Z
    /\ (0 <= centiseconds (GPSLongitude g) <= 6000)%Z.
Proof.
  assert (H1 : PrimFloat.leb (abs 90) (float_of_Z 90) = true)
    by (vm_compute; reflexivity).
  assert (H2 : PrimFloat.leb (abs (-180)) (float_of_Z 180) = true)
    by (vm_compute; reflexivity).
  exact (conj H1 (conj H2 (gps_block_sexagesimal 90 (-180) H1 H2))).
Defined.

(** *** A location that holds no number *)

Lemma gps_of_numeric la lo g : gps_of la lo = Ok g -> is_Some la /\ is_Some lo.
Proof. destruct la, lo; try done. Qed.

(** X18. When the location of a record has both keys but one of the two
    values is not a number, the comparison with 0 raises in both writers.
    The EXIF writer then writes nothing, not even the capture time; the
    video writer answers [False] after one error line without starting the
    transcoder, working or not, so that the video is copied without
    metadata. *)
Theorem location_without_numbers env p i o dt loc cap st :
  numeric loc = false ->
  fs (update_exif env (Some p) dt loc cap st).2 = fs st
  /\ update_mp4_metadata env i o dt loc st
     = (Ok false, logged st ERROR (UnexpectedMp4 i)).
Proof.
  intros Hn. split.
  - destruct (update_exif_cases env p dt loc cap st)
      as (st' & E & _ & [[F _]|(f & d & e & _ & _ & _ & _ & _ & G & _)]).
    + by rewrite E.
    + unfold numeric in Hn. destruct (located loc) as [[la lo]|]; [|done].
      destruct G as (g & G & _). apply gps_of_numeric in G.
      destruct G as [[x ->] [y ->]]. done.
  - unfold update_mp4_metadata, ffmpeg_cmd, numeric in *.
    destruct (located loc) as [[[x|] [y|]]|]; done.
Qed.

(** A location whose latitude is [null]. *)
Definition null_latitude : option location :=
  Some (mk_location (Some None) (Some (Some 2.3522%float))).

(** Witness of [location_without_numbers]. *)
Lemma location_without_numbers_witness :
  numeric null_latitude = false
  /\ fs (update_exif (quiet None)
           (Some (mkPath output_folder "a.jpg")) noon null_latitude None
           (initial stray_files)).2 = fs (initial stray_files)
  /\ update_mp4_metadata (quiet None) (mkPath data_folder "clip.mp4")
       (mkPath output_folder "clip.tmp.mp4") noon null_latitude
       (initial stray_files)
     = (Ok false,
        logged (initial stray_files) ERROR
               (UnexpectedMp4 (mkPath data_folder "clip.mp4"))).
Proof.
  assert (H : numeric null_latitude = false) by reflexivity.
  exact (conj H (location_without_numbers (quiet None)
                   (mkPath output_folder "a.jpg") (mkPath data_folder "clip.mp4")
                   (mkPath output_folder "clip.tmp.mp4") noon null_latitude None
                   (initial stray_files) H)).
Defined.

(** *** A timezone module without data *)

(** X19. The hand-written rule is only used when the timezone module
    cannot be imported. When the module is there but has no data for
    Europe/Berlin, the normaliser raises what the lookup raises, for every
    capture time; the EXIF writer catches it, so no file of the run gets
    any EXIF data. *)
Theorem zoneinfo_without_data env z x :
  ZoneInfo env = Some z -> z "Europe/Berlin" = Raise x ->
  forall dt,
    _utc_to_german_time (ZoneInfo env) dt = Raise x
    /\ forall p loc cap st,
         fs (update_exif env (Some p) dt loc cap st).2 = fs st
         /\ In (ERROR, FailedExif (Some p)) (log (update_exif env (Some p) dt loc cap st).2).
Proof.
  intros Hz Hx dt.
  assert (R : forall dt, _utc_to_german_time (ZoneInfo env) dt = Raise x).
  { intros dt'. rewrite Hz. unfold _utc_to_german_time. by rewrite Hx. }
  split; [apply R|]. intros p loc cap st.
  destruct (update_exif_cases env p dt loc cap st)
    as (st' & E & _ & [[F L]|(f & d & e & _ & D & _)]).
  - by rewrite E.
  - by rewrite R in D.
Qed.

(** A timezone module with an empty database. *)
Definition no_tzdata : zoneinfo := fun _ => Raise KeyError.

(** Witness of [zoneinfo_without_data]. *)
Lemma zoneinfo_without_data_witness :
  ZoneInfo (quiet (Some no_tzdata)) = Some no_tzdata
  /\ no_tzdata "Europe/Berlin" = Raise KeyError
  /\ forall dt,
    _utc_to_german_time (ZoneInfo (quiet (Some no_tzdata))) dt = Raise KeyError
    /\ forall p loc cap st,
         fs (update_exif (quiet (Some no_tzdata)) (Some p) dt loc cap st).2 = fs st
         /\ In (ERROR, FailedExif (Some p))
               (log (update_exif (quiet (Some no_tzdata)) (Some p) dt loc cap st).2).
Proof.
  assert (H1 : ZoneInfo (quiet (Some no_tzdata)) = Some no_tzdata) by reflexivity.
  assert (H2 : no_tzdata "Europe/Berlin" = Raise KeyError) by reflexivity.
  exact (conj H1 (conj H2
           (zoneinfo_without_data (quiet (Some no_tzdata)) no_tzdata KeyError H1 H2))).
Defined.

(** *** What a failed transcoder leaves behind *)

(** X20. When the transcoder exits with a status other than 0 after it
    wrote something to the temporary path, the loop copies the input video
    to the output path and goes on; what the transcoder wrote stays in the
    output folder under the temporary name, which does not end in a tilde,
    so the cleanup at the end of the run does not remove it either. *)
Theorem failed_transcode_leaves_temp env cfg taken_at location bts_media st run f out :
  bts_media <> "" ->
  fs st !! str (joinpath data_folder (name (Path_of_string bts_media))) = Some f ->
  lower (suffix (joinpath data_folder (name (Path_of_string bts_media)))) = ".mp4" ->
  numeric location = true ->
  ffmpeg env = Some run ->
  (forall cmd, returncode (run cmd f) <> 0%Z /\ written (run cmd f) = Some out) ->
  exists bts_new_path st',
    process_bts env cfg taken_at location (Some bts_media) st = (Ok tt, st')
    /\ fs st' !! str bts_new_path = Some f
    /\ fs st' !! str (mkPath (parent bts_new_path)
                             (stem bts_new_path +:+ ".tmp.mp4")) = Some out
    /\ ends_with "~" (stem bts_new_path +:+ ".tmp.mp4") = false.
Proof.
  intros Hne Hsome Hmp4 Hnum Hff Hrun.
  set (bts_path := joinpath data_folder (name (Path_of_string bts_media))) in *.
  assert (Hex : exists_ (fs st) bts_path = true).
  { apply exists_spec. apply elem_of_dom. by exists f. }
  assert (T : truthy (Some bts_media) = true) by (by destruct bts_media).
  assert (G : get st = (Ok st, st)) by done.
  assert (J : joinpath output_folder (bts_name cfg taken_at bts_path)
              = mkPath output_folder (bts_name cfg taken_at bts_path)).
  { unfold joinpath, bts_name.
    destruct (keep_original_filename cfg); by rewrite strftime_name_nonempty. }
  assert (Hn : name (mkPath output_folder (bts_name cfg taken_at bts_path)) <> "").
  { simpl. unfold bts_name. destruct (keep_original_filename cfg); discriminate. }
  destruct (get_unique_filename_run _ st Hn) as (p & R & FF).
  pose proof (first_free_parent _ _ _ FF) as Hp. simpl in Hp.
  pose proof (first_free_name _ _ _ Hn FF) as Hpn.
  set (tmp := mkPath (parent p) (stem p +:+ ".tmp.mp4")).
  assert (W : with_suffix p ".tmp.mp4" = Ok tmp).
  { unfold with_suffix. by destruct (String.eqb_spec (name p) ""). }
  assert (Lf : lift (Ok tmp) st = (Ok tmp, st)) by done.
  destruct (ffmpeg_cmd_numeric bts_path tmp taken_at location Hnum) as [cmd Hcmd].
  destruct (Hrun cmd) as [Hrc Hwr].
  assert (Nsrc_t : str bts_path <> str tmp).
  { unfold tmp. rewrite Hp, str_output_folder.
    unfold bts_path, joinpath.
    destruct (String.eqb (name (Path_of_string bts_media)) ""); discriminate. }
  assert (U : update_mp4_metadata env bts_path tmp taken_at location st
              = (Ok false, logged (with_fs st (<[str tmp := out]> (fs st)))
                                  ERROR (FailedMp4 bts_path))).
  { unfold update_mp4_metadata, subprocess_run. rewrite Hff, Hcmd. munfold.
    rewrite Hsome, Hwr. simpl.
    destruct (Z.eqb_spec (returncode (run cmd f)) 0); [done|]. reflexivity. }
  exists p. eexists. split.
  - unfold process_bts. rewrite T. fold bts_path. cbv zeta.
    rewrite (bind_run_Ok _ _ _ _ _ G). rewrite Hex, Hmp4.
    change (String.eqb ".mp4" ".mp4") with true.
    change (true && true) with true. cbv iota.
    fold (bts_name cfg taken_at bts_path). rewrite J.
    rewrite (bind_run_Ok _ _ _ _ _ R). rewrite W.
    rewrite (bind_run_Ok _ _ _ _ _ Lf).
    rewrite (bind_run_Ok _ _ _ _ _ U). cbv iota.
    munfold. simpl. rewrite lookup_insert_ne by (apply not_eq_sym, Nsrc_t).
    rewrite Hsome. reflexivity.
  - simpl. split; [by rewrite lookup_insert_eq|]. split.
    + rewrite lookup_insert_ne by (apply not_eq_sym, tmp_beside).
      by rewrite lookup_insert_eq.
    + clear. induction (stem p) as [|a s IH]; [reflexivity|].
      change (ends_with "~" (String a (s +:+ ".tmp.mp4")) = false).
      simpl. destruct (s +:+ ".tmp.mp4") eqn:E; [|exact IH].
      destruct s; discriminate.
Qed.

(** A transcoder that writes a stub and fails. *)
Definition failing (cmd : list string) (f : file) : completed :=
  mk_completed 1 (Some (mk_file (Video "stub") no_exif no_iptc [])).

(** Witness of [failed_transcode_leaves_temp]. *)
Lemma failed_transcode_leaves_temp_witness :
  "/Photos/user/bts/clip.mp4" <> ""
  /\ fs (initial clip_files)
       !! str (joinpath data_folder (name (Path_of_string "/Photos/user/bts/clip.mp4")))
     = Some clip
  /\ lower (suffix (joinpath data_folder
                      (name (Path_of_string "/Photos/user/bts/clip.mp4"))))
     = ".mp4"
  /\ numeric None = true
  /\ ffmpeg (transcoding failing) = Some failing
  /\ (forall cmd, returncode (failing cmd clip) <> 0%Z
                  /\ written (failing cmd clip)
                     = Some (mk_file (Video "stub") no_exif no_iptc []))
  /\ exists bts_new_path st',
    process_bts (transcoding failing)
                default_settings noon None (Some "/Photos/user/bts/clip.mp4")
                (initial clip_files) = (Ok tt, st')
    /\ fs st' !! str bts_new_path = Some clip
    /\ fs st' !! str (mkPath (parent bts_new_path)
                             (stem bts_new_path +:+ ".tmp.mp4"))
       = Some (mk_file (Video "stub") no_exif no_iptc [])
    /\ ends_with "~" (stem bts_new_path +:+ ".tmp.mp4") = false.
Proof.
  assert (H1 : "/Photos/user/bts/clip.mp4" <> "") by discriminate.
  assert (H2 : fs (initial clip_files)
       !! str (joinpath data_folder (name (Path_of_string "/Photos/user/bts/clip.mp4")))
     = Some clip) by (vm_compute; reflexivity).
  assert (H3 : lower (suffix (joinpath data_folder
                      (name (Path_of_string "/Photos/user/bts/clip.mp4"))))
     = ".mp4") by (vm_compute; reflexivity).
  assert (H4 : numeric None = true) by reflexivity.
  assert (H5 : ffmpeg (transcoding failing) = Some failing)
    by reflexivity.
  assert (H6 : forall cmd, returncode (failing cmd clip) <> 0%Z
                  /\ written (failing cmd clip)
                     = Some (mk_file (Video "stub") no_exif no_iptc []))
    by (intros cmd; split; [discriminate|reflexivity]).
  exact (conj H1 (conj H2 (conj H3 (conj H4 (conj H5 (conj H6
           (failed_transcode_leaves_temp _ default_settings noon None
              "/Photos/user/bts/clip.mp4" (initial clip_files) failing clip
              _ H1 H2 H3 H4 H5 H6))))))).
Defined.

(** ** Conversion in the combine pass *)

(** *** The metadata of the converted copy *)

(** The GPS block [update_exif] leaves in the dictionary. *)
Definition gps_written (loc : option location) (old : option gps_ifd)
  : result (option gps_ifd) :=
  match located loc with
  | Some (la, lo) => g ← gps_of la lo; Ok (Some g)
  | None => Ok old
  end.

(** The dictionary [update_exif] hands to [piexif.dump]. *)
Definition exif_written (old : exif_dict) (d : datetime) (g : option gps_ifd)
    (cap : option string) : exif_dict :=
  mk_exif (if truthy cap then cap else ImageDescription old)
          (Some (strftime_exif d)) g.

(** The IPTC block [update_iptc] saves. *)
Definition iptc_written (old : iptc_info) (cap : option string) : iptc_info :=
  mk_iptc (if truthy cap then cap else caption_abstract old)
          (Some source_app) (Some processing_tool).

Lemma update_exif_ok env p dt loc cap st f d g :
  fs st !! str p = Some f -> can_exif env p = true ->
  _utc_to_german_time (ZoneInfo env) (as_utc dt) = Ok d ->
  gps_written loc (GPS (f_exif f)) = Ok g ->
  dump (exif_written (f_exif f) d g cap) = Ok tt ->
  can_insert env p = true ->
  exists st', update_exif env (Some p) dt loc cap st = (Ok tt, st')
    /\ fs st' = <[str p := set_exif f (exif_written (f_exif f) d g cap)]> (fs st)
    /\ same_counts st st' /\ log_grows st st'
    /\ In (INFO, UpdatedExif p) (log st').
Proof.
  intros Hf Hx Hd Hg Hdump Hi. unfold update_exif, as_utc in *. munfold.
  rewrite Hf. simpl. rewrite Hx. simpl. rewrite Hd. simpl.
  unfold gps_written in Hg. unfold exif_written in *.
  destruct (located loc) as [[la lo]|].
  - destruct (gps_of la lo) as [g'|] eqn:Eg; [|done]. injection Hg as <-. simpl.
    destruct cap as [c|]; [destruct (truthy (Some c)) eqn:T|]; simpl in *;
      match goal with
      | |- context [dump ?e] =>
          replace (dump e) with (@Ok unit tt) by (symmetry; exact Hdump)
      end; simpl; rewrite Hi; simpl;
      (eexists; split; [reflexivity|]; simpl; split; [reflexivity|];
       split; [by repeat split|];
       split; [eexists; rewrite <- ?app_assoc; reflexivity|];
       rewrite ?in_app_iff; simpl; tauto).
  - injection Hg as <-. simpl.
    destruct cap as [c|]; [destruct (truthy (Some c)) eqn:T|]; simpl in *;
      match goal with
      | |- context [dump ?e] =>
          replace (dump e) with (@Ok unit tt) by (symmetry; exact Hdump)
      end; simpl; rewrite Hi; simpl;
      (eexists; split; [reflexivity|]; simpl; split; [reflexivity|];
       split; [by repeat split|];
       split; [eexists; rewrite <- ?app_assoc; reflexivity|];
       rewrite ?in_app_iff; simpl; tauto).
Qed.

Lemma update_iptc_ok env path cap st f :
  fs st !! path = Some f -> can_iptc env path = true ->
  file_is_jpeg f = true ->
  exists st', update_iptc env path cap st = (Ok tt, st')
    /\ fs st' = <[path := set_iptc f (iptc_written (f_iptc f) cap)]>
                  (<[path +:+ "~" := f]> (fs st))
    /\ same_counts st st' /\ log_grows st st'
    /\ In (INFO, UpdatedIptc path) (log st').
Proof.
  intros Hf Hx Hj. unfold update_iptc, iptc_save_as, iptc_written. munfold.
  rewrite Hf. simpl. rewrite Hx. simpl.
  destruct (truthy cap) eqn:T; simpl; rewrite Hj; simpl;
    (eexists; split; [reflexivity|]; simpl; split; [reflexivity|];
     split; [by repeat split|];
     split; [eexists; rewrite <- ?app_assoc; reflexivity|];
     rewrite ?in_app_iff; simpl; tauto).
Qed.

Lemma combined_jpg_keys (a : artifact) :
  str (combined_jpg_path a) <> str (combined_path a) +:+ "~"
  /\ str (combined_jpg_path a) <> "None" +:+ "~".
Proof.
  unfold combined_path, combined_jpg_path. rewrite !str_combined.
  set (t := split_head "_" (stem (a_path a))).
  split; [|discriminate].
  rewrite !app_assoc_str. intros E.
  apply (inj _) in E. apply (inj _) in E. discriminate.
Qed.

(** One round of the combine pass with conversion enabled: what becomes
    of the combined picture and of its copy. *)
Lemma combine_pair_converts env cfg a s st fa fb fmt1 fmt2 ip isec :
  fs st !! str (a_path a) = Some fa -> f_content fa = Picture fmt1 ip ->
  fs st !! str s = Some fb -> f_content fb = Picture fmt2 isec ->
  can_save env (combined_path a) = true ->
  convert_to_jpeg cfg = true ->
  exists st', combine_pair env cfg a s st = (Ok tt, st')
    /\ skipped_files_count st' = skipped_files_count st
    /\ content_at st' (str (combined_path a))
       = Some (Picture JPEG (Combined ip isec))
    /\ (can_save env (combined_jpg_path a) = false ->
        In (ERROR, ErrorConverting (combined_path a)) (log st')
        /\ In (ERROR, FailedConvertCombined (combined_path a)) (log st')
        /\ content_at st' (str (combined_jpg_path a))
           = content_at st (str (combined_jpg_path a)))
    /\ (can_save env (combined_jpg_path a) = true ->
        forall d g,
          can_exif env (combined_jpg_path a) = true ->
          can_insert env (combined_jpg_path a) = true ->
          can_iptc env (str (combined_jpg_path a)) = true ->
          _utc_to_german_time (ZoneInfo env) (as_utc (a_taken_at a)) = Ok d ->
          gps_written (a_location a) None = Ok g ->
          dump (exif_written no_exif d g (a_caption a)) = Ok tt ->
          fs st' !! str (combined_jpg_path a)
          = Some (mk_file (Picture JPEG (RGB (Combined ip isec)))
                          (exif_written no_exif d g (a_caption a))
                          (iptc_written no_iptc (a_caption a)) [])
          /\ In (INFO, UpdatedExif (combined_jpg_path a)) (log st')
          /\ In (INFO, UpdatedIptc (str (combined_jpg_path a))) (log st')).
Proof.
  intros Ha Hca Hb Hcb Hsave Hconv.
  destruct (combined_keys a) as (N1 & N2 & N3).
  destruct (combined_jpg_keys a) as (N4 & N5).
  destruct (combined_path_webp a) as (Sw & Wj).
  unfold combine_pair. cbv zeta.
  assert (J : joinpath output_folder_combined
                (split_head "_" (stem (a_path a)) +:+ "_combined.webp")
              = combined_path a).
  { unfold joinpath, combined_path.
    destruct (String.eqb_spec (split_head "_" (stem (a_path a)) +:+ "_combined.webp") "")
      as [E|]; [|done].
    apply (f_equal String.length) in E. rewrite length_app_str in E. simpl in E. lia. }
  rewrite J.
  set (K := combined_path a) in *.
  set (img := Combined ip isec).
  set (kf := mk_file (Picture JPEG img) no_exif no_iptc []).
  assert (C : combine_images_with_resizing (a_path a) s st = (Ok img, st)).
  { unfold combine_images_with_resizing. munfold. rewrite Ha. simpl. rewrite Hca.
    simpl. rewrite Hb. simpl. by rewrite Hcb. }
  rewrite (bind_run_Ok _ _ _ _ _ C).
  set (st1 := with_fs st (<[str K := kf]> (fs st))).
  assert (S1 : Image_save_jpeg env img K st = (Ok tt, st1)).
  { unfold Image_save_jpeg. by rewrite Hsave. }
  rewrite (bind_run_Ok _ _ _ _ _ S1).
  set (st2 := (incr_combined st1).2).
  assert (S2 : incr_combined st1 = (Ok tt, st2)) by done.
  rewrite (bind_run_Ok _ _ _ _ _ S2).
  set (st3 := logged st2 INFO (CombinedSaved K)).
  assert (S3 : logging INFO (CombinedSaved K) st2 = (Ok tt, st3)) by done.
  rewrite (bind_run_Ok _ _ _ _ _ S3).
  assert (C3 : content_at st3 (str K) = Some (Picture JPEG img)).
  { unfold content_at. simpl. by rewrite lookup_insert_eq. }
  assert (J3 : content_at st3 (str (combined_jpg_path a))
               = content_at st (str (combined_jpg_path a))).
  { unfold content_at. simpl. by rewrite lookup_insert_ne. }
  destruct (update_exif_frame env (Some K) (a_taken_at a) (a_location a)
              (a_caption a) st3) as (st4 & R4 & SC4 & F4 & L4 & _).
  rewrite (bind_run_Ok _ _ _ _ _ R4).
  set (st5 := logged st4 INFO MetadataAddedCombined).
  assert (S5 : logging INFO MetadataAddedCombined st4 = (Ok tt, st5)) by done.
  rewrite (bind_run_Ok _ _ _ _ _ S5).
  destruct (update_iptc_frame env (str K) (a_caption a) st5)
    as (st6 & R6 & SC6 & F6 & L6 & _).
  rewrite (bind_run_Ok _ _ _ _ _ R6).
  assert (C6 : content_at st6 (str K) = Some (Picture JPEG img)).
  { rewrite F6 by apply neq_backup. unfold st5. rewrite content_at_logged, F4. done. }
  assert (J6 : content_at st6 (str (combined_jpg_path a))
               = content_at st (str (combined_jpg_path a))).
  { rewrite F6 by done. unfold st5. by rewrite content_at_logged, F4. }
  assert (K6 : skipped_files_count st6 = skipped_files_count st).
  { destruct SC4 as (_ & _ & _ & E4 & _), SC6 as (_ & _ & _ & E6 & _).
    rewrite E6. simpl. by rewrite E4. }
  rewrite Hconv.
  unfold content_at in C6.
  destruct (fs st6 !! str K) as [f6|] eqn:E6; [|done].
  simpl in C6. injection C6 as C6.
  destruct (can_save env (combined_jpg_path a)) eqn:Hsj.
  - pose proof (convert_webp_to_jpg_ok env K st6 f6 JPEG img) as R7.
    rewrite Sw in R7. specialize (R7 eq_refl E6 C6).
    assert (Epath : mkPath (parent K) (stem K +:+ ".jpg") = combined_jpg_path a).
    { unfold with_suffix in Wj. destruct (String.eqb (name K) ""); congruence. }
    rewrite Epath in R7. specialize (R7 Hsj).
    set (Jp := combined_jpg_path a) in *.
    set (st7 := logged (with_fs st6 (<[str Jp := jpeg_of img]> (fs st6)))
                       INFO (Converted K)) in *.
    rewrite (bind_run_Ok _ _ _ _ _ R7). cbv iota beta.
    destruct (update_exif_frame env (Some Jp) (a_taken_at a) (a_location a)
                (a_caption a) st7) as (st8 & R8 & SC8 & F8 & L8 & X8).
    rewrite (bind_run_Ok _ _ _ _ _ R8).
    set (st9 := logged st8 INFO MetadataAddedConverted).
    assert (S9 : logging INFO MetadataAddedConverted st8 = (Ok tt, st9)) by done.
    rewrite (bind_run_Ok _ _ _ _ _ S9).
    destruct (update_iptc_frame env (str Jp) (a_caption a) st9)
      as (st10 & R10 & SC10 & F10 & L10 & X10).
    rewrite (bind_run_Ok _ _ _ _ _ R10).
    exists st10. split; [done|].
    split; [|split; [|split; [done|]]].
    + destruct SC8 as (_ & _ & _ & E8 & _), SC10 as (_ & _ & _ & E10 & _).
      rewrite E10. simpl. rewrite E8. simpl. done.
    + rewrite F10 by done. unfold st9. rewrite content_at_logged, F8.
      unfold content_at, st7. simpl. rewrite lookup_insert_ne by done.
      rewrite E6. simpl. by rewrite C6.
    + intros _ d g Hx Hi Hp Hd Hg Hdump.
      assert (E7 : fs st7 !! str Jp = Some (jpeg_of img)).
      { unfold st7. simpl. by rewrite lookup_insert_eq. }
      destruct (update_exif_ok env Jp (a_taken_at a) (a_location a) (a_caption a)
                  st7 (jpeg_of img) d g E7 Hx Hd Hg Hdump Hi)
        as (st8' & R8' & W8 & _ & _ & I8).
      rewrite R8 in R8'. injection R8' as <-.
      set (f8 := set_exif (jpeg_of img) (exif_written no_exif d g (a_caption a))) in *.
      assert (E9 : fs st9 !! str Jp = Some f8).
      { unfold st9. simpl. rewrite W8. by rewrite lookup_insert_eq. }
      destruct (update_iptc_ok env (str Jp) (a_caption a) st9 f8 E9 Hp eq_refl)
        as (st10' & R10' & W10 & _ & _ & I10).
      rewrite R10 in R10'. injection R10' as <-.
      split; [|split; [|done]].
      * rewrite W10. by rewrite lookup_insert_eq.
      * apply (log_grows_In st9 st10); [done|].
        apply (log_grows_In st8 st9); [by exists [(INFO, MetadataAddedConverted)]|done].
  - assert (F : conversion_fails env K st6).
    { unfold conversion_fails. rewrite E6, C6.
      unfold with_suffix in Wj. destruct (String.eqb (name K) ""); congruence. }
    assert (Swl : lower (suffix K) = ".webp") by (by rewrite Sw).
    rewrite (bind_run_Ok _ _ _ _ _ (convert_webp_to_jpg_fails env K st6 Swl F)).
    cbv iota beta.
    set (st7 := logged st6 ERROR (ErrorConverting K)).
    destruct (update_exif_frame env None (a_taken_at a) (a_location a)
                (a_caption a) st7) as (st8 & R8 & SC8 & F8 & L8 & _).
    rewrite (bind_run_Ok _ _ _ _ _ R8).
    set (st9 := logged st8 INFO MetadataAddedConverted).
    assert (S9 : logging INFO MetadataAddedConverted st8 = (Ok tt, st9)) by done.
    rewrite (bind_run_Ok _ _ _ _ _ S9).
    destruct (update_iptc_frame env "None" (a_caption a) st9)
      as (st10 & R10 & SC10 & F10 & L10 & _).
    rewrite (bind_run_Ok _ _ _ _ _ R10).
    exists (logged st10 ERROR (FailedConvertCombined K)). split; [done|].
    split; [|split; [|split; [|done]]].
    + simpl. destruct SC8 as (_ & _ & _ & E8 & _), SC10 as (_ & _ & _ & E10 & _).
      rewrite E10. simpl. rewrite E8. simpl. done.
    + rewrite content_at_logged, F10 by done. unfold st9.
      rewrite content_at_logged, F8.
      unfold content_at, st7. simpl. rewrite E6. simpl. by rewrite C6.
    + intros _. split; [|split].
      * simpl. apply in_or_app. left.
        apply (log_grows_In st9 st10); [done|].
        apply (log_grows_In st8 st9); [by exists [(INFO, MetadataAddedConverted)]|].
        apply (log_grows_In st7 st8); [done|].
        unfold st7. simpl. apply in_or_app. right. by left.
      * simpl. apply in_or_app. right. by left.
      * rewrite content_at_logged, F10 by done. unfold st9.
        rewrite content_at_logged, F8. unfold st7.
        by rewrite content_at_logged.
Qed.

(** C10. A round of the combine pass whose pictures decode writes the
    combined picture encoded as JPEG under a name that ends in .webp,
    whatever the configuration. With conversion enabled (and the encoder
    able to write it) a .jpg copy is made from it, the EXIF and IPTC
    writers are run on that copy, and the .webp-named JPEG is still
    there. When the two writers can work on the copy, the copy holds the
    converted picture, the German civil time of the primary's capture
    time as its capture time, the encoded location of the primary as its
    GPS block (none without a location) and the primary's caption, when
    that is a non-empty string, as its description and as its IPTC
    caption, beside the two fixed IPTC tags. *)
Theorem combined_webp_is_jpeg env cfg a s st fa fb fmt1 fmt2 ip isec :
  fs st !! str (a_path a) = Some fa -> f_content fa = Picture fmt1 ip ->
  fs st !! str s = Some fb -> f_content fb = Picture fmt2 isec ->
  can_save env (combined_path a) = true ->
  exists st', combine_pair env cfg a s st = (Ok tt, st')
    /\ suffix (combined_path a) = ".webp"
    /\ parent (combined_path a) = output_folder_combined
    /\ content_at st' (str (combined_path a))
       = Some (Picture JPEG (Combined ip isec))
    /\ (convert_to_jpeg cfg = true ->
        can_save env (combined_jpg_path a) = true ->
        with_suffix (combined_path a) ".jpg" = Ok (combined_jpg_path a)
        /\ content_at st' (str (combined_jpg_path a))
           = Some (Picture JPEG (RGB (Combined ip isec)))
        /\ In (INFO, MetadataAddedConverted) (log st')
        /\ (In (INFO, UpdatedExif (combined_jpg_path a)) (log st')
            \/ In (ERROR, FailedExif (Some (combined_jpg_path a))) (log st'))
        /\ (In (INFO, UpdatedIptc (str (combined_jpg_path a))) (log st')
            \/ In (ERROR, FailedIptc (str (combined_jpg_path a))) (log st'))
        /\ forall d g,
             can_exif env (combined_jpg_path a) = true ->
             can_insert env (combined_jpg_path a) = true ->
             can_iptc env (str (combined_jpg_path a)) = true ->
             _utc_to_german_time (ZoneInfo env) (as_utc (a_taken_at a)) = Ok d ->
             gps_written (a_location a) None = Ok g ->
             dump (mk_exif (if truthy (a_caption a) then a_caption a else None)
                           (Some (strftime_exif d)) g) = Ok tt ->
             fs st' !! str (combined_jpg_path a)
             = Some (mk_file (Picture JPEG (RGB (Combined ip isec)))
                       (mk_exif (if truthy (a_caption a) then a_caption a else None)
                                (Some (strftime_exif d)) g)
                       (mk_iptc (if truthy (a_caption a) then a_caption a else None)
                                (Some source_app) (Some processing_tool))
                       [])
             /\ In (INFO, UpdatedExif (combined_jpg_path a)) (log st')
             /\ In (INFO, UpdatedIptc (str (combined_jpg_path a))) (log st')).
Proof.
  intros Ha Hca Hb Hcb Hs.
  destruct (combine_pair_run env cfg a s st fa fb fmt1 fmt2 ip isec
              Ha Hca Hb Hcb Hs) as (st' & R & C & _ & _ & J).
  destruct (combined_path_webp a) as [Sw Wj].
  exists st'. split; [done|]. split; [done|]. split; [done|]. split; [done|].
  intros Hc Hj. split; [done|].
  destruct (J Hc Hj) as (J1 & J2 & J3 & J4).
  repeat (split; [assumption|]).
  destruct (combine_pair_converts env cfg a s st fa fb fmt1 fmt2 ip isec
              Ha Hca Hb Hcb Hs Hc) as (st'' & R' & _ & _ & _ & D).
  rewrite R in R'. injection R' as <-.
  intros d g Hx Hi Hp Hd Hg Hdump.
  exact (D Hj d g Hx Hi Hp Hd Hg Hdump).
Qed.

(** Witness of [combined_webp_is_jpeg]. *)
Lemma combined_webp_is_jpeg_witness :
  fs (initial pair_files) !! str (a_path first_artifact)
  = Some (jpeg_of (Pixels "p"))
  /\ f_content (jpeg_of (Pixels "p")) = Picture JPEG (RGB (Pixels "p"))
  /\ fs (initial pair_files) !! str secondary_jpg = Some (jpeg_of (Pixels "s"))
  /\ f_content (jpeg_of (Pixels "s")) = Picture JPEG (RGB (Pixels "s"))
  /\ can_save (quiet None) (combined_path first_artifact) = true
  /\ exists st',
      combine_pair (quiet None) default_settings first_artifact secondary_jpg
                   (initial pair_files) = (Ok tt, st')
      /\ suffix (combined_path first_artifact) = ".webp"
      /\ parent (combined_path first_artifact) = output_folder_combined
      /\ content_at st' (str (combined_path first_artifact))
         = Some (Picture JPEG (Combined (RGB (Pixels "p")) (RGB (Pixels "s"))))
      /\ (convert_to_jpeg default_settings = true ->
          can_save (quiet None) (combined_jpg_path first_artifact) = true ->
          with_suffix (combined_path first_artifact) ".jpg"
          = Ok (combined_jpg_path first_artifact)
          /\ content_at st' (str (combined_jpg_path first_artifact))
             = Some (Picture JPEG
                       (RGB (Combined (RGB (Pixels "p")) (RGB (Pixels "s")))))
          /\ In (INFO, MetadataAddedConverted) (log st')
          /\ (In (INFO, UpdatedExif (combined_jpg_path first_artifact)) (log st')
              \/ In (ERROR, FailedExif (Some (combined_jpg_path first_artifact)))
                    (log st'))
          /\ (In (INFO, UpdatedIptc (str (combined_jpg_path first_artifact)))
                 (log st')
              \/ In (ERROR, FailedIptc (str (combined_jpg_path first_artifact)))
                    (log st'))
          /\ forall d g,
               can_exif (quiet None) (combined_jpg_path first_artifact) = true ->
               can_insert (quiet None) (combined_jpg_path first_artifact) = true ->
               can_iptc (quiet None) (str (combined_jpg_path first_artifact)) = true ->
               _utc_to_german_time (ZoneInfo (quiet None))
                 (as_utc (a_taken_at first_artifact)) = Ok d ->
               gps_written (a_location first_artifact) None = Ok g ->
               dump (mk_exif (if truthy (a_caption first_artifact)
                              then a_caption first_artifact else None)
                             (Some (strftime_exif d)) g) = Ok tt ->
               fs st' !! str (combined_jpg_path first_artifact)
               = Some (mk_file
                         (Picture JPEG
                            (RGB (Combined (RGB (Pixels "p")) (RGB (Pixels "s")))))
                         (mk_exif (if truthy (a_caption first_artifact)
                                   then a_caption first_artifact else None)
                                  (Some (strftime_exif d)) g)
                         (mk_iptc (if truthy (a_caption first_artifact)
                                   then a_caption first_artifact else None)
                                  (Some source_app) (Some processing_tool))
                         [])
               /\ In (INFO, UpdatedExif (combined_jpg_path first_artifact)) (log st')
               /\ In (INFO, UpdatedIptc (str (combined_jpg_path first_artifact)))
                     (log st')).
Proof.
  assert (H1 : fs (initial pair_files) !! str (a_path first_artifact)
               = Some (jpeg_of (Pixels "p"))) by (vm_compute; reflexivity).
  assert (H2 : f_content (jpeg_of (Pixels "p")) = Picture JPEG (RGB (Pixels "p")))
    by reflexivity.
  assert (H3 : fs (initial pair_files) !! str secondary_jpg
               = Some (jpeg_of (Pixels "s"))) by (vm_compute; reflexivity).
  assert (H4 : f_content (jpeg_of (Pixels "s")) = Picture JPEG (RGB (Pixels "s")))
    by reflexivity.
  assert (H5 : can_save (quiet None) (combined_path first_artifact) = true)
    by reflexivity.
  exact (conj H1 (conj H2 (conj H3 (conj H4 (conj H5
           (combined_webp_is_jpeg (quiet None) default_settings first_artifact
              secondary_jpg (initial pair_files) (jpeg_of (Pixels "p"))
              (jpeg_of (Pixels "s")) JPEG JPEG (RGB (Pixels "p"))
              (RGB (Pixels "s")) H1 H2 H3 H4 H5)))))).
Defined.

(** The copy of the combined picture of Paris, after a whole run with the
    default settings: its EXIF block and its IPTC block. *)
Lemma paris_combined_copy (zi : option zoneinfo) :
  In zi [None; Some tzdata] ->
  fs (paris_run zi (Pixels "p") (Pixels "s"))
    !! "out/__combined/2024-07-15T12-00-00_combined.jpg"
  = Some (mk_file
            (Picture JPEG (RGB (Combined (RGB (Pixels "p")) (RGB (Pixels "s")))))
            (paris_exif 791)
            (mk_iptc (Some "Paris") (Some source_app) (Some processing_tool)) []).
Proof.
  intros [<-|[<-|[]]]; vm_compute; reflexivity.
Qed.

(** C5 (amended). When the decoder or the encoder fails on a WebP file,
    the converter logs the fault and returns the failure value instead of
    raising. In the loop over the records, the caller then counts one
    skipped file and does nothing else for it (the files, the recorded
    artifacts and the other counters stay as they are), and the loop over
    the manifest still reaches its end. In the combine pass, the caller
    logs that the combined picture could not be converted: the round ends
    without raising, the skipped counter is as it was, the combined
    picture is still there under its name in .webp, and no copy of it has
    been written. *)
Theorem conversion_failure_skips env cfg taken_at location caption path r st :
  convert_to_jpeg cfg = true ->
  lower (suffix path) = ".webp" ->
  conversion_fails env path st ->
  convert_webp_to_jpg env path st
  = (Ok (None, false), logged st ERROR (ErrorConverting path))
  /\ process_file env cfg taken_at location caption path r st
     = (Ok tt, skipped_one (logged (logged st INFO (FoundImage path))
                                   ERROR (ErrorConverting path)))
  /\ (forall data st0, (for_each (process_entry env cfg) data st0).1 = Ok tt)
  /\ (forall a s st0 fa fb fmt1 fmt2 ip isec,
        fs st0 !! str (a_path a) = Some fa -> f_content fa = Picture fmt1 ip ->
        fs st0 !! str s = Some fb -> f_content fb = Picture fmt2 isec ->
        can_save env (combined_path a) = true ->
        can_save env (combined_jpg_path a) = false ->
        exists st1, combine_pair env cfg a s st0 = (Ok tt, st1)
          /\ In (ERROR, ErrorConverting (combined_path a)) (log st1)
          /\ In (ERROR, FailedConvertCombined (combined_path a)) (log st1)
          /\ skipped_files_count st1 = skipped_files_count st0
          /\ content_at st1 (str (combined_path a))
             = Some (Picture JPEG (Combined ip isec))
          /\ content_at st1 (str (combined_jpg_path a))
             = content_at st0 (str (combined_jpg_path a))).
Proof.
  intros Hc Hw Hf. split; [by apply convert_webp_to_jpg_fails|].
  split; [|split; [apply for_each_entry_total|]].
  - unfold process_file. rewrite Hc.
    assert (L : logging INFO (FoundImage path) st
                = (Ok tt, logged st INFO (FoundImage path))) by done.
    rewrite (bind_run_Ok _ _ _ _ _ L).
    rewrite (bind_run_Ok _ _ _ _ _
               (convert_webp_to_jpg_fails env path
                  (logged st INFO (FoundImage path)) Hw Hf)).
    done.
  - intros a s st0 fa fb fmt1 fmt2 ip isec Ha Hca Hb Hcb Hs Hj.
    destruct (combine_pair_converts env cfg a s st0 fa fb fmt1 fmt2 ip isec
                Ha Hca Hb Hcb Hs Hc) as (st1 & R & K & C & F & _).
    destruct (F Hj) as (F1 & F2 & F3).
    exists st1. done.
Qed.

(** Witness of [conversion_failure_skips]: a file that is not a
    picture. *)
Lemma conversion_failure_skips_witness :
  convert_to_jpeg default_settings = true
  /\ lower (suffix s1_path) = ".webp"
  /\ conversion_fails (quiet None) s1_path (initial broken_files)
  /\ convert_webp_to_jpg (quiet None) s1_path (initial broken_files)
     = (Ok (None, false),
        logged (initial broken_files) ERROR (ErrorConverting s1_path))
  /\ process_file (quiet None) default_settings noon None None s1_path secondary
       (initial broken_files)
     = (Ok tt, skipped_one (logged (logged (initial broken_files) INFO
                                           (FoundImage s1_path))
                                   ERROR (ErrorConverting s1_path)))
  /\ (forall data st0,
        (for_each (process_entry (quiet None) default_settings) data st0).1 = Ok tt)
  /\ (forall a s st0 fa fb fmt1 fmt2 ip isec,
        fs st0 !! str (a_path a) = Some fa -> f_content fa = Picture fmt1 ip ->
        fs st0 !! str s = Some fb -> f_content fb = Picture fmt2 isec ->
        can_save (quiet None) (combined_path a) = true ->
        can_save (quiet None) (combined_jpg_path a) = false ->
        exists st1,
          combine_pair (quiet None) default_settings a s st0 = (Ok tt, st1)
          /\ In (ERROR, ErrorConverting (combined_path a)) (log st1)
          /\ In (ERROR, FailedConvertCombined (combined_path a)) (log st1)
          /\ skipped_files_count st1 = skipped_files_count st0
          /\ content_at st1 (str (combined_path a))
             = Some (Picture JPEG (Combined ip isec))
          /\ content_at st1 (str (combined_jpg_path a))
             = content_at st0 (str (combined_jpg_path a))).
Proof.
  assert (H1 : convert_to_jpeg default_settings = true) by reflexivity.
  assert (H2 : lower (suffix s1_path) = ".webp") by reflexivity.
  assert (H3 : conversion_fails (quiet None) s1_path (initial broken_files))
    by exact I.
  exact (conj H1 (conj H2 (conj H3
           (conversion_failure_skips (quiet None) default_settings noon None None
              s1_path secondary (initial broken_files) H1 H2 H3)))).
Defined.

(** An environment where the encoder cannot write a file whose name ends
    in .jpg into the folder of the combined pictures, and all else
    works. *)
Definition jpg_refused : environment :=
  mk_environment None (fun _ => Raise ValueError)
    (fun p => negb (String.eqb (parent p) output_folder_combined
                    && String.eqb (suffix p) ".jpg"))
    (fun _ => true) (fun _ => true) (fun _ => true) None.

(** What C5 says of the two callers of the converter: after a failed
    conversion, one more file is counted as skipped. *)
Definition conversion_failure_claim : Prop :=
  (forall env cfg taken_at location caption path r st,
     convert_to_jpeg cfg = true ->
     lower (suffix path) = ".webp" ->
     conversion_fails env path st ->
     exists st',
       process_file env cfg taken_at location caption path r st = (Ok tt, st')
       /\ skipped_files_count st' = S (skipped_files_count st))
  /\ (forall env cfg a s st st',
        convert_to_jpeg cfg = true ->
        combine_pair env cfg a s st = (Ok tt, st') ->
        ~ In (ERROR, ErrorConverting (combined_path a)) (log st) ->
        In (ERROR, ErrorConverting (combined_path a)) (log st') ->
        skipped_files_count st' = S (skipped_files_count st)).

(** C5 (counterexample). In the combine pass a failed conversion is not
    counted: when the copy of the combined picture cannot be encoded, the
    round logs the converter's error and ends with the skipped counter at
    zero, as it was. *)
Lemma conversion_failure_skips_counterexample : ~ conversion_failure_claim.
Proof.
  intros [_ C].
  assert (E0 : ~ In (ERROR, ErrorConverting (combined_path first_artifact))
                    (log (initial pair_files))) by (intros []).
  assert (E1 : (combine_pair jpg_refused default_settings first_artifact
                  secondary_jpg (initial pair_files)).1 = Ok tt)
    by (vm_compute; reflexivity).
  assert (E2 : skipped_files_count
                 (combine_pair jpg_refused default_settings first_artifact
                    secondary_jpg (initial pair_files)).2 = 0%nat)
    by (vm_compute; reflexivity).
  assert (E3 : In (ERROR, ErrorConverting (combined_path first_artifact))
                  (log (combine_pair jpg_refused default_settings first_artifact
                          secondary_jpg (initial pair_files)).2))
    by (vm_compute; tauto).
  specialize (C jpg_refused default_settings first_artifact secondary_jpg
                (initial pair_files)).
  remember (combine_pair jpg_refused default_settings first_artifact
              secondary_jpg (initial pair_files)) as run eqn:Er.
  clear Er. destruct run as [r st']. cbn [fst snd] in E1, E2, E3. subst r.
  specialize (C st' eq_refl eq_refl E0 E3).
  change (skipped_files_count (initial pair_files)) with 0%nat in C.
  congruence.
Qed.
